(** * DAH extractor: the text-to-airspace pipeline, embedded and verified

    The development follows the JavaScript sources of the pipeline:
    - [Parser]: the CSV / JSON / text parser ([parseDAHFile] with
      [detectFileFormat], [parseCSVFormat], [parseStructuredText],
      [parseJSONFormat], [parseGenericFormat] and their helpers);
    - [DahParser]: the PDF-text parser ([parseAirspaceText] with
      [extractCoordinatesFromLine], [parseDMSCoordinate], [dmsToDecimal],
      [extractVerticalLimits]);
    - [Converter]: the converter of parsed data ([convertToVATGlasses] with
      [convertAirspace], [convertPosition], [convertAirport],
      [normalizeAirspaceType], [normalizeAltitude], [normalizeCoordinate])
      and [validateVATGlassesData];
    - [SectorConverter]: the converter of PDF-text records to sectors
      ([convertToVATGlasses] with [convertAirspace], [formatCoordinate],
      [parseAltitude], [extractPositionId], [extractLocationName],
      [determinePositionPrefix]).

    The JavaScript run-time the sources rely on is modelled first: strings
    ([Text]), numbers ([Num]), regular expressions ([Regex]), [JSON.parse]
    as a recogniser ([Json]) and plain objects used as dictionaries
    ([Dict]).

    Modelling conventions.
    - A string is the sequence of its UTF-16 code units; the model covers the
      code units 0..255, one [ascii] each, which contains every character the
      sources' patterns mention (the degree sign is code unit 176).  Case
      mapping is that of the letters whose other case is a code unit
      0..255 too: a-z / A-Z and the Latin-1 letters 224..254 / 192..222.
      The sharp s, the micro sign and the y with diaeresis, whose capitals
      are not such code units, are left as they are.
    - A number is [NaN], an infinity or an exact rational: rounding to the
      nearest double, hence also the overflow of a long numeral to an
      infinity, and the sign of zero are not represented.
    - An exception is a value of [exn] returned through [result]. *)

From Stdlib Require Import String Ascii List ZArith QArith Qround Qabs Bool Lia Arith.
From Stdlib Require Import Sorted Permutation Lqa.
Import ListNotations.
Close Scope Q_scope.
Set Warnings "-register-all".

Open Scope string_scope.
Open Scope nat_scope.

(* ================================================================== *)
(** ** Exceptions *)

Inductive exn : Type :=
| TypeError (msg : string)
| Error (msg : string).

Inductive result (A : Type) : Type :=
| Ok (a : A)
| Throw (e : exn).
Arguments Ok {A} a.
Arguments Throw {A} e.

Definition bind {A B} (m : result A) (f : A -> result B) : result B :=
  match m with
  | Ok a => f a
  | Throw e => Throw e
  end.

Notation "'let*' x ':=' m 'in' k" := (bind m (fun x => k))
  (at level 10, x pattern, m at level 100, k at level 200).

Fixpoint mapM {A B} (f : A -> result B) (l : list A) : result (list B) :=
  match l with
  | [] => Ok []
  | a :: l' => let* b := f a in let* bs := mapM f l' in Ok (b :: bs)
  end.

(* ================================================================== *)
(** ** Strings *)

Module Text.

Definition code (c : ascii) : nat := nat_of_ascii c.
Definition chr (n : nat) : ascii := ascii_of_nat n.

Definition nl : string := String (chr 10) "".
Definition dquote : ascii := chr 34.
Definition degree : ascii := chr 176.

Definition between (lo hi : nat) (c : ascii) : bool :=
  (lo <=? code c) && (code c <=? hi).

Definition is_digit : ascii -> bool := between 48 57.
Definition is_upper : ascii -> bool := between 65 90.
Definition is_lower : ascii -> bool := between 97 122.

(** White space of [String.prototype.trim] and of the pattern class [\s],
    within the code units covered: TAB, LF, VT, FF, CR, SPACE, NBSP. *)
Definition is_space (c : ascii) : bool :=
  between 9 13 c || (code c =? 32) || (code c =? 160).

(** Line terminators (excluded by the pattern [.]). *)
Definition is_line_terminator (c : ascii) : bool :=
  (code c =? 10) || (code c =? 13).

(** The Latin-1 letters beside a-z and A-Z: the small ones 224..254 and
    the capitals 192..222, the division and multiplication signs (247 and
    215) apart. *)
Definition is_lower_latin1 (c : ascii) : bool :=
  between 224 254 c && negb (code c =? 247).
Definition is_upper_latin1 (c : ascii) : bool :=
  between 192 222 c && negb (code c =? 215).

Definition upper_char (c : ascii) : ascii :=
  if is_lower c || is_lower_latin1 c then chr (code c - 32) else c.
Definition lower_char (c : ascii) : ascii :=
  if is_upper c || is_upper_latin1 c then chr (code c + 32) else c.

Fixpoint map_chars (f : ascii -> ascii) (s : string) : string :=
  match s with
  | EmptyString => EmptyString
  | String c s' => String (f c) (map_chars f s')
  end.

Definition toUpperCase : string -> string := map_chars upper_char.
Definition toLowerCase : string -> string := map_chars lower_char.

Fixpoint trimStart (s : string) : string :=
  match s with
  | String c s' => if is_space c then trimStart s' else s
  | EmptyString => EmptyString
  end.

Fixpoint trimEnd (s : string) : string :=
  match s with
  | EmptyString => EmptyString
  | String c s' =>
      match trimEnd s' with
      | EmptyString => if is_space c then EmptyString else String c EmptyString
      | t => String c t
      end
  end.

Definition trim (s : string) : string := trimEnd (trimStart s).

Definition is_empty (s : string) : bool :=
  match s with EmptyString => true | _ => false end.

Fixpoint startsWith (p s : string) : bool :=
  match p, s with
  | EmptyString, _ => true
  | String a p', String b s' => Ascii.eqb a b && startsWith p' s'
  | String _ _, EmptyString => false
  end.

Fixpoint includes (s sub : string) : bool :=
  startsWith sub s ||
  match s with
  | EmptyString => false
  | String _ s' => includes s' sub
  end.

Fixpoint drop (n : nat) (s : string) : string :=
  match n, s with
  | S n', String _ s' => drop n' s'
  | _, _ => s
  end.

Fixpoint take (n : nat) (s : string) : string :=
  match n, s with
  | S n', String c s' => String c (take n' s')
  | _, _ => EmptyString
  end.

(** [s.substring(i, j)] for [i <= j]. *)
Definition substring (i j : nat) (s : string) : string :=
  take (j - i) (drop i s).

(** [s.split(sep)] for a one-character separator: the pieces between the
    separators, the empty ones included. *)
Fixpoint split (sep : ascii) (s : string) : list string :=
  match s with
  | EmptyString => [EmptyString]
  | String c s' =>
      if Ascii.eqb c sep then EmptyString :: split sep s'
      else match split sep s' with
           | p :: ps => String c p :: ps
           | [] => [String c EmptyString]
           end
  end.

Definition lines (s : string) : list string := split (chr 10) s.

(** [s.split(/[...]/)] for a class of separators. *)
Fixpoint split_where (sep : ascii -> bool) (s : string) : list string :=
  match s with
  | EmptyString => [EmptyString]
  | String c s' =>
      if sep c then EmptyString :: split_where sep s'
      else match split_where sep s' with
           | p :: ps => String c p :: ps
           | [] => [String c EmptyString]
           end
  end.

Fixpoint filter_chars (p : ascii -> bool) (s : string) : string :=
  match s with
  | EmptyString => EmptyString
  | String c s' => if p c then String c (filter_chars p s') else filter_chars p s'
  end.

(** Whether every character of [s] satisfies [p]. *)
Fixpoint every (p : ascii -> bool) (s : string) : bool :=
  match s with
  | EmptyString => true
  | String c s' => p c && every p s'
  end.

Definition digit_val (c : ascii) : Z := Z.of_nat (code c - 48).

(** Decimal numeral of a natural number (template literals of an index). *)
Fixpoint digits_of (fuel n : nat) (acc : string) : string :=
  match fuel with
  | O => acc
  | S fuel' =>
      let acc' := String (chr (48 + n mod 10)) acc in
      if n / 10 =? 0 then acc' else digits_of fuel' (n / 10) acc'
  end.
Definition of_nat (n : nat) : string := digits_of (S n) n EmptyString.

Fixpoint repeat_char (n : nat) (c : ascii) : string :=
  match n with
  | O => EmptyString
  | S n' => String c (repeat_char n' c)
  end.

(** [s.padStart(n, c)] for a filler of one character. *)
Definition padStart (n : nat) (c : ascii) (s : string) : string :=
  repeat_char (n - String.length s) c ++ s.

(** [fields.join(sep)] *)
Fixpoint join (sep : string) (fields : list string) : string :=
  match fields with
  | [] => EmptyString
  | [f] => f
  | f :: fields' => f ++ sep ++ join sep fields'
  end.

End Text.

(* ================================================================== *)
(** ** Numbers *)

Module Num.

Inductive number : Type :=
| NaN
| Inf (negative : bool)
| Fin (q : Q).

Definition of_Z (z : Z) : number := Fin (inject_Z z).

Definition isNaN (n : number) : bool :=
  match n with NaN => true | _ => false end.

(** Truthiness of a number: [NaN] and zero are falsy. *)
Definition truthy (n : number) : bool :=
  match n with
  | NaN => false
  | Inf _ => true
  | Fin q => negb (Qeq_bool q 0)
  end.

Definition neg (n : number) : number :=
  match n with
  | NaN => NaN
  | Inf s => Inf (negb s)
  | Fin q => Fin (Qred (- q))
  end.

Definition add (a b : number) : number :=
  match a, b with
  | NaN, _ | _, NaN => NaN
  | Inf s, Inf t => if Bool.eqb s t then Inf s else NaN
  | Inf s, Fin _ | Fin _, Inf s => Inf s
  | Fin p, Fin q => Fin (Qred (p + q))
  end.

Definition sub (a b : number) : number := add a (neg b).

(** Division by a non-zero finite constant, the only division the sources
    perform ([/ 10], [/ 60], [/ 3600]). *)
Definition div_by (a : number) (d : Q) : number :=
  match a with
  | NaN => NaN
  | Inf s => Inf (if Qle_bool 0 d then s else negb s)
  | Fin p => Fin (Qred (p / d))
  end.

(** [a > b]; false as soon as one side is [NaN]. *)
Definition gt (a b : number) : bool :=
  match a, b with
  | NaN, _ | _, NaN => false
  | Inf s, Inf t => negb s && t
  | Inf s, Fin _ => negb s
  | Fin _, Inf t => t
  | Fin p, Fin q => negb (Qle_bool p q)
  end.

(** Same mathematical value ([===] on numbers). *)
Definition eqb (a b : number) : bool :=
  match a, b with
  | Inf s, Inf t => Bool.eqb s t
  | Fin p, Fin q => Qeq_bool p q
  | _, _ => false
  end.

(** [Math.abs], [Math.floor] and the multiplication by a positive finite
    constant ([* 60]). *)
Definition abs (n : number) : number :=
  match n with
  | NaN => NaN
  | Inf _ => Inf false
  | Fin q => Fin (Qred (Qabs q))
  end.

Definition floor (n : number) : number :=
  match n with
  | Fin q => of_Z (Qfloor q)
  | other => other
  end.

Definition mul_by (a : number) (m : Q) : number :=
  match a with
  | NaN => NaN
  | Inf s => Inf s
  | Fin p => Fin (Qred (p * m))
  end.

(** *** [parseInt(s)] without a radix argument *)

Definition hex_val (c : ascii) : option Z :=
  if Text.is_digit c then Some (Text.digit_val c)
  else if Text.between 97 102 c then Some (Z.of_nat (Text.code c - 87))
  else if Text.between 65 70 c then Some (Z.of_nat (Text.code c - 55))
  else None.

Definition dec_val (c : ascii) : option Z :=
  if Text.is_digit c then Some (Text.digit_val c) else None.

(** Longest prefix of digits in the radix, as (value, digit count, rest). *)
Fixpoint read_digits (val : ascii -> option Z) (radix : Z) (acc : Z) (n : nat)
    (s : string) : Z * nat * string :=
  match s with
  | String c s' =>
      match val c with
      | Some d => read_digits val radix (acc * radix + d) (S n) s'
      | None => (acc, n, s)
      end
  | EmptyString => (acc, n, s)
  end.

Definition read_sign (s : string) : bool * string :=
  match s with
  | String "-" s' => (true, s')
  | String "+" s' => (false, s')
  | _ => (false, s)
  end.

Definition parseInt (s : string) : number :=
  let (negative, s1) := read_sign (Text.trimStart s) in
  let (hex, s2) :=
    if Text.startsWith "0x" s1 || Text.startsWith "0X" s1
    then (true, Text.drop 2 s1) else (false, s1) in
  match (if hex then read_digits hex_val 16 0 0 s2
         else read_digits dec_val 10 0 0 s2) with
  | (_, O, _) => NaN
  | (v, _, _) => of_Z (if negative then - v else v)
  end.

(** *** [parseFloat(s)]: the longest prefix that is a decimal literal *)

Definition pow10 (e : Z) : Q :=
  if (0 <=? e)%Z then inject_Z (10 ^ e) else (1 # 1) / inject_Z (10 ^ (- e)).

(** An exponent part [e], [E] with an optional sign and at least one
    digit; absent (exponent 0) when no digit follows. *)
Definition read_exponent (s : string) : Z :=
  match s with
  | String c s' =>
      if Ascii.eqb c "e" || Ascii.eqb c "E" then
        let (negative, s1) := read_sign s' in
        match read_digits dec_val 10 0 0 s1 with
        | (_, O, _) => 0%Z
        | (e, _, _) => if negative then (- e)%Z else e
        end
      else 0%Z
  | EmptyString => 0%Z
  end.

Definition parseFloat (s : string) : number :=
  let (negative, s1) := read_sign (Text.trimStart s) in
  if Text.startsWith "Infinity" s1 then Inf negative
  else
    let '(ip, ni, s2) := read_digits dec_val 10 0 0 s1 in
    let '(fp, nf, s3) :=
      match s2 with
      | String "." s' => read_digits dec_val 10 0 0 s'
      | _ => (0%Z, O, s2)
      end in
    match ni, nf with
    | O, O => NaN
    | _, _ =>
        let mant := (inject_Z ip + inject_Z fp * pow10 (- Z.of_nat nf))%Q in
        let q := (mant * pow10 (read_exponent s3))%Q in
        Fin (Qred (if negative then - q else q))
    end.

(** [x.toFixed(6)] read back by [parseFloat]: the nearest multiple of
    10^-6, a tie going away from zero. *)
Definition round6 (n : number) : number :=
  match n with
  | Fin q =>
      let a := Qabs q in
      let k := Qfloor (a * inject_Z 1000000 + (1 # 2))%Q in
      let r := (inject_Z k / inject_Z 1000000)%Q in
      Fin (Qred (if Qle_bool 0 q then r else - r))
  | other => other
  end.

End Num.

(* ================================================================== *)
(** ** Regular expressions

    A backtracking matcher with the priorities of the JavaScript one: an
    alternative tries its left side first, a greedy quantifier tries one more
    iteration before the continuation and a lazy one the continuation first,
    and an iteration that consumes nothing is rejected.  The patterns of the
    sources are transcribed as terms of [regex]. *)

Module Regex.

Inductive regex : Type :=
| Eps
| Class (p : ascii -> bool)
| Seq (r1 r2 : regex)
| Alt (r1 r2 : regex)
| Star (greedy : bool) (r : regex)
| Opt (greedy : bool) (r : regex)
| Group (i : nat) (r : regex)
| Bol
| Eol.

(** Matcher state: the offset reached, the text that remains there and the
    captures made so far (most recent first). *)
Record mstate : Type := { pos : nat; rest : string; caps : list (nat * string) }.

Fixpoint run (r : regex) (st : mstate) (k : mstate -> option mstate)
    {struct r} : option mstate :=
  match r with
  | Eps => k st
  | Class p =>
      match rest st with
      | String c s' =>
          if p c then k {| pos := S (pos st); rest := s'; caps := caps st |}
          else None
      | EmptyString => None
      end
  | Seq r1 r2 => run r1 st (fun st1 => run r2 st1 k)
  | Alt r1 r2 =>
      match run r1 st k with
      | Some out => Some out
      | None => run r2 st k
      end
  | Star g r' =>
      (fix loop (fuel : nat) (st : mstate) {struct fuel} : option mstate :=
         match fuel with
         | O => k st
         | S fuel' =>
             let again (_ : unit) :=
               run r' st (fun st' =>
                 if pos st <? pos st' then loop fuel' st' else None) in
             if g then
               match again tt with Some out => Some out | None => k st end
             else
               match k st with Some out => Some out | None => again tt end
         end) (String.length (rest st)) st
  | Opt g r' =>
      let once (_ : unit) :=
        run r' st (fun st' => if pos st <? pos st' then k st' else None) in
      if g then
        match once tt with Some out => Some out | None => k st end
      else
        match k st with Some out => Some out | None => once tt end
  | Group i r' =>
      run r' st (fun st' =>
        k {| pos := pos st'; rest := rest st';
             caps := (i, Text.take (pos st' - pos st) (rest st)) :: caps st' |})
  | Bol => if pos st =? 0 then k st else None
  | Eol => match rest st with EmptyString => k st | _ => None end
  end.

(** A match: where it starts and stops, its text and its captures. *)
Record rmatch : Type :=
  { index : nat; stop : nat; text : string; groups : list (nat * string) }.

Fixpoint lookup (i : nat) (l : list (nat * string)) : option string :=
  match l with
  | [] => None
  | (j, s) :: l' => if i =? j then Some s else lookup i l'
  end.

(** [m[i]]: the capture of group [i], [None] for [undefined]. *)
Definition group (m : rmatch) (i : nat) : option string := lookup i (groups m).

(** [m[i] || dflt]. *)
Definition group_or (m : rmatch) (i : nat) (dflt : string) : string :=
  match group m i with
  | Some (String c s) => String c s
  | _ => dflt
  end.

(** [m[i]] of a group that takes part in every match. *)
Definition group_text (m : rmatch) (i : nat) : string := group_or m i "".

(** Leftmost match at or after offset [i], [s] being the text from [i] on. *)
Fixpoint search_from (r : regex) (i : nat) (s : string) : option rmatch :=
  match run r {| pos := i; rest := s; caps := [] |} Some with
  | Some st =>
      Some {| index := i; stop := pos st;
              text := Text.take (pos st - i) s; groups := caps st |}
  | None =>
      match s with
      | String _ s' => search_from r (S i) s'
      | EmptyString => None
      end
  end.

(** [s.match(r)] for a pattern without the [g] flag. *)
Definition exec (r : regex) (s : string) : option rmatch := search_from r 0 s.

Definition test (r : regex) (s : string) : bool :=
  match exec r s with Some _ => true | None => false end.

(** [[...s.matchAll(r)]] for a pattern with the [g] flag: each search
    resumes where the previous match stopped, one further after an empty
    match. *)
Fixpoint matchAll_from (fuel : nat) (r : regex) (i : nat) (s : string)
    : list rmatch :=
  match fuel with
  | O => []
  | S fuel' =>
      match search_from r i s with
      | None => []
      | Some m =>
          let next := if stop m =? index m then S (stop m) else stop m in
          m :: (if String.length s <? next - i then []
                else matchAll_from fuel' r next (Text.drop (next - i) s))
      end
  end.

Definition matchAll (r : regex) (s : string) : list rmatch :=
  matchAll_from (S (String.length s)) r 0 s.

(** [s.replace(r, '')] for a pattern without the [g] flag. *)
Definition remove_first (r : regex) (s : string) : string :=
  match exec r s with
  | Some m => Text.take (index m) s ++ Text.drop (stop m) s
  | None => s
  end.

(** *** Pattern atoms *)

Definition lit (c : ascii) : regex := Class (Ascii.eqb c).
(** A letter under the [i] flag. *)
Definition lit_i (c : ascii) : regex :=
  Class (fun x => Ascii.eqb (Text.upper_char x) (Text.upper_char c)).

Fixpoint str (s : string) : regex :=
  match s with
  | EmptyString => Eps
  | String c EmptyString => lit c
  | String c s' => Seq (lit c) (str s')
  end.

Fixpoint str_i (s : string) : regex :=
  match s with
  | EmptyString => Eps
  | String c EmptyString => lit_i c
  | String c s' => Seq (lit_i c) (str_i s')
  end.

Fixpoint mem (c : ascii) (s : string) : bool :=
  match s with
  | EmptyString => false
  | String d s' => Ascii.eqb c d || mem c s'
  end.

(** [[abc]] and, under the [i] flag, [[abc]] for letters. *)
Definition one_of (s : string) : regex := Class (fun c => mem c s).
Definition one_of_i (s : string) : regex :=
  Class (fun c => mem (Text.upper_char c) (Text.toUpperCase s)).

Definition digit : regex := Class Text.is_digit.                 (* \d *)
Definition space : regex := Class Text.is_space.                 (* \s *)
Definition upper : regex := Class Text.is_upper.                 (* [A-Z] *)
Definition any : regex :=                                        (* . *)
  Class (fun c => negb (Text.is_line_terminator c)).

Definition plus (r : regex) : regex := Seq r (Star true r).      (* r+ *)
Definition plus_lazy (r : regex) : regex := Seq r (Star false r). (* r+? *)
Definition star (r : regex) : regex := Star true r.              (* r* *)
Definition opt (r : regex) : regex := Opt true r.                (* r? *)

Fixpoint times (n : nat) (r : regex) : regex :=                  (* r{n} *)
  match n with
  | O => Eps
  | 1 => r
  | S n' => Seq r (times n' r)
  end.

(** *** What a pattern matches

    [matches r st st'] holds when [r] can match from the state [st] and
    leave the state [st']; the matcher [run] picks one such match. *)

Inductive matches : regex -> mstate -> mstate -> Prop :=
| m_eps st : matches Eps st st
| m_class p st c s' :
    rest st = String c s' -> p c = true ->
    matches (Class p) st {| pos := S (pos st); rest := s'; caps := caps st |}
| m_seq r1 r2 st st1 st2 :
    matches r1 st st1 -> matches r2 st1 st2 -> matches (Seq r1 r2) st st2
| m_alt_l r1 r2 st st' : matches r1 st st' -> matches (Alt r1 r2) st st'
| m_alt_r r1 r2 st st' : matches r2 st st' -> matches (Alt r1 r2) st st'
| m_star_stop g r st : matches (Star g r) st st
| m_star_more g r st st1 st2 :
    matches r st st1 -> matches (Star g r) st1 st2 -> matches (Star g r) st st2
| m_opt_skip g r st : matches (Opt g r) st st
| m_opt_take g r st st' : matches r st st' -> matches (Opt g r) st st'
| m_group i r st st' :
    matches r st st' ->
    matches (Group i r) st
      {| pos := pos st'; rest := rest st';
         caps := (i, Text.take (pos st' - pos st) (rest st)) :: caps st' |}
| m_bol st : pos st = 0 -> matches Bol st st
| m_eol st : rest st = "" -> matches Eol st st.

(** The groups a pattern contains. *)
Fixpoint group_ids (r : regex) : list nat :=
  match r with
  | Seq r1 r2 | Alt r1 r2 => group_ids r1 ++ group_ids r2
  | Star _ r' | Opt _ r' => group_ids r'
  | Group i r' => i :: group_ids r'
  | _ => []
  end.

Declare Scope regex_scope.
Delimit Scope regex_scope with re.
Bind Scope regex_scope with regex.
Notation "r1 ;; r2" := (Seq r1 r2)
  (at level 61, right associativity) : regex_scope.
Notation "r1 <|> r2" := (Alt r1 r2)
  (at level 62, right associativity) : regex_scope.

End Regex.

(* ================================================================== *)
(** ** [JSON.parse], as a recogniser

    [detectFileFormat] only asks whether [JSON.parse(content)] succeeds.
    [valid] accepts the texts of the JSON grammar: one value between optional
    white space, where a value is an object, an array, a string, a number or
    one of [true], [false], [null]. *)

Module Json.

Definition is_ws (c : ascii) : bool :=
  let n := Text.code c in (n =? 32) || (n =? 9) || (n =? 10) || (n =? 13).

Fixpoint skip_ws (s : string) : string :=
  match s with
  | String c s' => if is_ws c then skip_ws s' else s
  | EmptyString => EmptyString
  end.

Definition is_hex (c : ascii) : bool :=
  match Num.hex_val c with Some _ => true | None => false end.

(** The text after the closing quote of a string whose opening quote has
    been read. *)
Fixpoint string_body (s : string) : option string :=
  match s with
  | EmptyString => None
  | String c s1 =>
      if Ascii.eqb c Text.dquote then Some s1
      else if Text.code c <? 32 then None
      else if Ascii.eqb c "\" then
        match s1 with
        | String "u" (String h1 (String h2 (String h3 (String h4 s2)))) =>
            if is_hex h1 && is_hex h2 && is_hex h3 && is_hex h4
            then string_body s2 else None
        | String e s2 =>
            if Ascii.eqb e Text.dquote || Regex.mem e "\/bfnrt"
            then string_body s2 else None
        | EmptyString => None
        end
      else string_body s1
  end.

Fixpoint skip_digits (s : string) : string :=
  match s with
  | String c s' => if Text.is_digit c then skip_digits s' else s
  | EmptyString => EmptyString
  end.

(** One or more digits. *)
Definition digits1 (s : string) : option string :=
  match s with
  | String c s' => if Text.is_digit c then Some (skip_digits s') else None
  | EmptyString => None
  end.

Definition number (s : string) : option string :=
  let s0 := match s with String "-" s' => s' | _ => s end in
  let int :=
    match s0 with
    | String "0" s' => Some s'
    | _ => digits1 s0
    end in
  match int with
  | None => None
  | Some s1 =>
      let frac :=
        match s1 with
        | String "." s' => digits1 s'
        | _ => Some s1
        end in
      match frac with
      | None => None
      | Some s2 =>
          match s2 with
          | String c s' =>
              if Ascii.eqb c "e" || Ascii.eqb c "E" then
                match s' with
                | String "+" s'' | String "-" s'' => digits1 s''
                | _ => digits1 s'
                end
              else Some s2
          | EmptyString => Some s2
          end
      end
  end.

(** [value], [elements] and [members] read one value, the rest of an array
    and the rest of an object, and return the text that follows. *)
Fixpoint value (fuel : nat) (s : string) : option string :=
  match fuel with
  | O => None
  | S f =>
      match s with
      | String "{" s1 =>
          match skip_ws s1 with
          | String "}" s2 => Some s2
          | s2 => members f s2
          end
      | String "[" s1 =>
          match skip_ws s1 with
          | String "]" s2 => Some s2
          | s2 => elements f s2
          end
      | String c s1 =>
          if Ascii.eqb c Text.dquote then string_body s1
          else if Text.startsWith "true" s then Some (Text.drop 4 s)
          else if Text.startsWith "false" s then Some (Text.drop 5 s)
          else if Text.startsWith "null" s then Some (Text.drop 4 s)
          else number s
      | EmptyString => None
      end
  end
with elements (fuel : nat) (s : string) : option string :=
  match fuel with
  | O => None
  | S f =>
      match value f s with
      | Some s1 =>
          match skip_ws s1 with
          | String "," s2 => elements f (skip_ws s2)
          | String "]" s2 => Some s2
          | _ => None
          end
      | None => None
      end
  end
with members (fuel : nat) (s : string) : option string :=
  match fuel with
  | O => None
  | S f =>
      match s with
      | String c s1 =>
          if Ascii.eqb c Text.dquote then
            match string_body s1 with
            | Some s2 =>
                match skip_ws s2 with
                | String ":" s3 =>
                    match value f (skip_ws s3) with
                    | Some s4 =>
                        match skip_ws s4 with
                        | String "," s5 => members f (skip_ws s5)
                        | String "}" s5 => Some s5
                        | _ => None
                        end
                    | None => None
                    end
                | _ => None
                end
            | None => None
            end
          else None
      | EmptyString => None
      end
  end.

(** Whether [JSON.parse(s)] returns.  Every nested call consumes a
    character at least every second step, so twice the length is fuel
    enough. *)
Definition valid (s : string) : bool :=
  match value (2 * String.length s + 2) (skip_ws s) with
  | Some r => Text.is_empty (skip_ws r)
  | None => false
  end.

End Json.

(* ================================================================== *)
(** ** Plain objects used as dictionaries

    The parser keeps its groups in an object literal [{}] indexed by a
    string.  Such an object answers a lookup with its own property, else with
    what it inherits from [Object.prototype]; [Object.values] lists the own
    properties whose key is an array index first, by increasing index, then
    the others in insertion order. *)

Module Dict.

(** The property names of [Object.prototype]. *)
Definition inherited : list string :=
  [ "constructor"; "__defineGetter__"; "__defineSetter__"; "hasOwnProperty";
    "__lookupGetter__"; "__lookupSetter__"; "isPrototypeOf";
    "propertyIsEnumerable"; "toString"; "valueOf"; "__proto__";
    "toLocaleString" ].

Definition is_inherited (k : string) : bool :=
  existsb (String.eqb k) inherited.

Definition dict (V : Type) : Type := list (string * V).

Definition empty {V} : dict V := [].

Fixpoint own {V} (d : dict V) (k : string) : option V :=
  match d with
  | [] => None
  | (k', v) :: d' => if String.eqb k k' then Some v else own d' k
  end.

(** The outcome of [d[k]]. *)
Inductive lookup (V : Type) : Type :=
| Own (v : V)          (* an own property *)
| Inherited            (* a function or object of [Object.prototype] *)
| Undefined.
Arguments Own {V} v.
Arguments Inherited {V}.
Arguments Undefined {V}.

Definition get {V} (d : dict V) (k : string) : lookup V :=
  match own d k with
  | Some v => Own v
  | None => if is_inherited k then Inherited else Undefined
  end.

(** [d[k] = v] for an object [v]: an own property keeps its place, a new
    one goes last. *)
Fixpoint set {V} (d : dict V) (k : string) (v : V) : dict V :=
  match d with
  | [] => [(k, v)]
  | (k', v') :: d' =>
      if String.eqb k k' then (k', v) :: d' else (k', v') :: set d' k v
  end.

Fixpoint all_digits (s : string) : bool :=
  match s with
  | EmptyString => true
  | String c s' => Text.is_digit c && all_digits s'
  end.

(** The index a key denotes when it is an array index: the canonical
    numeral of an integer below 2^32 - 1. *)
Definition array_index (k : string) : option Z :=
  match k with
  | EmptyString => None
  | String c rest =>
      if all_digits k && (negb (Ascii.eqb c "0") || Text.is_empty rest) then
        match Num.read_digits Num.dec_val 10 0 0 k with
        | (v, _, _) => if (v <? 4294967295)%Z then Some v else None
        end
      else None
  end.

Fixpoint insert_by_index {V} (i : Z) (v : V) (l : list (Z * V)) : list (Z * V) :=
  match l with
  | [] => [(i, v)]
  | (j, w) :: l' =>
      if (i <? j)%Z then (i, v) :: l else (j, w) :: insert_by_index i v l'
  end.

Fixpoint indexed {V} (d : dict V) : list (Z * V) :=
  match d with
  | [] => []
  | (k, v) :: d' =>
      match array_index k with
      | Some i => insert_by_index i v (indexed d')
      | None => indexed d'
      end
  end.

Fixpoint named {V} (d : dict V) : list V :=
  match d with
  | [] => []
  | (k, v) :: d' =>
      match array_index k with
      | Some _ => named d'
      | None => v :: named d'
      end
  end.

(** [Object.values(d)]. *)
Definition values {V} (d : dict V) : list V :=
  map snd (indexed d) ++ named d.

End Dict.

(* ================================================================== *)
(** ** Values

    The data the converter receives is whatever [JSON.parse] or a parser
    built: [undefined], [null], booleans, numbers, strings, arrays and plain
    objects (no functions). *)

Module Js.

Import Num.

Inductive value : Type :=
| VUndefined
| VNull
| VBool (b : bool)
| VNum (n : number)
| VStr (s : string)
| VArr (items : list value)
| VObj (props : list (string * value)).

(** What the run-time provides and the model leaves open: the decimal
    text of a number and the number a whole string denotes. *)
Class Runtime : Type :=
  { number_to_string : number -> string;
    string_to_number : string -> number }.

Inductive type_tag : Type :=
| t_undefined | t_object | t_boolean | t_number | t_string.

Definition typeof (v : value) : type_tag :=
  match v with
  | VUndefined => t_undefined
  | VNull | VArr _ | VObj _ => t_object
  | VBool _ => t_boolean
  | VNum _ => t_number
  | VStr _ => t_string
  end.

Definition truthy (v : value) : bool :=
  match v with
  | VUndefined | VNull => false
  | VBool b => b
  | VNum n => Num.truthy n
  | VStr s => negb (Text.is_empty s)
  | VArr _ | VObj _ => true
  end.

(** [a || b]. *)
Definition or_else (a b : value) : value := if truthy a then a else b.

Fixpoint own (props : list (string * value)) (k : string) : option value :=
  match props with
  | [] => None
  | (k', v) :: props' => if String.eqb k k' then Some v else own props' k
  end.

Definition cannot_read (k : string) : exn :=
  TypeError ("Cannot read properties of undefined or null (reading '" ++ k ++ "')").
Definition not_a_function (k : string) : exn :=
  TypeError (k ++ " is not a function").

(** [v.k] for the property names the sources read ([id], [name],
    [boundaries], [length], ...), none of which a prototype defines except
    [length] on arrays and strings. *)
Definition get (v : value) (k : string) : result value :=
  match v with
  | VUndefined | VNull => Throw (cannot_read k)
  | VObj props =>
      match own props k with
      | Some x => Ok x
      | None => Ok VUndefined
      end
  | VArr items =>
      if String.eqb k "length"
      then Ok (VNum (of_Z (Z.of_nat (List.length items)))) else Ok VUndefined
  | VStr s =>
      if String.eqb k "length"
      then Ok (VNum (of_Z (Z.of_nat (String.length s)))) else Ok VUndefined
  | VBool _ | VNum _ => Ok VUndefined
  end.

(** Values that are not objects: [undefined], [null], booleans, numbers and
    strings. *)
Definition primitive (v : value) : bool :=
  match v with VArr _ | VObj _ => false | _ => true end.

Section WithRuntime.
Context {R : Runtime}.

(** The abstract operation ToString.  An array joins the texts of its
    items with commas; a plain object answers through the inherited
    [toString], and fails when an own (data) property hides it. *)
Fixpoint toString (v : value) : result string :=
  match v with
  | VUndefined => Ok "undefined"
  | VNull => Ok "null"
  | VBool true => Ok "true"
  | VBool false => Ok "false"
  | VNum n => Ok (number_to_string n)
  | VStr s => Ok s
  | VArr items =>
      (fix join (l : list value) : result string :=
         match l with
         | [] => Ok ""
         | x :: l' =>
             let* sx :=
               match x with
               | VUndefined | VNull => Ok ""
               | _ => toString x
               end in
             match l' with
             | [] => Ok sx
             | _ => let* sl := join l' in Ok (sx ++ "," ++ sl)
             end
         end) items
  | VObj props =>
      match own props "toString" with
      | Some _ => Throw (TypeError "Cannot convert object to primitive value")
      | None => Ok "[object Object]"
      end
  end.

(** The method call [v.toString()]. *)
Definition call_toString (v : value) : result string :=
  match v with
  | VUndefined | VNull => Throw (cannot_read "toString")
  | VObj props =>
      match own props "toString" with
      | Some _ => Throw (not_a_function "toString")
      | None => Ok "[object Object]"
      end
  | _ => toString v
  end.

(** The abstract operation ToNumber. *)
Definition toNumber (v : value) : result number :=
  match v with
  | VUndefined => Ok NaN
  | VNull => Ok (of_Z 0)
  | VBool b => Ok (of_Z (if b then 1 else 0))
  | VNum n => Ok n
  | _ => let* s := toString v in Ok (string_to_number s)
  end.

(** [parseFloat(v)]. *)
Definition parseFloat (v : value) : result number :=
  let* s := toString v in Ok (Num.parseFloat s).

End WithRuntime.

End Js.

(* ================================================================== *)
(** ** The CSV / JSON / text parser ([parser.js]) *)

Module Parser.

Import Num Js Regex.
Local Open Scope regex_scope.

(** A boundary point; [sequence] is present on the points the CSV parser
    builds. *)
Record boundary : Type :=
  { latitude : number; longitude : number; sequence : option number }.

(** The [conditional] field of a CSV row: the text of its column, else
    [false]. *)
Inductive flag : Type :=
| Off
| Label (s : string).

Record airspace : Type :=
  { id : string;
    name : string;
    type : option string;
    boundaries : list boundary;
    upperLimit : string;
    lowerLimit : string;
    conditional : option flag }.

Definition with_boundaries (a : airspace) (bs : list boundary) : airspace :=
  {| id := id a; name := name a; type := type a; boundaries := bs;
     upperLimit := upperLimit a; lowerLimit := lowerLimit a;
     conditional := conditional a |}.

(** The [parsedData] object, reduced to the field the parsers write;
    [positions], [airports] and [metadata] pass through untouched. *)
Record parsedData : Type := { airspaces : list airspace }.

Definition push_airspace (p : parsedData) (a : airspace) : parsedData :=
  {| airspaces := airspaces p ++ [a] |}.

(** *** [detectFileFormat] *)

Inductive format : Type := csv | structured_text | json | generic.

Definition detectFileFormat (content : string) : format :=
  if (Text.startsWith "{" (Text.trim content)
      || Text.startsWith "[" (Text.trim content))
     && Json.valid content
  then json
  else
    let lines := Text.lines content in
    if (1 <? List.length lines)
       && Text.includes (hd "" lines) ","
       && (let firstLine := Text.toLowerCase (hd "" lines) in
           Text.includes firstLine "airspace"
           || Text.includes firstLine "latitude"
           || Text.includes firstLine "name")
    then csv
    else if Text.includes content "AIRSPACE"
            || Text.includes content "Airspace"
            || Text.includes content "UPPER LIMIT"
            || Text.includes content "LOWER LIMIT"
    then structured_text
    else generic.

(** *** Helpers of the CSV parser *)

Record columns : Type :=
  { col_id : option string;
    col_name : option string;
    col_type : option string;
    col_latitude : option string;
    col_longitude : option string;
    col_upperLimit : option string;
    col_lowerLimit : option string;
    col_conditional : option string;
    col_sequence : option string }.

Definition no_columns : columns :=
  {| col_id := None; col_name := None; col_type := None;
     col_latitude := None; col_longitude := None; col_upperLimit := None;
     col_lowerLimit := None; col_conditional := None; col_sequence := None |}.

Definition is_some {A} (o : option A) : bool :=
  match o with Some _ => true | None => false end.

(** One turn of the [forEach] of [mapColumnNames]. *)
Definition map_header (m : columns) (header : string) : columns :=
  let lower := Text.toLowerCase header in
  let has := Text.includes lower in
  if has "airspace" && has "id" then
    {| col_id := Some header; col_name := col_name m; col_type := col_type m;
       col_latitude := col_latitude m; col_longitude := col_longitude m;
       col_upperLimit := col_upperLimit m; col_lowerLimit := col_lowerLimit m;
       col_conditional := col_conditional m; col_sequence := col_sequence m |}
  else if has "airspace" && has "name" then
    {| col_id := col_id m; col_name := Some header; col_type := col_type m;
       col_latitude := col_latitude m; col_longitude := col_longitude m;
       col_upperLimit := col_upperLimit m; col_lowerLimit := col_lowerLimit m;
       col_conditional := col_conditional m; col_sequence := col_sequence m |}
  else if String.eqb lower "name" && negb (is_some (col_name m)) then
    {| col_id := col_id m; col_name := Some header; col_type := col_type m;
       col_latitude := col_latitude m; col_longitude := col_longitude m;
       col_upperLimit := col_upperLimit m; col_lowerLimit := col_lowerLimit m;
       col_conditional := col_conditional m; col_sequence := col_sequence m |}
  else if has "type" then
    {| col_id := col_id m; col_name := col_name m; col_type := Some header;
       col_latitude := col_latitude m; col_longitude := col_longitude m;
       col_upperLimit := col_upperLimit m; col_lowerLimit := col_lowerLimit m;
       col_conditional := col_conditional m; col_sequence := col_sequence m |}
  else if has "lat" then
    {| col_id := col_id m; col_name := col_name m; col_type := col_type m;
       col_latitude := Some header; col_longitude := col_longitude m;
       col_upperLimit := col_upperLimit m; col_lowerLimit := col_lowerLimit m;
       col_conditional := col_conditional m; col_sequence := col_sequence m |}
  else if has "lon" then
    {| col_id := col_id m; col_name := col_name m; col_type := col_type m;
       col_latitude := col_latitude m; col_longitude := Some header;
       col_upperLimit := col_upperLimit m; col_lowerLimit := col_lowerLimit m;
       col_conditional := col_conditional m; col_sequence := col_sequence m |}
  else if has "upper" then
    {| col_id := col_id m; col_name := col_name m; col_type := col_type m;
       col_latitude := col_latitude m; col_longitude := col_longitude m;
       col_upperLimit := Some header; col_lowerLimit := col_lowerLimit m;
       col_conditional := col_conditional m; col_sequence := col_sequence m |}
  else if has "lower" then
    {| col_id := col_id m; col_name := col_name m; col_type := col_type m;
       col_latitude := col_latitude m; col_longitude := col_longitude m;
       col_upperLimit := col_upperLimit m; col_lowerLimit := Some header;
       col_conditional := col_conditional m; col_sequence := col_sequence m |}
  else if has "conditional" then
    {| col_id := col_id m; col_name := col_name m; col_type := col_type m;
       col_latitude := col_latitude m; col_longitude := col_longitude m;
       col_upperLimit := col_upperLimit m; col_lowerLimit := col_lowerLimit m;
       col_conditional := Some header; col_sequence := col_sequence m |}
  else if has "sequence" then
    {| col_id := col_id m; col_name := col_name m; col_type := col_type m;
       col_latitude := col_latitude m; col_longitude := col_longitude m;
       col_upperLimit := col_upperLimit m; col_lowerLimit := col_lowerLimit m;
       col_conditional := col_conditional m; col_sequence := Some header |}
  else m.

Definition mapColumnNames (headers : list string) : columns :=
  fold_left map_header headers no_columns.

Fixpoint parseCSVLine_from (line : string) (result : list string)
    (current : string) (inQuotes : bool) : list string :=
  match line with
  | EmptyString => result ++ [current]
  | String char line' =>
      if Ascii.eqb char Text.dquote then
        parseCSVLine_from line' result current (negb inQuotes)
      else if Ascii.eqb char "," && negb inQuotes then
        parseCSVLine_from line' (result ++ [current]) "" inQuotes
      else
        parseCSVLine_from line' result (current ++ String char "") inQuotes
  end.

Definition parseCSVLine (line : string) : list string :=
  parseCSVLine_from line [] "" false.

(** A class of one character or white space, as in [[°\s]]. *)
Definition char_or_space (c : ascii) : regex :=
  Class (fun x => Ascii.eqb x c || Text.is_space x).

(** The pattern of the DMS branch of [parseCoordinate], flag [i]:
    [(\d+) [°\s]+ (\d+) ['\s]+ (\d+ \.? \d* ) [Q\s]* ([NSEW])]
    (written with spaces between its parts; [Q] is the double quote). *)
Definition dmsPattern : regex :=
  Group 1 (plus digit) ;; plus (char_or_space Text.degree) ;;
  Group 2 (plus digit) ;; plus (char_or_space "'") ;;
  Group 3 (plus digit ;; opt (lit ".") ;; star digit) ;;
  star (char_or_space Text.dquote) ;;
  Group 4 (one_of_i "NSEW").

Section WithRuntime.
Context {R : Runtime}.

Definition parseCoordinate (coord : value) : result number :=
  match coord with
  | VNum n => Ok n
  | _ =>
      let* s := call_toString coord in
      let str := Text.trim s in
      (* Handle decimal degrees *)
      let decimal := Num.parseFloat str in
      if negb (isNaN decimal) then Ok decimal
      else
        (* Handle DMS format *)
        match exec dmsPattern str with
        | Some dmsMatch =>
            let degrees := Num.parseInt (group_text dmsMatch 1) in
            let minutes := Num.parseInt (group_text dmsMatch 2) in
            let seconds := Num.parseFloat (group_text dmsMatch 3) in
            let direction := Text.toUpperCase (group_text dmsMatch 4) in
            let decimal :=
              add (add degrees (div_by minutes 60)) (div_by seconds 3600) in
            if String.eqb direction "S" || String.eqb direction "W"
            then Ok (neg decimal)
            else Ok decimal
        | None => Ok (of_Z 0)
        end
  end.

End WithRuntime.

(** *** [mergeAirspaceBoundaries] *)

(** [a.sequence || 0]. *)
Definition sequence_or_zero (b : boundary) : number :=
  match sequence b with
  | Some n => if Num.truthy n then n else of_Z 0
  | None => of_Z 0
  end.

(** The comparator [(a, b) => (a.sequence || 0) - (b.sequence || 0)]. *)
Definition by_sequence (a b : boundary) : number :=
  sub (sequence_or_zero a) (sequence_or_zero b).

(** [Array.prototype.sort] is stable: an element moves behind another one
    only when the comparator is positive. *)
Fixpoint sort_insert {A} (cmp : A -> A -> number) (a : A) (l : list A) : list A :=
  match l with
  | [] => [a]
  | b :: l' =>
      if gt (cmp a b) (of_Z 0) then b :: sort_insert cmp a l' else a :: l
  end.

Fixpoint sort {A} (cmp : A -> A -> number) (l : list A) : list A :=
  match l with
  | [] => []
  | a :: l' => sort_insert cmp a (sort cmp l')
  end.

(** One turn of the first [forEach]: create the group when [grouped] has
    nothing under the id, then push the boundaries onto the group's. *)
Definition merge_step (grouped : Dict.dict airspace) (a : airspace)
    : result (Dict.dict airspace) :=
  let grouped1 :=
    match Dict.get grouped (id a) with
    | Dict.Undefined => Dict.set grouped (id a) (with_boundaries a [])
    | _ => grouped
    end in
  match Dict.get grouped1 (id a) with
  | Dict.Own g =>
      Ok (Dict.set grouped1 (id a)
            (with_boundaries g (boundaries g ++ boundaries a)))
  | _ => Throw (Js.cannot_read "push")
  end.

Fixpoint merge_all (grouped : Dict.dict airspace) (l : list airspace)
    : result (Dict.dict airspace) :=
  match l with
  | [] => Ok grouped
  | a :: l' => let* grouped' := merge_step grouped a in merge_all grouped' l'
  end.

Definition mergeAirspaceBoundaries (airspaces : list airspace)
    : result (list airspace) :=
  let* grouped := merge_all Dict.empty airspaces in
  (* Sort boundaries by sequence if available *)
  Ok (map (fun a => with_boundaries a (sort by_sequence (boundaries a)))
          (Dict.values grouped)).

(** *** [parseCSVFormat] *)

(** The object [airspace] of one data row: header to trimmed cell, a later
    column of the same header replacing the earlier one.  (Assigning a
    string to the key [__proto__] leaves a plain object unchanged.) *)
Definition set_cell (row : Dict.dict string) (cell : string * string)
    : Dict.dict string :=
  let (header, v) := cell in
  if String.eqb header "__proto__" then row
  else Dict.set row header (Text.trim v).

Definition row_object (headers values : list string) : Dict.dict string :=
  fold_left set_cell (combine headers values) Dict.empty.

(** [airspace[columnMap.role]]: the key is the mapped header, and the text
    [null] when the role has no column.  Neither is a name the object
    inherits, as a mapped header is a lower-case header holding one of the
    role words. *)
Definition cell (row : Dict.dict string) (col : option string) : option string :=
  Dict.own row (match col with Some header => header | None => "null" end).

(** [airspace[columnMap.role] || dflt]. *)
Definition cell_or (row : Dict.dict string) (col : option string)
    (dflt : string) : string :=
  match cell row col with
  | Some (String c s) => String c s
  | _ => dflt
  end.

Definition cell_truthy (row : Dict.dict string) (col : option string) : bool :=
  match cell row col with
  | Some (String _ _) => true
  | _ => false
  end.

Definition too_few_lines : exn :=
  Error "CSV file must have headers and at least one data row".

Section WithRuntime.
Context {R : Runtime}.

(** The body of the loop over the data rows, for the row at index [i]. *)
Definition parse_row (headers : list string) (columnMap : columns)
    (i : nat) (line : string) : result (option airspace) :=
  let values := parseCSVLine line in
  if negb (List.length values =? List.length headers) then Ok None
  else
    let airspace := row_object headers values in
    (* Add coordinate if present *)
    let* points :=
      if cell_truthy airspace (col_latitude columnMap)
         && cell_truthy airspace (col_longitude columnMap)
      then
        let* lat :=
          parseCoordinate (VStr (cell_or airspace (col_latitude columnMap) "")) in
        let* lon :=
          parseCoordinate (VStr (cell_or airspace (col_longitude columnMap) "")) in
        let seq :=
          Num.parseInt
            (match cell airspace (col_sequence columnMap) with
             | Some s => s
             | None => "undefined"
             end) in
        Ok [ {| latitude := lat; longitude := lon;
                sequence := Some (if Num.truthy seq then seq else of_Z 0) |} ]
      else Ok [] in
    Ok (Some
          {| id := cell_or airspace (col_id columnMap) ("AIRSPACE_" ++ Text.of_nat i);
             name := cell_or airspace (col_name columnMap) "Unknown";
             type := Some (cell_or airspace (col_type columnMap) "UNKNOWN");
             boundaries := points;
             upperLimit := cell_or airspace (col_upperLimit columnMap) "UNL";
             lowerLimit := cell_or airspace (col_lowerLimit columnMap) "GND";
             conditional :=
               Some (match cell airspace (col_conditional columnMap) with
                     | Some (String c s) => Label (String c s)
                     | _ => Off
                     end) |}).

Fixpoint parse_rows (headers : list string) (columnMap : columns)
    (i : nat) (lines : list string) (p : parsedData) : result parsedData :=
  match lines with
  | [] => Ok p
  | line :: lines' =>
      let* row := parse_row headers columnMap i line in
      parse_rows headers columnMap (S i) lines'
        (match row with
         | Some a => push_airspace p a
         | None => p
         end)
  end.

Definition non_blank (line : string) : bool :=
  negb (Text.is_empty (Text.trim line)).

Definition parseCSVFormat (content : string) (p : parsedData)
    : result parsedData :=
  let lines := filter non_blank (Text.lines content) in
  if List.length lines <? 2 then Throw too_few_lines
  else
    (* Parse headers *)
    let headers :=
      map (fun h => Text.toLowerCase (Text.trim h))
          (Text.split "," (hd "" lines)) in
    (* Map common column variations *)
    let columnMap := mapColumnNames headers in
    (* Parse data rows *)
    let* p1 := parse_rows headers columnMap 1 (tl lines) p in
    (* Group by airspace ID and merge boundaries *)
    let* merged := mergeAirspaceBoundaries (airspaces p1) in
    Ok {| airspaces := merged |}.

End WithRuntime.

(** *** [parseStructuredText] *)

(** [[A-Z0-9-]] *)
Definition id_char : regex :=
  Class (fun c => Text.is_upper c || Text.is_digit c || Ascii.eqb c "-").
(** [[A-Z0-9-]] under the flag [i] *)
Definition id_char_i : regex :=
  Class (fun c => Text.is_upper (Text.upper_char c) || Text.is_digit c
                  || Ascii.eqb c "-").

(** [/^[A-Z0-9-]+\s+[A-Z]/] *)
Definition headingPattern : regex := Bol ;; plus id_char ;; plus space ;; upper.

(** [/^([A-Z0-9-]+)/] *)
Definition idPattern : regex := Bol ;; Group 1 (plus id_char).

(** [^[A-Z0-9-]+ \s+ (.+?) (\s+UPPER|\s+LOWER|$)], flag [i] *)
Definition namePattern : regex :=
  Bol ;; plus id_char_i ;; plus space ;; Group 1 (plus_lazy any) ;;
  Group 2 ((plus space ;; str_i "UPPER") <|> (plus space ;; str_i "LOWER") <|> Eol).

(** [UPPER[:\s]+([^\s]+)] and [LOWER[:\s]+([^\s]+)], flag [i] *)
Definition non_space : regex := Class (fun c => negb (Text.is_space c)).
Definition upperPattern : regex :=
  str_i "UPPER" ;; plus (char_or_space ":") ;; Group 1 (plus non_space).
Definition lowerPattern : regex :=
  str_i "LOWER" ;; plus (char_or_space ":") ;; Group 1 (plus non_space).

(** [-?\d+\.?\d*] *)
Definition decimalPattern : regex :=
  opt (lit "-") ;; plus digit ;; opt (lit ".") ;; star digit.

(** [(-?\d+\.?\d* ) [°\s]+ ([NS]) \s+ (-?\d+\.?\d* ) [°\s]+ ([EW])], flag [i] *)
Definition coordinatesPattern : regex :=
  Group 1 decimalPattern ;; plus (char_or_space Text.degree) ;;
  Group 2 (one_of_i "NS") ;; plus space ;;
  Group 3 decimalPattern ;; plus (char_or_space Text.degree) ;;
  Group 4 (one_of_i "EW").

Definition extractAirspaceId (line : string) : string :=
  match exec idPattern line with
  | Some m => group_text m 1
  | None => "UNKNOWN"
  end.

Definition extractAirspaceName (line : string) : string :=
  match exec namePattern line with
  | Some m => Text.trim (group_text m 1)
  | None => "Unknown Airspace"
  end.

Definition set_upperLimit (a : airspace) (s : string) : airspace :=
  {| id := id a; name := name a; type := type a; boundaries := boundaries a;
     upperLimit := s; lowerLimit := lowerLimit a; conditional := conditional a |}.
Definition set_lowerLimit (a : airspace) (s : string) : airspace :=
  {| id := id a; name := name a; type := type a; boundaries := boundaries a;
     upperLimit := upperLimit a; lowerLimit := s; conditional := conditional a |}.

Section WithRuntime.
Context {R : Runtime}.

Definition extractCoordinates (line : string) : result (option boundary) :=
  match exec coordinatesPattern line with
  | Some m =>
      let* lat := parseCoordinate (VStr (group_text m 1 ++ group_text m 2)) in
      let* lon := parseCoordinate (VStr (group_text m 3 ++ group_text m 4)) in
      Ok (Some {| latitude := lat; longitude := lon; sequence := None |})
  | None => Ok None
  end.

(** The loop state: [parsedData] and [currentAirspace]. *)
Definition text_state : Type := (parsedData * option airspace)%type.

Definition structured_line (st : text_state) (line : string) : result text_state :=
  let (p, currentAirspace) := st in
  let trimmed := Text.trim line in
  if Text.is_empty trimmed then Ok st
  else
    (* Look for airspace name/ID patterns *)
    let (p1, current1) :=
      if test headingPattern trimmed then
        (match currentAirspace with
         | Some a => push_airspace p a
         | None => p
         end,
         Some {| id := extractAirspaceId trimmed;
                 name := extractAirspaceName trimmed;
                 type := None;
                 boundaries := [];
                 upperLimit := "UNL";
                 lowerLimit := "GND";
                 conditional := None |})
      else (p, currentAirspace) in
    (* Look for altitude limits *)
    match current1 with
    | Some a =>
        let a1 := match exec upperPattern trimmed with
                  | Some upperMatch => set_upperLimit a (group_text upperMatch 1)
                  | None => a
                  end in
        let a2 := match exec lowerPattern trimmed with
                  | Some lowerMatch => set_lowerLimit a1 (group_text lowerMatch 1)
                  | None => a1
                  end in
        (* Look for coordinates *)
        let* coordMatch := extractCoordinates trimmed in
        Ok (p1, Some (match coordMatch with
                      | Some b => with_boundaries a2 (boundaries a2 ++ [b])
                      | None => a2
                      end))
    | None => Ok (p1, None)
    end.

Fixpoint structured_lines (st : text_state) (lines : list string)
    : result text_state :=
  match lines with
  | [] => Ok st
  | line :: lines' =>
      let* st' := structured_line st line in structured_lines st' lines'
  end.

Definition parseStructuredText (content : string) (p : parsedData)
    : result parsedData :=
  let* st := structured_lines (p, None) (Text.lines content) in
  match st with
  | (p', Some a) => Ok (push_airspace p' a)
  | (p', None) => Ok p'
  end.

(** *** [parseGenericFormat] *)

(** [(-?\d+\.?\d* ) [°\s,]+ ([NSEW]?) \s* (-?\d+\.?\d* ) [°\s,]+ ([NSEW]?)],
    flags [g] and [i] *)
Definition separator : regex :=
  Class (fun c => Ascii.eqb c Text.degree || Text.is_space c || Ascii.eqb c ",").
Definition coordPattern : regex :=
  Group 1 decimalPattern ;; plus separator ;;
  Group 2 (opt (one_of_i "NSEW")) ;; star space ;;
  Group 3 decimalPattern ;; plus separator ;;
  Group 4 (opt (one_of_i "NSEW")).

Definition generic_boundary (m : rmatch) : result boundary :=
  let* lat := parseCoordinate (VStr (group_text m 1 ++ group_text m 2)) in
  let* lon := parseCoordinate (VStr (group_text m 3 ++ group_text m 4)) in
  Ok {| latitude := lat; longitude := lon; sequence := None |}.

Definition parseGenericFormat (content : string) (p : parsedData)
    : result parsedData :=
  (* Try to extract any coordinate pairs *)
  let matches := matchAll coordPattern content in
  let* boundaries := mapM generic_boundary matches in
  if 0 <? List.length boundaries then
    Ok (push_airspace p
          {| id := "EXTRACTED_AIRSPACE";
             name := "Extracted from DAH";
             type := None;
             boundaries := boundaries;
             upperLimit := "UNL";
             lowerLimit := "GND";
             conditional := None |})
  else Ok p.

End WithRuntime.

(** *** [parseJSONFormat], [parseDAHFile] *)

(** [JSON.parse] as a function from texts to values, which the model
    leaves to the run-time ([Json.valid] tells the texts it accepts). *)
Class JsonRuntime : Type := { JSON_parse : string -> result value }.

Section WithJson.
Context {R : Runtime} {J : JsonRuntime}.

(** What [parseDAHFile] returns: the [parsedData] with the records of the
    CSV and text parsers, or with whatever the JSON document holds as
    [airspaces]. *)
Inductive parsed : Type :=
| Records (p : parsedData)
| Document (airspaces : value).

Definition parseJSONFormat (content : string) : result value :=
  let* jsonData := JSON_parse content in
  (* Handle different JSON structures *)
  match jsonData with
  | VArr _ => Ok jsonData
  | _ =>
      let* airspaces := get jsonData "airspaces" in
      if truthy airspaces then Ok airspaces else Ok (VArr [jsonData])
  end.

(** [error.message] *)
Definition message (e : exn) : string :=
  match e with
  | TypeError msg => msg
  | Error msg => msg
  end.

Definition parseDAHFile (fileContent : string) : result parsed :=
  let fresh := {| airspaces := [] |} in
  match
    (* Detect the file format *)
    match detectFileFormat fileContent with
    | csv => let* p := parseCSVFormat fileContent fresh in Ok (Records p)
    | structured_text =>
        let* p := parseStructuredText fileContent fresh in Ok (Records p)
    | json => let* airspaces := parseJSONFormat fileContent in Ok (Document airspaces)
    | generic => let* p := parseGenericFormat fileContent fresh in Ok (Records p)
    end
  with
  | Ok parsedData => Ok parsedData
  | Throw error => Throw (Error ("Failed to parse DAH file: " ++ message error))
  end.

End WithJson.

(** *** Notions used to state the properties of the post-pass *)

Definition has_id (k : string) (a : airspace) : bool := String.eqb (id a) k.

(** What the first [forEach] stores under the id of [a]. *)
Definition grown (d : Dict.dict airspace) (a : airspace) : airspace :=
  match Dict.own d (id a) with
  | Some g => with_boundaries g (boundaries g ++ boundaries a)
  | None => with_boundaries a (boundaries a)
  end.

Definition keys_not_inherited (d : Dict.dict airspace) : Prop :=
  forall k, Dict.own d k <> None -> Dict.is_inherited k = false.

(** The group of [k] after the pass over [l], starting from [d]. *)
Definition group_after (d : Dict.dict airspace) (l : list airspace) (k : string)
    : option airspace :=
  match filter (has_id k) l with
  | [] => Dict.own d k
  | r :: rs =>
      Some (match Dict.own d k with
            | Some g => with_boundaries g (boundaries g ++ flat_map boundaries (r :: rs))
            | None => with_boundaries r (flat_map boundaries (r :: rs))
            end)
  end.

(** [a] may stand before [b]: the comparator does not send it behind. *)
Definition may_precede {A} (cmp : A -> A -> number) (a b : A) : Prop :=
  gt (cmp a b) (of_Z 0) = false.

(** The order of the sort keys: minus infinity, the rationals, plus
    infinity. *)
Definition key_le (x y : number) : Prop :=
  match x, y with
  | NaN, _ | _, NaN => True
  | Inf true, _ => True
  | _, Inf false => True
  | Inf false, _ => False
  | Fin _, Inf true => False
  | Fin p, Fin q => (p <= q)%Q
  end.

(** The points whose sequence is [k]. *)
Definition same_sequence (k : number) (b : boundary) : bool :=
  Num.eqb (sequence_or_zero b) k.

(** *** The records as the objects the parsers build

    The object literals of the three parsers, property by property in the
    order they are written: a CSV row has [type], [conditional] and a
    [sequence] on its points, the records of the text parsers have not. *)

Definition boundary_value (b : boundary) : value :=
  VObj ([ ("latitude", VNum (latitude b)); ("longitude", VNum (longitude b)) ]
        ++ match sequence b with
           | Some n => [ ("sequence", VNum n) ]
           | None => []
           end)%list.

Definition flag_value (f : flag) : value :=
  match f with
  | Off => VBool false
  | Label s => VStr s
  end.

Definition airspace_value (a : airspace) : value :=
  VObj ([ ("id", VStr (id a)); ("name", VStr (name a)) ]
        ++ match type a with
           | Some t => [ ("type", VStr t) ]
           | None => []
           end
        ++ [ ("boundaries", VArr (map boundary_value (boundaries a)));
             ("upperLimit", VStr (upperLimit a));
             ("lowerLimit", VStr (lowerLimit a)) ]
        ++ match conditional a with
           | Some f => [ ("conditional", flag_value f) ]
           | None => []
           end)%list.

(** The [parsedData] object [parseDAHFile] returns, [parseDate] being the
    text of [new Date().toISOString()]. *)
Definition parsedData_value (parseDate : string) (p : parsedData) : value :=
  VObj [ ("airspaces", VArr (map airspace_value (airspaces p)));
         ("positions", VArr []);
         ("airports", VArr []);
         ("metadata",
          VObj [ ("parseDate", VStr parseDate);
                 ("source", VStr "Air Services Australia DAH") ]) ].

End Parser.

(* ================================================================== *)
(** ** The PDF-text parser ([parseAirspaceText] and its helpers) *)

Module DahParser.

Import Num Regex.
Local Open Scope regex_scope.

Record boundary : Type := { latitude : number; longitude : number }.

Record airspace : Type :=
  { id : string;
    name : string;
    locations : list string;
    boundaries : list boundary;
    upperLimit : string;
    lowerLimit : string;
    controllingAuthority : option string;
    frequencies : list number;
    hoursOfOperation : option string }.

Definition push_boundary (a : airspace) (b : boundary) : airspace :=
  {| id := id a; name := name a; locations := locations a;
     boundaries := boundaries a ++ [b];
     upperLimit := upperLimit a; lowerLimit := lowerLimit a;
     controllingAuthority := controllingAuthority a;
     frequencies := frequencies a; hoursOfOperation := hoursOfOperation a |}.

Definition set_limits (a : airspace) (lower upper : string) : airspace :=
  {| id := id a; name := name a; locations := locations a;
     boundaries := boundaries a;
     upperLimit := upper; lowerLimit := lower;
     controllingAuthority := controllingAuthority a;
     frequencies := frequencies a; hoursOfOperation := hoursOfOperation a |}.

Definition set_hoursOfOperation (a : airspace) (hours : string) : airspace :=
  {| id := id a; name := name a; locations := locations a;
     boundaries := boundaries a;
     upperLimit := upperLimit a; lowerLimit := lowerLimit a;
     controllingAuthority := controllingAuthority a;
     frequencies := frequencies a; hoursOfOperation := Some hours |}.

Definition set_controllingAuthority (a : airspace) (authority : string) : airspace :=
  {| id := id a; name := name a; locations := locations a;
     boundaries := boundaries a;
     upperLimit := upperLimit a; lowerLimit := lowerLimit a;
     controllingAuthority := Some authority;
     frequencies := frequencies a; hoursOfOperation := hoursOfOperation a |}.

(** *** [dmsToDecimal], [parseDMSCoordinate] *)

Definition dmsToDecimal (degrees minutes seconds : number) (direction : string)
    : number :=
  let decimal := add (add degrees (div_by minutes 60)) (div_by seconds 3600) in
  if String.eqb direction "S" || String.eqb direction "W"
  then neg decimal
  else decimal.

(** [None] is the [null] of a block that has neither 7 nor 8 digits. *)
Definition parseDMSCoordinate (dmsStr direction : string) : option number :=
  let str := Text.filter_chars Text.is_digit dmsStr in
  if String.length str =? 7 then
    (* Latitude: DDMMSSS, the last 3 digits are tenths of seconds *)
    let degrees := parseInt (Text.substring 0 2 str) in
    let minutes := parseInt (Text.substring 2 4 str) in
    let seconds := div_by (parseInt (Text.substring 4 7 str)) 10 in
    Some (dmsToDecimal degrees minutes seconds direction)
  else if String.length str =? 8 then
    (* Longitude: DDDMMSSS *)
    let degrees := parseInt (Text.substring 0 3 str) in
    let minutes := parseInt (Text.substring 3 5 str) in
    let seconds := div_by (parseInt (Text.substring 5 8 str)) 10 in
    Some (dmsToDecimal degrees minutes seconds direction)
  else None.

(** *** [extractCoordinatesFromLine] *)

(** [(\d{7}) ([NS])? \s+ (\d{8}) ([EW])], flag [g] *)
Definition pattern1 : regex :=
  Group 1 (times 7 digit) ;; opt (Group 2 (one_of "NS")) ;; plus space ;;
  Group 3 (times 8 digit) ;; Group 4 (one_of "EW").

(** [(\d+)°(\d+)'(\d+)Q?([NS]) \s+ (\d+)°(\d+)'(\d+)Q?([EW])], flag [g],
    [Q] being the double quote *)
Definition pattern2 : regex :=
  Group 1 (plus digit) ;; lit Text.degree ;; Group 2 (plus digit) ;; lit "'" ;;
  Group 3 (plus digit) ;; opt (lit Text.dquote) ;; Group 4 (one_of "NS") ;;
  plus space ;;
  Group 5 (plus digit) ;; lit Text.degree ;; Group 6 (plus digit) ;; lit "'" ;;
  Group 7 (plus digit) ;; opt (lit Text.dquote) ;; Group 8 (one_of "EW").

(** [(\d{7})], flag [g] *)
Definition pattern3 : regex := Group 1 (times 7 digit).

(** The pair a match of [pattern1] stands for, when both blocks parse. *)
Definition pair1 (m : rmatch) : option boundary :=
  match parseDMSCoordinate (group_text m 1) (group_or m 2 "S"),
        parseDMSCoordinate (group_text m 3) (group_text m 4) with
  | Some lat, Some lon => Some {| latitude := lat; longitude := lon |}
  | _, _ => None
  end.

Definition pair2 (m : rmatch) : boundary :=
  {| latitude := dmsToDecimal (parseInt (group_text m 1)) (parseInt (group_text m 2))
                   (parseInt (group_text m 3)) (group_text m 4);
     longitude := dmsToDecimal (parseInt (group_text m 5)) (parseInt (group_text m 6))
                    (parseInt (group_text m 7)) (group_text m 8) |}.

(** The loop [for (i = 0; i < coords.length - 1; i += 2)] of the third
    format. *)
Fixpoint pairs3 (coords : list rmatch) : list boundary :=
  match coords with
  | c0 :: c1 :: rest =>
      match parseDMSCoordinate (group_text c0 1) "S",
            parseDMSCoordinate (group_text c1 1) "E" with
      | Some lat, Some lon =>
          {| latitude := lat; longitude := lon |} :: pairs3 rest
      | _, _ => pairs3 rest
      end
  | _ => []
  end.

Fixpoint keep_some {A} (l : list (option A)) : list A :=
  match l with
  | [] => []
  | Some a :: l' => a :: keep_some l'
  | None :: l' => keep_some l'
  end.

Definition extractCoordinatesFromLine (line : string) (a : airspace) : airspace :=
  (* First try format: DDMMSSS DDDMMSSE *)
  let matches := matchAll pattern1 line in
  if 0 <? List.length matches then
    fold_left push_boundary (keep_some (map pair1 matches)) a
  else
    (* Try format with degrees/minutes/seconds symbols *)
    let matches := matchAll pattern2 line in
    if 0 <? List.length matches then
      fold_left push_boundary (map pair2 matches) a
    else
      (* Try simpler pattern: DDMMSSS *)
      let coords := matchAll pattern3 line in
      if 2 <=? List.length coords then
        fold_left push_boundary (pairs3 coords) a
      else a.

(** *** [extractVerticalLimits] *)

Definition flightLevel : regex := str_i "FL" ;; plus digit.

(** [(SFC|GND|FL\d+|\d+) \s* - \s* (UNL|FL\d+|\d+)], flag [i] *)
Definition rangePattern : regex :=
  Group 1 (str_i "SFC" <|> str_i "GND" <|> flightLevel <|> plus digit) ;;
  star space ;; lit "-" ;; star space ;;
  Group 2 (str_i "UNL" <|> flightLevel <|> plus digit).

(** [^(FL\d+|UNL|SFC|GND)], flag [i] *)
Definition singlePattern : regex :=
  Bol ;; Group 1 (flightLevel <|> str_i "UNL" <|> str_i "SFC" <|> str_i "GND").

(** [^(SFC|GND)], flag [i] *)
Definition groundPattern : regex :=
  Bol ;; Group 1 (str_i "SFC" <|> str_i "GND").

Definition extractVerticalLimits (text : string) (a : airspace) : airspace :=
  match exec rangePattern text with
  | Some rangeMatch =>
      set_limits a (group_text rangeMatch 1) (group_text rangeMatch 2)
  | None =>
      (* Single limit *)
      if test singlePattern text then
        if test groundPattern text
        then set_limits a text (upperLimit a)
        else set_limits a (lowerLimit a) text
      else a
  end.

(** *** [parseAirspaceText] *)

(** [^([A-Z]{4}(?:-[A-Z]{4})?(?:\/[A-Z]{4})?) \/ (.+?) (?:\s+CTA|CTR|TMA|CLASS)?
     \s* ([A-Z]?\d+)? $] *)
Definition titlePattern : regex :=
  Bol ;;
  Group 1 (times 4 upper ;; opt (lit "-" ;; times 4 upper)
                         ;; opt (lit "/" ;; times 4 upper)) ;;
  lit "/" ;; Group 2 (plus_lazy any) ;;
  opt ((plus space ;; str "CTA") <|> str "CTR" <|> str "TMA" <|> str "CLASS") ;;
  star space ;; opt (Group 3 (opt upper ;; plus digit)) ;; Eol.

(** [^LATERAL\s+LIMITS:] and [^LATERAL\s+LIMITS:\s*], flag [i], and the
    like for the other section markers *)
Definition lateralMarker : regex :=
  Bol ;; str_i "LATERAL" ;; plus space ;; str_i "LIMITS:".
Definition verticalMarker : regex :=
  Bol ;; str_i "VERTICAL" ;; plus space ;; str_i "LIMITS:".
Definition hoursMarker : regex :=
  Bol ;; str_i "HOUR" ;; opt (lit_i "S") ;; plus space ;; str_i "OF" ;;
  plus space ;; str_i "ACTIVATION:".
Definition authorityMarker : regex :=
  Bol ;; str_i "CONTROLLING" ;; plus space ;; str_i "AUTHORITY:".

(** [line.replace(marker followed by \s*, '').trim()] *)
Definition after_marker (marker : regex) (line : string) : string :=
  Text.trim (remove_first (marker ;; star space) line).

Record state : Type :=
  { airspaces : list airspace;
    currentAirspace : option airspace;
    readingLateralLimits : bool;
    readingVerticalLimits : bool }.

Definition initial : state :=
  {| airspaces := []; currentAirspace := None;
     readingLateralLimits := false; readingVerticalLimits := false |}.

(** [if (currentAirspace && currentAirspace.boundaries.length > 0)
     airspaces.push(currentAirspace)] *)
Definition save (airspaces : list airspace) (current : option airspace)
    : list airspace :=
  match current with
  | Some a => if 0 <? List.length (boundaries a) then airspaces ++ [a] else airspaces
  | None => airspaces
  end.

Definition is_four (l : string) : bool := String.length l =? 4.

(** The record a title line opens. *)
Definition open_airspace (titleMatch : rmatch) : airspace :=
  let locations :=
    filter is_four
      (Text.split_where (fun c => Ascii.eqb c "-" || Ascii.eqb c "/")
         (group_text titleMatch 1)) in
  let name := Text.trim (group_text titleMatch 2) in
  let suffix := group_or titleMatch 3 "" in
  {| id := Text.trim (group_text titleMatch 1 ++ "/" ++ name ++ " " ++ suffix);
     name := Text.trim (name ++ " " ++ suffix);
     locations := locations;
     boundaries := [];
     upperLimit := "UNL";
     lowerLimit := "GND";
     controllingAuthority := None;
     frequencies := [];
     hoursOfOperation := None |}.

(** One turn of the loop over the lines. *)
Definition step (st : state) (line : string) : state :=
  if Text.is_empty line then st
  else
    match exec titlePattern line with
    | Some titleMatch =>
        (* Save previous airspace, start new airspace *)
        {| airspaces := save (airspaces st) (currentAirspace st);
           currentAirspace := Some (open_airspace titleMatch);
           readingLateralLimits := false;
           readingVerticalLimits := false |}
    | None =>
        match currentAirspace st with
        | None => st
        | Some a =>
            if test lateralMarker line then
              let coordsOnSameLine := after_marker lateralMarker line in
              {| airspaces := airspaces st;
                 currentAirspace :=
                   Some (if Text.is_empty coordsOnSameLine then a
                         else extractCoordinatesFromLine coordsOnSameLine a);
                 readingLateralLimits := true;
                 readingVerticalLimits := false |}
            else if test verticalMarker line then
              let limitsText := after_marker verticalMarker line in
              {| airspaces := airspaces st;
                 currentAirspace := Some (extractVerticalLimits limitsText a);
                 readingLateralLimits := false;
                 readingVerticalLimits := true |}
            else if test hoursMarker line then
              let hours := after_marker hoursMarker line in
              {| airspaces := airspaces st;
                 currentAirspace := Some (set_hoursOfOperation a hours);
                 readingLateralLimits := false;
                 readingVerticalLimits := false |}
            else if test authorityMarker line then
              let authority := after_marker authorityMarker line in
              {| airspaces := airspaces st;
                 currentAirspace := Some (set_controllingAuthority a authority);
                 readingLateralLimits := false;
                 readingVerticalLimits := false |}
            else
              let a1 := if readingLateralLimits st
                        then extractCoordinatesFromLine line a else a in
              let a2 := if readingVerticalLimits st
                        then extractVerticalLimits line a1 else a1 in
              {| airspaces := airspaces st;
                 currentAirspace := Some a2;
                 readingLateralLimits := readingLateralLimits st;
                 readingVerticalLimits := readingVerticalLimits st |}
        end
    end.

Definition parseAirspaceText (text : string) : list airspace :=
  let lines := map Text.trim (Text.lines text) in
  let st := fold_left step lines initial in
  (* Save last airspace *)
  save (airspaces st) (currentAirspace st).

(** Every record of the list has a boundary. *)
Definition all_bounded (l : list airspace) : Prop :=
  Forall (fun a => boundaries a <> []) l.

End DahParser.

(* ================================================================== *)
(** ** The VATGlasses converter ([converter.js]) *)

Module Converter.

Import Num Js Regex.
Local Open Scope regex_scope.

(** What [generateId] reads from the clock and the random generator:
    [Date.now().toString(36)] and
    [Math.random().toString(36).substring(2, 7)]. *)
Record entropy : Type := { timestamp : string; random : string }.

Definition generateId (e : entropy) (prefix : string) : string :=
  Text.toUpperCase (prefix ++ "_" ++ timestamp e ++ "_" ++ random e).

(** The table of [normalizeAirspaceType].  Its keys are looked up with an
    upper-cased text, which no name inherited by the table can equal. *)
Definition typeMap : list (string * string) :=
  [ ("CLASS A", "A"); ("CLASS B", "B"); ("CLASS C", "C"); ("CLASS D", "D");
    ("CLASS E", "E"); ("CLASS F", "F"); ("CLASS G", "G");
    ("CONTROL ZONE", "CTR"); ("CTR", "CTR");
    ("CONTROL AREA", "CTA"); ("CTA", "CTA");
    ("TERMINAL CONTROL AREA", "TMA"); ("TMA", "TMA");
    ("RESTRICTED", "R"); ("PROHIBITED", "P"); ("DANGER", "D");
    ("MILITARY", "M") ].

Fixpoint assoc (k : string) (l : list (string * string)) : option string :=
  match l with
  | [] => None
  | (k', v) :: l' => if String.eqb k k' then Some v else assoc k l'
  end.

Definition normalizeAirspaceType (type : value) : result string :=
  if negb (truthy type) then Ok "OTHER"
  else
    match type with
    | VStr s =>
        let upperType := Text.trim (Text.toUpperCase s) in
        match assoc upperType typeMap with
        | Some code => Ok code
        | None => Ok upperType
        end
    | _ => Throw (not_a_function "type.toUpperCase")
    end.

(** [/F?L?(\d+)/] *)
Definition flPattern : regex :=
  opt (lit "F") ;; opt (lit "L") ;; Group 1 (plus digit).

(** [(\d+) \s* (FT|'|FEET|AMSL|AGL)?] *)
Definition ftPattern : regex :=
  Group 1 (plus digit) ;; star space ;;
  opt (Group 2 (str "FT" <|> lit "'" <|> str "FEET" <|> str "AMSL" <|> str "AGL")).

(** The object [{ value, unit, reference }]. *)
Definition altitude (value : number) (unit reference : string) : Js.value :=
  VObj [ ("value", VNum value); ("unit", VStr unit); ("reference", VStr reference) ].

(** [m[i]] under the guard [m && ...]. *)
Definition capture (m : option rmatch) (i : nat) : string :=
  match m with
  | Some found => group_text found i
  | None => ""
  end.

Definition matched (m : option rmatch) : bool :=
  match m with Some _ => true | None => false end.

Record validation : Type :=
  { valid : bool; errors : list string; warnings : list string }.

Section WithRuntime.
Context {R : Runtime}.

Definition normalizeAltitude (alt : value) : result value :=
  match typeof alt with
  | t_object => Ok alt
  | _ =>
      let* s := call_toString alt in
      let altStr := Text.trim (Text.toUpperCase s) in
      (* Handle unlimited *)
      if String.eqb altStr "UNL" || String.eqb altStr "UNLIMITED" then
        Ok (altitude (of_Z 999) "FL" "STD")
      (* Handle ground level *)
      else if String.eqb altStr "GND" || String.eqb altStr "GROUND"
              || String.eqb altStr "SFC" then
        Ok (altitude (of_Z 0) "FT" "AGL")
      else
        (* Parse flight level *)
        let flMatch := exec flPattern altStr in
        if matched flMatch
           && gt (Num.parseInt (capture flMatch 1)) (of_Z 180) then
          Ok (altitude (Num.parseInt (capture flMatch 1)) "FL" "STD")
        else
          (* Parse feet *)
          let ftMatch := exec ftPattern altStr in
          if matched ftMatch then
            let isAGL := Text.includes altStr "AGL"
                         || Text.includes altStr "ABOVE GROUND" in
            Ok (altitude (Num.parseInt (capture ftMatch 1)) "FT"
                  (if isAGL then "AGL" else "AMSL"))
          else
            (* Default *)
            Ok (altitude (of_Z 0) "FT" "AMSL")
  end.

Definition normalizeCoordinate (coord : value) : result number :=
  match coord with
  | VNum n => Ok (round6 n)
  | _ =>
      let* num := Js.parseFloat coord in
      if negb (isNaN num) then Ok (round6 num) else Ok (of_Z 0)
  end.

(** The callback of [airspace.boundaries.map]. *)
Definition convertBoundary (boundary : value) : result value :=
  let* latitude := get boundary "latitude" in
  let* lat := normalizeCoordinate latitude in
  let* longitude := get boundary "longitude" in
  let* lon := normalizeCoordinate longitude in
  Ok (VObj [ ("lat", VNum lat); ("lon", VNum lon) ]).

(** [a.map(f)]: [a] has the method when it is an array. *)
Definition call_map (a : value) (f : value -> result value) : result value :=
  match a with
  | VUndefined | VNull => Throw (cannot_read "map")
  | VArr items => let* out := mapM f items in Ok (VArr out)
  | _ => Throw (not_a_function "map")
  end.

(** [v.length > 0] *)
Definition length_positive (v : value) : result bool :=
  let* len := get v "length" in
  let* n := toNumber len in
  Ok (gt n (of_Z 0)).

(** [if (cond) obj.k = v], for the optional properties. *)
Definition optional (k : string) (cond : bool) (v : value)
    : list (string * value) :=
  if cond then [(k, v)] else [].

Definition isUndefined (v : value) : bool :=
  match v with VUndefined => true | _ => false end.

Definition convertAirspace (e : entropy) (airspace : value) : result value :=
  let* id := get airspace "id" in
  let* name := get airspace "name" in
  let* type := get airspace "type" in
  let* type' := normalizeAirspaceType type in
  (* Add altitude information *)
  let* upperLimit := get airspace "upperLimit" in
  let* ceiling :=
    if truthy upperLimit then normalizeAltitude upperLimit else Ok VUndefined in
  let* lowerLimit := get airspace "lowerLimit" in
  let* floor :=
    if truthy lowerLimit then normalizeAltitude lowerLimit else Ok VUndefined in
  (* Convert boundaries *)
  let* boundaries := get airspace "boundaries" in
  let* some :=
    if truthy boundaries then length_positive boundaries else Ok false in
  let* boundaries' :=
    if some then call_map boundaries convertBoundary else Ok (VArr []) in
  (* Add additional properties if present *)
  let* conditional := get airspace "conditional" in
  let* class := get airspace "class" in
  let* frequency := get airspace "frequency" in
  Ok (VObj
        ([ ("id", or_else id (VStr (generateId e "AIRSPACE")));
           ("name", or_else name (VStr "Unknown Airspace"));
           ("type", VStr type');
           ("boundaries", boundaries') ]
         ++ optional "ceiling" (truthy upperLimit) ceiling
         ++ optional "floor" (truthy lowerLimit) floor
         ++ optional "conditional" (negb (isUndefined conditional)) conditional
         ++ optional "class" (truthy class) class
         ++ optional "frequency" (truthy frequency) frequency)%list).

(** *** [convertPosition], [convertAirport] *)

(** [v.toUpperCase()]: a string has the method. *)
Definition call_toUpperCase (v : value) : result value :=
  match v with
  | VUndefined | VNull => Throw (cannot_read "toUpperCase")
  | VStr s => Ok (VStr (Text.toUpperCase s))
  | _ => Throw (not_a_function "type.toUpperCase")
  end.

(** [Array.isArray(v) ? v : [v]] *)
Definition as_array (v : value) : value :=
  match v with
  | VArr _ => v
  | _ => VArr [v]
  end.

(** The object [{ lat, lon }] of two normalised coordinates. *)
Definition coordinates_of (latitude longitude : value) : result value :=
  let* lat := normalizeCoordinate latitude in
  let* lon := normalizeCoordinate longitude in
  Ok (VObj [ ("lat", VNum lat); ("lon", VNum lon) ]).

Definition convertPosition (e : entropy) (position : value) : result value :=
  let* id := get position "id" in
  let* callsign := get position "callsign" in
  let* name := get position "name" in
  let* frequency := get position "frequency" in
  (* Add position type *)
  let* type := get position "type" in
  let* type' := if truthy type then call_toUpperCase type else Ok VUndefined in
  (* Add coordinates if present *)
  let* latitude := get position "latitude" in
  let* longitude := get position "longitude" in
  let* coordinates :=
    if truthy latitude && truthy longitude
    then coordinates_of latitude longitude else Ok VUndefined in
  (* Add airspace ownership if present *)
  let* airspace := get position "airspace" in
  Ok (VObj
        ([ ("id", or_else id (VStr (generateId e "POS")));
           ("callsign", or_else callsign name);
           ("frequency", or_else frequency (VStr "000.000"));
           ("name", or_else name (VStr "Unknown Position")) ]
         ++ optional "type" (truthy type) type'
         ++ optional "coordinates" (truthy latitude && truthy longitude) coordinates
         ++ optional "airspace" (truthy airspace) (as_array airspace))%list).

Definition convertAirport (airport : value) : result value :=
  let* icao := get airport "icao" in
  let* code := get airport "code" in
  let* name := get airport "name" in
  let* latitude := get airport "latitude" in
  let* longitude := get airport "longitude" in
  let* coordinates := coordinates_of latitude longitude in
  (* Add elevation, runways and ownership if present *)
  let* elevation := get airport "elevation" in
  let* runways := get airport "runways" in
  let* positions := get airport "positions" in
  Ok (VObj
        ([ ("icao", or_else icao code);
           ("name", or_else name (VStr "Unknown Airport"));
           ("coordinates", coordinates) ]
         ++ optional "elevation" (negb (isUndefined elevation)) elevation
         ++ optional "runways" (truthy runways) runways
         ++ optional "ownership" (truthy positions) (as_array positions))%list).

(** *** [convertToVATGlasses] *)

(** [items.map(f)] with the index of each item at hand. *)
Fixpoint mapM_from {A B} (f : nat -> A -> result B) (i : nat) (l : list A)
    : result (list B) :=
  match l with
  | [] => Ok []
  | a :: l' => let* b := f i a in let* bs := mapM_from f (S i) l' in Ok (b :: bs)
  end.

Definition call_map_index (a : value) (f : nat -> value -> result value)
    : result value :=
  match a with
  | VUndefined | VNull => Throw (cannot_read "map")
  | VArr items => let* out := mapM_from f 0 items in Ok (VArr out)
  | _ => Throw (not_a_function "map")
  end.

(** What one conversion reads from the clock and the random generator:
    the text of [new Date().toISOString()], and what [generateId] reads when
    it is called for the airspace or the position at a given index. *)
Record clock : Type :=
  { generatedAt : string;
    airspace_entropy : nat -> entropy;
    position_entropy : nat -> entropy }.

(** One of the three blocks [if (parsedData.field && parsedData.field.length
    > 0) vatglassesData.target = parsedData.field.map(convert)]; the target
    keeps its empty array otherwise. *)
Definition convert_field (field : value) (convert : nat -> value -> result value)
    : result value :=
  let* some := if truthy field then length_positive field else Ok false in
  if some then call_map_index field convert else Ok (VArr []).

(** [parsedData.metadata?.source] *)
Definition metadata_source (parsedData : value) : result value :=
  let* metadata := get parsedData "metadata" in
  match metadata with
  | VUndefined | VNull => Ok VUndefined
  | _ => get metadata "source"
  end.

Definition convertToVATGlasses (c : clock) (parsedData : value) : result value :=
  let* source := metadata_source parsedData in
  (* Convert airspaces *)
  let* airspaces := get parsedData "airspaces" in
  let* airspace :=
    convert_field airspaces (fun i => convertAirspace (airspace_entropy c i)) in
  (* Convert positions *)
  let* positions := get parsedData "positions" in
  let* positions' :=
    convert_field positions (fun i => convertPosition (position_entropy c i)) in
  (* Convert airports *)
  let* airports := get parsedData "airports" in
  let* airports' := convert_field airports (fun _ => convertAirport) in
  Ok (VObj
        [ ("airspace", airspace);
          ("positions", positions');
          ("airports", airports');
          ("metadata",
           VObj [ ("generatedAt", VStr (generatedAt c));
                  ("source", or_else source (VStr "DAH File"));
                  ("version", VStr "1.0") ]) ]).

(** *** [validateVATGlassesData] *)

(** [`${v}`] *)
Definition interpolate (v : value) : result string := toString v.

Definition index_text (index : nat) : string := Text.of_nat index.

(** [v.length === 0] *)
Definition length_is_zero (v : value) : result bool :=
  let* len := get v "length" in
  Ok (match len with VNum n => Num.eqb n (of_Z 0) | _ => false end).

Definition warn (cond : bool) (msg : string) : list string :=
  if cond then [msg] else [].

Definition check_airspace (index : nat) (airspace : value) : result (list string) :=
  let* id := get airspace "id" in
  let* name := get airspace "name" in
  let* boundaries := get airspace "boundaries" in
  let* none :=
    if negb (truthy boundaries) then Ok true else length_is_zero boundaries in
  let* label :=
    if none then
      (if truthy id then interpolate id else Ok (index_text index))
    else Ok "" in
  Ok (warn (negb (truthy id))
           ("Airspace at index " ++ index_text index ++ " missing id")
      ++ warn (negb (truthy name))
           ("Airspace at index " ++ index_text index ++ " missing name")
      ++ warn none ("Airspace " ++ label ++ " has no boundaries"))%list.

Definition check_position (index : nat) (position : value) : result (list string) :=
  let* callsign := get position "callsign" in
  let* frequency := get position "frequency" in
  Ok (warn (negb (truthy callsign))
           ("Position at index " ++ index_text index ++ " missing callsign")
      ++ warn (negb (truthy frequency))
           ("Position at index " ++ index_text index ++ " missing frequency"))%list.

Definition check_airport (index : nat) (airport : value) : result (list string) :=
  let* icao := get airport "icao" in
  let* coordinates := get airport "coordinates" in
  Ok (warn (negb (truthy icao))
           ("Airport at index " ++ index_text index ++ " missing ICAO code")
      ++ warn (negb (truthy coordinates))
           ("Airport at index " ++ index_text index ++ " missing coordinates"))%list.

(** [items.forEach((item, index) => ...)], collecting the warnings. *)
Fixpoint check_each (check : nat -> value -> result (list string))
    (index : nat) (items : list value) : result (list string) :=
  match items with
  | [] => Ok []
  | item :: items' =>
      let* w := check index item in
      let* ws := check_each check (S index) items' in
      Ok (w ++ ws)%list
  end.

(** One of the three blocks [if (data.field) { ... }]: the errors and
  the warnings it adds. *)
Definition check_field (field : value) (name : string)
    (check : nat -> value -> result (list string))
    : result (list string * list string) :=
  if truthy field then
    match field with
    | VArr items => let* ws := check_each check 0 items in Ok ([], ws)
    | _ => Ok ([name ++ " must be an array"], [])
    end
  else Ok ([], []).

Definition validateVATGlassesData (data : value) : result validation :=
  let* airspace := get data "airspace" in
  let* positions := get data "positions" in
  let* airports := get data "airports" in
  (* Check required top-level properties *)
  let errors0 :=
    if negb (truthy airspace) && negb (truthy positions) && negb (truthy airports)
    then ["Data must contain at least one of: airspace, positions, or airports"]
    else [] in
  let* (e1, w1) := check_field airspace "airspace" check_airspace in
  let* (e2, w2) := check_field positions "positions" check_position in
  let* (e3, w3) := check_field airports "airports" check_airport in
  let errors := (errors0 ++ e1 ++ e2 ++ e3)%list in
  Ok {| valid := (List.length errors =? 0);
        errors := errors;
        warnings := (w1 ++ w2 ++ w3)%list |}.

End WithRuntime.

(** *** The shape of a converted airspace *)

Definition converted_boundary (lat lon : number) : value :=
  VObj [ ("lat", VNum lat); ("lon", VNum lon) ].

Definition is_converted_boundary (b : value) : Prop :=
  exists lat lon, b = converted_boundary lat lon.

(** The properties [convertAirspace] adds when the source has them. *)
Definition optional_key (k : string) : bool :=
  existsb (String.eqb k) ["ceiling"; "floor"; "conditional"; "class"; "frequency"].

Definition optional_only (extras : list (string * value)) : Prop :=
  Forall (fun kv => optional_key (fst kv) = true) extras.

Definition converted_record (id name : value) (type : string)
    (boundaries : list value) (extras : list (string * value)) : value :=
  VObj ([ ("id", id); ("name", name); ("type", VStr type);
          ("boundaries", VArr boundaries) ] ++ extras)%list.

End Converter.

(* ================================================================== *)
(** ** The sector converter (the first [convertToVATGlasses] of
    [converter.js])

    It takes the records of the PDF-text parser and builds the sectors, the
    groups and the positions of the VATGlasses file. *)

Module SectorConverter.

Import Num Js Regex.
Local Open Scope regex_scope.

(** What the run-time provides and the model leaves open: the text a
    template literal gives for a member of [Object.prototype]. *)
Class Host : Type := { member_text : string -> string }.

(** [a || b] on strings. *)
Definition or_text (a b : string) : string :=
  if Text.is_empty a then b else a.

(** *** [parseAltitude] *)

(** [/F?L?(\d+)/] *)
Definition flPattern : regex :=
  opt (lit "F") ;; opt (lit "L") ;; Group 1 (plus digit).

(** [(\d+) \s* (FT|'|FEET)?] *)
Definition ftPattern : regex :=
  Group 1 (plus digit) ;; star space ;;
  opt (Group 2 (str "FT" <|> lit "'" <|> str "FEET")).

(** [None] is [null]. *)
Definition parseAltitude (altStr : string) : option number :=
  if Text.is_empty altStr then None
  else
    let str := Text.trim (Text.toUpperCase altStr) in
    (* Handle unlimited *)
    if String.eqb str "UNL" || String.eqb str "UNLIMITED" then Some (of_Z 999)
    (* Handle ground level *)
    else if String.eqb str "GND" || String.eqb str "GROUND"
            || String.eqb str "SFC" then None
    else
      (* Parse flight level *)
      match exec flPattern str with
      | Some flMatch => Some (Num.parseInt (group_text flMatch 1))
      | None =>
          (* Parse feet and convert to flight level *)
          match exec ftPattern str with
          | Some ftMatch =>
              Some (floor (div_by (Num.parseInt (group_text ftMatch 1)) 100))
          | None => None
          end
      end.

(** *** [extractPositionId] *)

(** [/([A-Z]{3,4})/] *)
Definition codePattern : regex := Group 1 (times 3 upper ;; opt upper).

Definition extractPositionId (id name : string) : option string :=
  (* Look for common position identifiers in the name *)
  let nameUpper := Text.toUpperCase (or_text name (or_text id "")) in
  if Text.includes nameUpper "CORAL" then Some "COL"
  else if Text.includes nameUpper "FLINDERS" then Some "FLD"
  else if Text.includes nameUpper "HOWE" then Some "HWE"
  else if Text.includes nameUpper "TASMAN" then Some "TSN"
  else if Text.includes nameUpper "INDIAN EAST" then Some "INE"
  else if Text.includes nameUpper "INDIAN SOUTH" then Some "INS"
  else if Text.includes nameUpper "INDIAN" then Some "IND"
  else if Text.includes nameUpper "HONIARA" then Some "AGGG"
  else if Text.includes nameUpper "NAURU" then Some "ANAU"
  else
    (* Default: try to extract first 3-4 letter code *)
    match exec codePattern nameUpper with
    | Some codeMatch => Some (group_text codeMatch 1)
    | None => None
    end.

(** *** [extractLocationName], [determinePositionPrefix] *)

(** What a table written as an object literal answers: a text, or the
    member of [Object.prototype] of that name. *)
Inductive entry : Type :=
| Named (s : string)
| Member (k : string).

Definition locationMap : Dict.dict string :=
  [ ("YBBB", "Brisbane"); ("YBBO", "Brisbane");
    ("YMMM", "Melbourne"); ("YMMO", "Melbourne");
    ("YSSY", "Sydney"); ("YSSO", "Sydney");
    ("YPAD", "Adelaide"); ("YPPH", "Perth") ].

Definition extractLocationName (icao : string) : entry :=
  match Dict.get locationMap icao with
  | Dict.Own city => Named (or_text city icao)
  | Dict.Inherited => Member icao
  | Dict.Undefined => Named icao
  end.

Definition prefixMap : Dict.dict string :=
  [ ("YBBB", "BN"); ("YBBO", "BN");
    ("YMMM", "ML"); ("YMMO", "ML");
    ("YSSY", "SY"); ("YSSO", "SY");
    ("YPAD", "AD"); ("YPPH", "PH") ].

Section WithHost.
Context {R : Runtime} {H : Host}.

Definition determinePositionPrefix (locations : list string) (posId : string)
    : string :=
  match locations with
  | [] => posId
  | location :: _ =>
      (* Map location to prefix *)
      let fallback := Text.toUpperCase (Text.substring 1 3 location) in
      let prefix :=
        match Dict.get prefixMap location with
        | Dict.Own p => or_text p fallback
        | Dict.Inherited => member_text location
        | Dict.Undefined => fallback
        end in
      prefix ++ "-" ++ posId
  end.

(** *** [formatCoordinate]

    The degrees, minutes and seconds are floors of exact values here; the
    code takes them of doubles, and a product that falls just under a whole
    number there gives a digit less.  No statement below is about the
    digits of the two texts. *)

Definition formatDMS (decimal : number) (isLat : bool) : string :=
  let absolute := abs decimal in
  let degrees := floor absolute in
  let minutesDecimal := mul_by (sub absolute degrees) 60 in
  let minutes := floor minutesDecimal in
  let seconds := floor (mul_by (sub minutesDecimal minutes) 60) in
  (* Format as DDMMSS or DDDMMSS *)
  let degStr :=
    if isLat then Text.padStart 2 "0" (number_to_string degrees)
    else Text.padStart 3 "0" (number_to_string degrees) in
  let minStr := Text.padStart 2 "0" (number_to_string minutes) in
  let secStr := Text.padStart 2 "0" (number_to_string seconds) in
  (* Add sign *)
  let sign := if gt (of_Z 0) decimal then "-" else "" in
  sign ++ degStr ++ minStr ++ secStr.

(** The array of the two texts. *)
Definition formatCoordinate (lat lon : number) : string * string :=
  (formatDMS lat true, formatDMS lon false).

(** *** [convertAirspace] *)

Record sector : Type :=
  { points : list (string * string);
    max : option number;
    min : option number }.

Record vatAirspace : Type :=
  { id : string;
    owner : list string;
    group : option string;
    sectors : list sector }.

(** [None] is the [null] of a record without boundaries. *)
Definition convertAirspace (airspace : DahParser.airspace) : option vatAirspace :=
  if List.length (DahParser.boundaries airspace) =? 0 then None
  else
    (* Add owner (position controlling this airspace) *)
    let posId :=
      extractPositionId (DahParser.id airspace) (DahParser.name airspace) in
    (* Convert boundaries to sectors *)
    let sector :=
      {| points :=
           map (fun boundary =>
                  formatCoordinate (DahParser.latitude boundary)
                                   (DahParser.longitude boundary))
               (DahParser.boundaries airspace);
         (* Add altitude limits *)
         max :=
           if negb (Text.is_empty (DahParser.upperLimit airspace))
              && negb (String.eqb (DahParser.upperLimit airspace) "UNL")
           then parseAltitude (DahParser.upperLimit airspace) else None;
         min :=
           if negb (Text.is_empty (DahParser.lowerLimit airspace))
              && negb (String.eqb (DahParser.lowerLimit airspace) "GND")
              && negb (String.eqb (DahParser.lowerLimit airspace) "SFC")
           then parseAltitude (DahParser.lowerLimit airspace) else None |} in
    Some {| id := or_text (DahParser.name airspace)
                    (or_text (DahParser.id airspace) "Unknown");
            owner := match posId with
                     | Some p => if Text.is_empty p then [] else [p]
                     | None => []
                     end;
            (* Add group (location) *)
            group := hd_error (DahParser.locations airspace);
            sectors := [sector] |}.

(** *** [convertToVATGlasses] *)

Record group_entry : Type := { name : entry; colour : string }.

Record position : Type :=
  { colours : list string;
    pre : list string;
    type : string;
    frequency : string;
    callsign : string }.

(** The result, reduced to the fields the conversion writes; [callsigns]
    and [airports] keep the constants of the literal. *)
Record vatglasses : Type :=
  { airspace : list vatAirspace;
    groups : Dict.dict group_entry;
    positions : Dict.dict position }.

(** [x.toFixed(3)]: the nearest multiple of 10^-3, a tie going away from
    zero, written with three decimals; the run-time's text for a number
    that is not finite or not below 10^21. *)
Definition toFixed3 (x : number) : string :=
  match x with
  | Fin q =>
      let s := if Qle_bool 0 q then "" else "-" in
      let a := Qabs q in
      if Qle_bool (inject_Z (10 ^ 21)) a then s ++ number_to_string (abs x)
      else
        let n := Qfloor (a * inject_Z 1000 + (1 # 2))%Q in
        let m := Text.padStart 4 "0" (Text.of_nat (Z.to_nat n)) in
        let k := String.length m in
        s ++ Text.take (k - 3) m ++ "." ++ Text.drop (k - 3) m
  | other => number_to_string other
  end.

(** One turn of the inner [forEach]: a location gets a group unless the
    table answers something under its name. *)
Definition add_group (groups : Dict.dict group_entry) (location : string)
    : Dict.dict group_entry :=
  match Dict.get groups location with
  | Dict.Undefined =>
      Dict.set groups location
        {| name := extractLocationName location; colour := "#ffffff" |}
  | _ => groups
  end.

(** Add position if controlling authority exists. *)
Definition add_position (positions : Dict.dict position)
    (a : DahParser.airspace) : Dict.dict position :=
  match DahParser.controllingAuthority a, DahParser.frequencies a with
  | Some authority, first :: _ =>
      if Text.is_empty authority then positions
      else
        match extractPositionId (DahParser.id a) (DahParser.name a) with
        | Some posId =>
            if Text.is_empty posId then positions
            else
              match Dict.get positions posId with
              | Dict.Undefined =>
                  Dict.set positions posId
                    {| colours := ["#56de37"];
                       pre := [determinePositionPrefix (DahParser.locations a) posId];
                       type := "FSS";
                       frequency := toFixed3 first;
                       callsign := authority |}
              | _ => positions
              end
        | None => positions
        end
  | _, _ => positions
  end.

(** One turn of the outer [forEach]. *)
Definition convert_step (out : vatglasses) (a : DahParser.airspace) : vatglasses :=
  match convertAirspace a with
  | Some converted =>
      {| airspace := (airspace out ++ [converted])%list;
         groups := fold_left add_group (DahParser.locations a) (groups out);
         positions := add_position (positions out) a |}
  | None => out
  end.

Definition empty_vatglasses : vatglasses :=
  {| airspace := []; groups := Dict.empty; positions := Dict.empty |}.

Definition convertToVATGlasses (airspaces : list DahParser.airspace) : vatglasses :=
  fold_left convert_step airspaces empty_vatglasses.

End WithHost.

End SectorConverter.

(* ================================================================== *)
(** ** Sample inputs *)

Module Samples.

Import Text Regex.

(** [id,name] / [A1,Foo] on two lines *)
Definition two_line_csv : string := "id,name" ++ nl ++ "A1,Foo".

(** A header line followed by blank lines only *)
Definition header_only_csv : string := "id,name" ++ nl ++ nl.

Definition vertical_limits : string := "VERTICAL LIMITS: FL100 - FL200".

(** 33 degrees 52 minutes 12 seconds South, with the degree sign, the
    apostrophe and the double quote *)
Definition dms_south : string :=
  "33" ++ String degree ("52'12" ++ String dquote "S").

(** The same token behind a label, so that it does not start with a
    number *)
Definition labelled_dms_south : string := "LAT " ++ dms_south.

Definition brisbane : string :=
  "YBBB/BRISBANE CTA A1" ++ nl ++
  "LATERAL LIMITS: 3322225 14822227E" ++ nl ++
  "VERTICAL LIMITS: FL180 - FL245".

(** A titled block without any coordinate *)
Definition titled_without_coordinates : string := "AIRSPACE A1".

(** A CSV whose only data row has the id [constructor] *)
Definition constructor_csv : string :=
  "airspace id,name" ++ nl ++ "constructor,Foo".

(** Rows (A, 2), (A, 1), (B, 1) as the CSV parser builds them, the
    latitude telling the points apart. *)
Definition point (lat : Z) (seq : Z) : Parser.boundary :=
  {| Parser.latitude := Num.of_Z lat; Parser.longitude := Num.of_Z 0;
     Parser.sequence := Some (Num.of_Z seq) |}.

Definition row (id : string) (points : list Parser.boundary) : Parser.airspace :=
  {| Parser.id := id; Parser.name := "Unknown"; Parser.type := Some "UNKNOWN";
     Parser.boundaries := points;
     Parser.upperLimit := "UNL"; Parser.lowerLimit := "GND";
     Parser.conditional := Some Parser.Off |}.

Definition three_rows : list Parser.airspace :=
  [ row "A" [point 10 2]; row "A" [point 20 1]; row "B" [point 30 1] ].

Definition constructor_rows : list Parser.airspace :=
  [ row "constructor" [point 10 1] ].

(** Two rows, the second with a numeric id *)
Definition numeric_id_rows : list Parser.airspace :=
  [ row "B" [point 30 1]; row "7" [point 10 1] ].

Definition no_data : Parser.parsedData := {| Parser.airspaces := [] |}.

(** A run-time for closed examples: integers print in decimal, and a string
    denotes a number when the whole of it is a decimal or hexadecimal
    literal. *)
Definition integer_text (n : Num.number) : string :=
  match n with
  | Num.NaN => "NaN"
  | Num.Inf true => "-Infinity"
  | Num.Inf false => "Infinity"
  | Num.Fin q =>
      let z := Qfloor q in
      if (z <? 0)%Z then "-" ++ of_nat (Z.to_nat (- z)) else of_nat (Z.to_nat z)
  end.

(** Decimal and hexadecimal literals that fill a whole string. *)
Definition decimal_literal : Regex.regex :=
  (Regex.Bol ;; Regex.opt (Regex.one_of "+-") ;;
   (Regex.str "Infinity"
    <|> (Regex.plus Regex.digit ;; Regex.opt (Regex.lit ".") ;; Regex.star Regex.digit)
    <|> (Regex.lit "." ;; Regex.plus Regex.digit)) ;;
   Regex.opt (Regex.one_of "eE" ;; Regex.opt (Regex.one_of "+-") ;; Regex.plus Regex.digit) ;;
   Regex.Eol)%re.
Definition hex_literal : Regex.regex :=
  (Regex.Bol ;; Regex.lit "0" ;; Regex.one_of "xX" ;;
   Regex.plus (Regex.Class Json.is_hex) ;; Regex.Eol)%re.

Definition whole_text_number (s : string) : Num.number :=
  let t := trim s in
  if is_empty t then Num.of_Z 0
  else if Regex.test hex_literal t then Num.parseInt t
  else if Regex.test decimal_literal t then Num.parseFloat t
  else Num.NaN.

Definition sample_runtime : Js.Runtime :=
  {| Js.number_to_string := integer_text;
     Js.string_to_number := whole_text_number |}.

Definition sample_entropy : Converter.entropy :=
  {| Converter.timestamp := "lq1x2y3z"; Converter.random := "k3j9a" |}.

(** A parsed airspace as the converter receives it. *)
Definition parsed_airspace : Js.value :=
  Js.VObj
    [ ("id", Js.VStr "YSSY-CTR");
      ("name", Js.VStr "Sydney");
      ("type", Js.VStr "control zone");
      ("boundaries",
       Js.VArr [ Js.VObj [ ("latitude", Js.VNum (Num.Fin (-16019 # 480)));
                           ("longitude", Js.VStr "151.25") ] ]);
      ("upperLimit", Js.VStr "FL245");
      ("lowerLimit", Js.VStr "GND");
      ("conditional", Js.VBool false) ].

End Samples.

(* ================================================================== *)
(** ** Notions used to state the properties of the parsers and converters *)

(* ================================================================== *)
(** ** The rules of the format detector

    The four rules of the detector as the specification words them, on the
    input text alone, to be compared with [Parser.detectFileFormat]. *)

Module DetectorRules.

(** Rule 1: the trimmed text starts with an opening brace or bracket and
    the text parses as JSON. *)
Definition is_json (text : string) : bool :=
  match Text.trim text with
  | String c _ => (Ascii.eqb c "{" || Ascii.eqb c "[") && Json.valid text
  | EmptyString => false
  end.

(** Rule 2: there are two lines or more, the first line contains a comma,
    and its lower-case form contains one of the three header words. *)
Definition has_csv_header (text : string) : bool :=
  match Text.lines text with
  | first :: _ :: _ =>
      Text.includes first ","
      && existsb (Text.includes (Text.toLowerCase first))
           ["airspace"; "latitude"; "name"]
  | _ => false
  end.

(** Rule 3: the text contains one of the four marker words. *)
Definition has_marker (text : string) : bool :=
  existsb (Text.includes text)
    ["AIRSPACE"; "Airspace"; "UPPER LIMIT"; "LOWER LIMIT"].

(** The first rule that applies wins. *)
Definition detect (text : string) : Parser.format :=
  if is_json text then Parser.json
  else if has_csv_header text then Parser.csv
  else if has_marker text then Parser.structured_text
  else Parser.generic.

End DetectorRules.

Module Notions.

Import Num Js Regex.

(** *** CSV lines *)

(** A cell as a CSV line writes it: between double quotes, or as it is. *)
Definition written (cell : bool * string) : string :=
  let (quoted, text) := cell in
  if quoted then String Text.dquote (text ++ String Text.dquote "") else text.

(** What a cell may hold to be read back: no double quote, and no comma
    unless it is written between quotes. *)
Definition readable (cell : bool * string) : bool :=
  let (quoted, text) := cell in
  Text.every
    (fun c => negb (Ascii.eqb c Text.dquote)
              && (quoted || negb (Ascii.eqb c ","))) text.

Definition quote_free (s : string) : bool :=
  Text.every (fun c => negb (Ascii.eqb c Text.dquote)) s.

(** *** Structured text *)

(** The lines that open a record, and the id and name read from one. *)
Definition is_heading (line : string) : bool :=
  test Parser.headingPattern (Text.trim line).

Definition heading_label (line : string) : string * string :=
  (Parser.extractAirspaceId (Text.trim line),
   Parser.extractAirspaceName (Text.trim line)).

Definition label (a : Parser.airspace) : string * string :=
  (Parser.id a, Parser.name a).

(** The records a loop state holds: those pushed, then the current one. *)
Definition emitted (st : Parser.text_state) : list Parser.airspace :=
  (Parser.airspaces (fst st)
   ++ match snd st with Some a => [a] | None => [] end)%list.

(** *** Points and records of the CSV parser *)

Definition numeric_point (b : Parser.boundary) : bool :=
  negb (isNaN (Parser.latitude b)) && negb (isNaN (Parser.longitude b))
  && match Parser.sequence b with
     | Some n => negb (isNaN n)
     | None => false
     end.

Definition filled (a : Parser.airspace) : bool :=
  negb (Text.is_empty (Parser.id a)) && negb (Text.is_empty (Parser.name a))
  && negb (Text.is_empty (Parser.upperLimit a))
  && negb (Text.is_empty (Parser.lowerLimit a)).

(** *** Parsed records in the converter *)

(** [a || b] on texts. *)
Definition text_or (a b : string) : string :=
  if Text.is_empty a then b else a.

(** [airspace.type] of a parsed record. *)
Definition type_value (a : Parser.airspace) : value :=
  match Parser.type a with
  | Some t => VStr t
  | None => VUndefined
  end.

(** A parsed point after conversion: both coordinates rounded to six
    decimals. *)
Definition converted_point (b : Parser.boundary) : value :=
  Converter.converted_boundary (round6 (Parser.latitude b))
                               (round6 (Parser.longitude b)).

(** The optional properties a parsed record gets: a ceiling and a floor
    when its limits are not empty, and its [conditional] when it has one. *)
Definition converted_extras (a : Parser.airspace) (ceiling floor : value)
    : list (string * value) :=
  (Converter.optional "ceiling"
     (negb (Text.is_empty (Parser.upperLimit a))) ceiling
   ++ Converter.optional "floor"
        (negb (Text.is_empty (Parser.lowerLimit a))) floor
   ++ match Parser.conditional a with
      | Some f => [ ("conditional", Parser.flag_value f) ]
      | None => []
      end)%list.

(** The conversion of a parsed record, given its normalised parts. *)
Definition converted_parsed (e : Converter.entropy) (a : Parser.airspace)
    (type : string) (ceiling floor : value) : value :=
  Converter.converted_record
    (VStr (text_or (Parser.id a) (Converter.generateId e "AIRSPACE")))
    (VStr (text_or (Parser.name a) "Unknown Airspace"))
    type
    (map converted_point (Parser.boundaries a))
    (converted_extras a ceiling floor).

(** The output record is the conversion of the parsed record. *)
Definition conversion_of {R : Runtime} (a : Parser.airspace) (r : value) : Prop :=
  exists e, Converter.convertAirspace e (Parser.airspace_value a) = Ok r.

Definition unbounded (a : Parser.airspace) : bool :=
  match Parser.boundaries a with
  | [] => true
  | _ :: _ => false
  end.

(** The object [convertToVATGlasses] returns for airspaces alone. *)
Definition converted_output (generatedAt source : string) (records : list value)
    : value :=
  VObj [ ("airspace", VArr records);
         ("positions", VArr []);
         ("airports", VArr []);
         ("metadata",
          VObj [ ("generatedAt", VStr generatedAt);
                 ("source", VStr source);
                 ("version", VStr "1.0") ]) ].

Definition no_boundaries_warning (w : string) : Prop :=
  exists id, w = "Airspace " ++ id ++ " has no boundaries".

(** An object with a truthy property of that name. *)
Definition has_truthy (k : string) (r : value) : Prop :=
  exists props x, r = VObj props /\ Js.own props k = Some x /\ truthy x = true.

(** What the validator accepts as a field: nothing, or an array. *)
Definition array_or_absent (v : value) : bool :=
  negb (truthy v) || match v with VArr _ => true | _ => false end.

(** The exception of a value that has no text: an object whose own
    [toString] property hides the inherited method. *)
Definition no_text : exn := TypeError "Cannot convert object to primitive value".

(** The warnings the validator can give on a converted file. *)
Definition expected_warning (w : string) : Prop :=
  no_boundaries_warning w \/
  (exists index, w = "Position at index " ++ index ++ " missing callsign") \/
  (exists index, w = "Airport at index " ++ index ++ " missing ICAO code").

(** *** Records of the PDF-text parser *)

(** A property holds of the records a loop state holds: those pushed and
    the current one. *)
Definition held (P : DahParser.airspace -> Prop) (st : DahParser.state) : Prop :=
  Forall P (DahParser.airspaces st) /\
  forall a, DahParser.currentAirspace st = Some a -> P a.

(** The fields a title line fixes. *)
Definition titled_as (a b : DahParser.airspace) : Prop :=
  DahParser.id a = DahParser.id b /\
  DahParser.name a = DahParser.name b /\
  DahParser.locations a = DahParser.locations b /\
  DahParser.frequencies a = DahParser.frequencies b.

(** The record comes from a title line among [lines]. *)
Definition opened_by (lines : list string) (a : DahParser.airspace) : Prop :=
  exists line titleMatch,
    In line lines /\
    exec DahParser.titlePattern line = Some titleMatch /\
    titled_as a (DahParser.open_airspace titleMatch).

Definition numeric (b : DahParser.boundary) : Prop :=
  isNaN (DahParser.latitude b) = false /\ isNaN (DahParser.longitude b) = false.

(** The record with other boundaries. *)
Definition with_points (a : DahParser.airspace) (bs : list DahParser.boundary)
    : DahParser.airspace :=
  {| DahParser.id := DahParser.id a;
     DahParser.name := DahParser.name a;
     DahParser.locations := DahParser.locations a;
     DahParser.boundaries := bs;
     DahParser.upperLimit := DahParser.upperLimit a;
     DahParser.lowerLimit := DahParser.lowerLimit a;
     DahParser.controllingAuthority := DahParser.controllingAuthority a;
     DahParser.frequencies := DahParser.frequencies a;
     DahParser.hoursOfOperation := DahParser.hoursOfOperation a |}.

(** The direction letters that make a coordinate negative. *)
Definition south_or_west (direction : string) : bool :=
  String.eqb direction "S" || String.eqb direction "W".

(** What the sector converter needs of a parsed record, and gets from the
    PDF-text parser: a boundary, no frequency, and locations of four
    characters. *)
Definition parsed_shape (a : DahParser.airspace) : Prop :=
  DahParser.boundaries a <> [] /\
  DahParser.frequencies a = [] /\
  Forall (fun l => String.length l = 4) (DahParser.locations a).

(** The id a record gets in the sector file, and the number of points of
    each of its sectors. *)
Definition sector_id (a : DahParser.airspace) : string :=
  SectorConverter.or_text (DahParser.name a)
    (SectorConverter.or_text (DahParser.id a) "Unknown").

Definition sector_sizes (v : SectorConverter.vatAirspace) : list nat :=
  map (fun s => List.length (SectorConverter.points s)) (SectorConverter.sectors v).

(** *** Texts *)

(** No white space in front. *)
Definition starts_clean (s : string) : Prop :=
  match s with
  | String c _ => Text.is_space c = false
  | EmptyString => True
  end.

(** *** Digits in a text *)

(** The digits a text starts with, and the first run of digits of a
    text (empty when it has no digit). *)
Fixpoint leading_digits (s : string) : string :=
  match s with
  | String c s' => if Text.is_digit c then String c (leading_digits s') else ""
  | EmptyString => ""
  end.

Fixpoint first_digits (s : string) : string :=
  match s with
  | String c s' =>
      if Text.is_digit c then String c (leading_digits s') else first_digits s'
  | EmptyString => ""
  end.

(** What follows the digits a text starts with. *)
Fixpoint after_digits (s : string) : string :=
  match s with
  | String c s' => if Text.is_digit c then after_digits s' else s
  | EmptyString => ""
  end.

(** The outcome of a matcher that reads the first run of digits of [w] into
    group 1, when it finds a match. *)
Definition reads (w : string) (o : option mstate) : Prop :=
  match o with
  | None => True
  | Some out =>
      exists c ds, first_digits w = String c ds /\
                   lookup 1 (caps out) = Some (String c ds)
  end.

Definition starts_with_digit (w : string) : bool :=
  match w with
  | String c _ => Text.is_digit c
  | EmptyString => false
  end.

(** A continuation that reads the first run of digits where it succeeds,
    and succeeds in front of a digit. *)
Definition reader (k : mstate -> option mstate) : Prop :=
  forall st,
    reads (rest st) (k st) /\
    (starts_with_digit (rest st) = true -> k st <> None).

(** What the search for a reader finds in [s]. *)
Definition found_first_digits (s : string) (found : option rmatch) : Prop :=
  match found with
  | None => first_digits s = ""
  | Some m =>
      exists c ds, first_digits s = String c ds /\
                   group_text m 1 = String c ds
  end.

(** *** CSV texts without an id column *)

(** The headers [parseCSVFormat] reads from the first non-blank line, and
    the lines it takes as data rows. *)
Definition csv_headers (content : string) : list string :=
  map (fun h => Text.toLowerCase (Text.trim h))
      (Text.split "," (hd "" (filter Parser.non_blank (Text.lines content)))).

Definition csv_rows (content : string) : list string :=
  tl (filter Parser.non_blank (Text.lines content)).

(** A header that [mapColumnNames] takes for the id column. *)
Definition names_id (header : string) : bool :=
  Text.includes (Text.toLowerCase header) "airspace"
  && Text.includes (Text.toLowerCase header) "id".

(** The indices of the data rows that are kept, from index [i] on: those
    with as many fields as there are headers. *)
Fixpoint accepted_from (headers : list string) (i : nat) (lines : list string)
    : list nat :=
  match lines with
  | [] => []
  | line :: lines' =>
      if List.length (Parser.parseCSVLine line) =? List.length headers
      then i :: accepted_from headers (S i) lines'
      else accepted_from headers (S i) lines'
  end.

(** The id a row gets when its id cell is missing or empty. *)
Definition generated_id (i : nat) : string := "AIRSPACE_" ++ Text.of_nat i.

(** The number a decimal numeral writes, after the digits read so far. *)
Fixpoint numeral_value (acc : nat) (s : string) : nat :=
  match s with
  | EmptyString => acc
  | String c s' => numeral_value (10 * acc + (Text.code c - 48)) s'
  end.

(** *** Numbers as they are written *)

(** A text that starts as the pattern [-?\d+] does: a digit, or a minus
    sign and a digit. *)
Definition signed_numeral (g : string) : Prop :=
  exists c t, Text.is_digit c = true /\
              (g = String c t \/ g = String "-" (String c t)).

(** *** Patterns and the texts they match *)

(** A pattern that matches no empty text. *)
Fixpoint consuming (r : regex) : bool :=
  match r with
  | Class _ => true
  | Seq r1 r2 => consuming r1 || consuming r2
  | Alt r1 r2 => consuming r1 && consuming r2
  | Group _ r' => consuming r'
  | _ => false
  end.

(** A pattern whose starred and optional parts match no empty text, as
    those of the sources do: the matcher, which gives up an iteration that
    consumes nothing, then misses no match. *)
Fixpoint plain_loops (r : regex) : bool :=
  match r with
  | Seq r1 r2 | Alt r1 r2 => plain_loops r1 && plain_loops r2
  | Star _ r' | Opt _ r' => consuming r' && plain_loops r'
  | Group _ r' => plain_loops r'
  | _ => true
  end.

(** Some part of the text [s] matches the pattern [r]: there is a match
    that starts at an offset [i] of the text. *)
Definition occurs (r : regex) (s : string) : Prop :=
  exists i st',
    i <= String.length s /\
    matches r {| pos := i; rest := Text.drop i s; caps := [] |} st'.

(** *** Numerals at the front of a text *)

(** The text after its sign, if it has one. *)
Definition unsigned (t : string) : string :=
  match t with
  | String c u =>
      if Ascii.eqb c "+" || Ascii.eqb c "-" then u else t
  | EmptyString => t
  end.

(** The text starts with a decimal numeral: after an optional sign, a
    digit, or a dot and a digit, or the word Infinity. *)
Definition starts_with_numeral (t : string) : bool :=
  let u := unsigned t in
  Text.startsWith "Infinity" u
  || match u with
     | String c u' =>
         Text.is_digit c
         || (Ascii.eqb c "."
             && match u' with
                | String d _ => Text.is_digit d
                | EmptyString => false
                end)
     | EmptyString => false
     end.

(** A number that is positive or zero, the positive infinity included, and
    a number that is negative or zero, the negative infinity included;
    [NaN] is neither. *)
Definition not_negative (n : number) : Prop :=
  match n with
  | Fin q => (0 <= q)%Q
  | Inf negative => negative = false
  | NaN => False
  end.

Definition not_positive (n : number) : Prop :=
  match n with
  | Fin q => (q <= 0)%Q
  | Inf negative => negative = true
  | NaN => False
  end.

(** *** The generic parser *)

(** The point [parseGenericFormat] makes of a match of its pattern: each
    coordinate is what [parseCoordinate] reads in the number and the letter
    captured for it, and there is no sequence. *)
Definition point_of_match {R : Runtime} (m : rmatch) (b : Parser.boundary)
    : Prop :=
  Parser.parseCoordinate (VStr (group_text m 1 ++ group_text m 2))
  = Ok (Parser.latitude b) /\
  Parser.parseCoordinate (VStr (group_text m 3 ++ group_text m 4))
  = Ok (Parser.longitude b) /\
  Parser.sequence b = None.

End Notions.

(* ================================================================== *)
(** ** Further sample inputs *)

Module Examples.

Import Text.

(** A header line with the four usual columns and one data row. *)
Definition sydney_csv : string :=
  "Airspace ID,Name,Latitude,Longitude" ++ nl ++ "YSSY,Sydney,-33.9,151.2".

(** A [parsedData] with one airspace, one position without a callsign
    or a name, and one airport. *)
Definition parsed_file : Js.value :=
  Js.VObj
    [ ("airspaces", Js.VArr [ Samples.parsed_airspace ]);
      ("positions",
       Js.VArr [ Js.VObj [ ("id", Js.VStr "SY_TWR"); ("type", Js.VStr "twr") ] ]);
      ("airports",
       Js.VArr [ Js.VObj [ ("icao", Js.VStr "YSSY");
                           ("latitude", Js.VStr "-33.95");
                           ("longitude", Js.VStr "151.18") ] ]) ].

Definition sample_clock : Converter.clock :=
  {| Converter.generatedAt := "2024-01-01T00:00:00.000Z";
     Converter.airspace_entropy := fun _ => Samples.sample_entropy;
     Converter.position_entropy := fun _ => Samples.sample_entropy |}.

(** A file with an array of airspaces and a text where positions
    should be. *)
Definition ill_formed_file : Js.value :=
  Js.VObj [ ("airspace", Js.VArr []); ("positions", Js.VStr "none") ].

(** A JSON run-time for closed examples that reads the empty array only. *)
Definition sample_json : Parser.JsonRuntime :=
  {| Parser.JSON_parse :=
       fun content =>
         if String.eqb (trim content) "[]" then Ok (Js.VArr [])
         else Throw (Error "Unexpected token") |}.

(** Two points of one polygon, under a header without an airspace id. *)
Definition points_csv : string :=
  "id,latitude,longitude" ++ nl ++ "A,-33.5,151.2" ++ nl ++ "A,-33.6,151.3".

(** A point of the southern hemisphere, in decimal degrees. *)
Definition southern_point : string := "33.5 S 151.2 E".

End Examples.

(* ================================================================== *)
(** * Properties *)

Import Text Num Js Regex.

(** Inversion of a chain of binds that returned. *)
Ltac bind_inv H :=
  repeat match type of H with
  | bind ?m _ = Ok _ =>
      let E := fresh "E" in
      destruct m eqn:E; cbn [bind] in H; [|discriminate H]
  end.

(** ** Traversals in the result monad *)

Lemma mapM_Forall {A B} (f : A -> result B) (P : B -> Prop) :
  (forall x y, f x = Ok y -> P y) ->
  forall l out, mapM f l = Ok out -> Forall P out.
Proof.
  intros Hf. induction l as [|x l IH]; intros out H; cbn in H.
  - injection H as <-. constructor.
  - bind_inv H. injection H as <-. constructor; eauto.
Qed.

Lemma mapM_total {A B} (f : A -> result B) :
  (forall x, exists y, f x = Ok y) ->
  forall l, exists out, mapM f l = Ok out /\ List.length out = List.length l.
Proof.
  intros Hf. induction l as [|x l (out & IH & Hlen)]; cbn.
  - exists []. split; reflexivity.
  - destruct (Hf x) as (y & ->). cbn [bind]. rewrite IH. cbn [bind].
    eexists. split; [reflexivity|]. cbn. rewrite Hlen. reflexivity.
Qed.

(** ** Numerals *)

Lemma read_digits_count (val : ascii -> option Z) (radix : Z) (s : string)
    (acc : Z) (n : nat) :
  n <= snd (fst (read_digits val radix acc n s)).
Proof.
  revert acc n. induction s as [|c s IH]; intros acc n; cbn; [lia|].
  destruct (val c) as [d|]; cbn; [|lia].
  specialize (IH (acc * radix + d)%Z (S n)). lia.
Qed.

Lemma digit_not_space (c : ascii) : is_digit c = true -> is_space c = false.
Proof.
  unfold is_digit, is_space, between. intros H.
  apply andb_true_iff in H. destruct H as (H1 & H2).
  apply Nat.leb_le in H1, H2.
  repeat (apply orb_false_iff; split).
  - apply andb_false_iff. right. apply Nat.leb_gt. lia.
  - apply Nat.eqb_neq. lia.
  - apply Nat.eqb_neq. lia.
Qed.

Lemma trim_digit_first (c : ascii) (s : string) :
  is_digit c = true -> exists t, trim (String c s) = String c t.
Proof.
  intros H. unfold trim. cbn [trimStart]. rewrite (digit_not_space c H).
  cbn [trimEnd]. destruct (trimEnd s); rewrite ?(digit_not_space c H);
    eexists; reflexivity.
Qed.

Lemma digit_code (c : ascii) : is_digit c = true -> 48 <= code c <= 57.
Proof.
  unfold is_digit, between. intros H. apply andb_true_iff in H.
  destruct H as (H1 & H2). apply Nat.leb_le in H1, H2. lia.
Qed.

Lemma code_inj_ne (c : ascii) (n : nat) :
  n < 256 -> code c <> n -> Ascii.eqb c (chr n) = false.
Proof.
  intros Hn H. apply Ascii.eqb_neq. intros ->. apply H.
  unfold code, chr. apply nat_ascii_embedding. exact Hn.
Qed.

Lemma read_sign_digit (c : ascii) (s : string) :
  is_digit c = true -> read_sign (String c s) = (false, String c s).
Proof.
  intros H. pose proof (digit_code c H) as Hc. unfold read_sign.
  destruct c as [[] [] [] [] [] [] [] []]; try reflexivity; cbv in Hc; lia.
Qed.

(** A text that starts with a digit has a decimal prefix. *)
Lemma parseFloat_digit_first (c : ascii) (s : string) :
  is_digit c = true -> isNaN (Num.parseFloat (String c s)) = false.
Proof.
  intros H. pose proof (digit_code c H) as Hc.
  unfold Num.parseFloat. cbn [trimStart]. rewrite (digit_not_space c H).
  rewrite (read_sign_digit c _ H).
  assert (Hinf : startsWith "Infinity" (String c s) = false).
  { cbn [startsWith]. replace (Ascii.eqb "I" c) with false; [reflexivity|].
    symmetry. rewrite Ascii.eqb_sym. apply (code_inj_ne c 73); [lia|]. lia. }
  rewrite Hinf.
  pose proof (read_digits_count dec_val 10 s
                (0 * 10 + digit_val c)%Z 1) as Hcount.
  cbn [read_digits]. unfold dec_val at 1. rewrite H.
  destruct (read_digits dec_val 10 (0 * 10 + digit_val c) 1 s) as [[ip ni] s2].
  cbn [fst snd] in Hcount.
  destruct (match s2 with String "." s' => _ | _ => _ end) as [[fp nf] s3].
  destruct ni; [lia|]. reflexivity.
Qed.

Lemma every_digit_not_x (c : ascii) (d : string) :
  every is_digit (String c d) = true ->
  startsWith "0x" (String c d) = false /\ startsWith "0X" (String c d) = false.
Proof.
  cbn [every]. intros H. apply andb_true_iff in H. destruct H as (_ & Hd).
  cbn [startsWith]. destruct d as [|e d]; [rewrite !andb_false_r; auto|].
  cbn [every] in Hd. apply andb_true_iff in Hd. destruct Hd as (He & _).
  pose proof (digit_code e He) as Hcode.
  replace (Ascii.eqb "x" e) with false
    by (symmetry; rewrite Ascii.eqb_sym; apply (code_inj_ne e 120); lia).
  replace (Ascii.eqb "X" e) with false
    by (symmetry; rewrite Ascii.eqb_sym; apply (code_inj_ne e 88); lia).
  rewrite !andb_false_l, !andb_false_r. auto.
Qed.

(** A run of digits denotes an integer. *)
Lemma parseInt_digits (c : ascii) (d : string) :
  every is_digit (String c d) = true ->
  exists z, Num.parseInt (String c d) = of_Z z.
Proof.
  intros H. pose proof H as Hall. cbn [every] in H.
  apply andb_true_iff in H. destruct H as (Hc & _).
  destruct (every_digit_not_x c d Hall) as (Hx & HX).
  unfold Num.parseInt. cbn [trimStart]. rewrite (digit_not_space c Hc).
  rewrite (read_sign_digit c _ Hc), Hx, HX. cbn [orb].
  pose proof (read_digits_count dec_val 10 d (0 * 10 + digit_val c)%Z 1) as Hcount.
  cbn [read_digits]. unfold dec_val at 1. rewrite Hc.
  destruct (read_digits dec_val 10 (0 * 10 + digit_val c) 1 d) as [[v n] r].
  cbn [fst snd] in Hcount. destruct n; [lia|]. eexists. reflexivity.
Qed.

(** The DMS formula on numbers that are not [NaN]. *)
Lemma dms_value_not_NaN (a b : Z) (x : number) (flip : bool) :
  isNaN x = false ->
  isNaN (let decimal := add (add (of_Z a) (div_by (of_Z b) 60)) (div_by x 3600) in
         if flip then neg decimal else decimal) = false.
Proof. destruct x as [|[|]|q], flip; cbn; intros H; congruence. Qed.

(** ** Regular expressions *)

(** The matcher only returns matches. *)
Lemma run_sound (r : regex) :
  forall st k out,
    run r st k = Some out ->
    exists st', matches r st st' /\ k st' = Some out.
Proof.
  induction r as [|p|r1 IH1 r2 IH2|r1 IH1 r2 IH2|g r IH|g r IH|i r IH| |];
    intros st k out H; cbn [run] in H.
  - exists st. split; [constructor|exact H].
  - destruct (rest st) as [|c s'] eqn:Hrest; [discriminate H|].
    destruct (p c) eqn:Hp; [|discriminate H].
    eexists. split; [econstructor; eassumption|exact H].
  - apply IH1 in H. destruct H as (st1 & H1 & H).
    apply IH2 in H. destruct H as (st2 & H2 & H).
    exists st2. split; [econstructor; eassumption|exact H].
  - destruct (run r1 st k) as [o|] eqn:E1.
    + injection H as ->. apply IH1 in E1. destruct E1 as (st' & H1 & Hk).
      exists st'. split; [apply m_alt_l, H1|exact Hk].
    + apply IH2 in H. destruct H as (st' & H2 & Hk).
      exists st'. split; [apply m_alt_r, H2|exact Hk].
  - revert H. generalize (String.length (rest st)) as fuel. intros fuel.
    revert st out. induction fuel as [|fuel IHf]; intros st out H.
    + exists st. split; [constructor|exact H].
    + assert (Hagain : forall o,
                run r st (fun st' => if pos st <? pos st' then
                   (fix loop (fuel : nat) (st : mstate) {struct fuel} : option mstate :=
                      match fuel with
                      | O => k st
                      | S fuel' =>
                          let again (_ : unit) :=
                            run r st (fun st' =>
                              if pos st <? pos st' then loop fuel' st' else None) in
                          if g then
                            match again tt with Some out => Some out | None => k st end
                          else
                            match k st with Some out => Some out | None => again tt end
                      end) fuel st' else None) = Some o ->
                exists st', matches (Star g r) st st' /\ k st' = Some o).
      { intros o Ho. apply IH in Ho. destruct Ho as (st1 & H1 & Ho).
        destruct (pos st <? pos st1); [|discriminate Ho].
        apply IHf in Ho. destruct Ho as (st2 & H2 & Hk).
        exists st2. split; [econstructor; eassumption|exact Hk]. }
      cbv zeta in H. destruct g.
      * match type of H with
        | match ?a with _ => _ end = _ => destruct a as [o|] eqn:Ea
        end.
        -- injection H as ->. exact (Hagain out eq_refl).
        -- exists st. split; [constructor|exact H].
      * destruct (k st) as [o|] eqn:Ek.
        -- injection H as ->. exists st. split; [constructor|exact Ek].
        -- apply Hagain, H.
  - cbv zeta in H. destruct g.
    + match type of H with
      | match ?a with _ => _ end = _ => destruct a as [o|] eqn:Ea
      end.
      * injection H as ->. apply IH in Ea. destruct Ea as (st1 & H1 & Ho).
        destruct (pos st <? pos st1); [|discriminate Ho].
        exists st1. split; [apply m_opt_take, H1|exact Ho].
      * exists st. split; [constructor|exact H].
    + destruct (k st) as [o|] eqn:Ek.
      * injection H as ->. exists st. split; [constructor|exact Ek].
      * apply IH in H. destruct H as (st1 & H1 & Ho).
        destruct (pos st <? pos st1); [|discriminate Ho].
        exists st1. split; [apply m_opt_take, H1|exact Ho].
  - apply IH in H. destruct H as (st1 & H1 & Hk).
    eexists. split; [apply m_group, H1|exact Hk].
  - destruct (pos st =? 0) eqn:E; [|discriminate H].
    exists st. split; [constructor; apply Nat.eqb_eq, E|exact H].
  - destruct (rest st) eqn:E; [|discriminate H].
    exists st. split; [constructor; exact E|exact H].
Qed.

Lemma search_from_sound (r : regex) (s : string) :
  forall i m,
    search_from r i s = Some m ->
    exists st0 st',
      caps st0 = [] /\ matches r st0 st' /\ groups m = caps st'.
Proof.
  induction s as [|c s IH]; intros i m H; cbn [search_from] in H.
  - destruct (run r _ Some) as [st|] eqn:E; [|discriminate H].
    injection H as <-. apply run_sound in E. destruct E as (st' & Hm & [= <-]).
    eexists _, st'. split; [|split; [exact Hm|reflexivity]]. reflexivity.
  - destruct (run r _ Some) as [st|] eqn:E.
    + injection H as <-. apply run_sound in E. destruct E as (st' & Hm & [= <-]).
      eexists _, st'. split; [|split; [exact Hm|reflexivity]]. reflexivity.
    + exact (IH _ _ H).
Qed.

Lemma matches_pos (r : regex) (st st' : mstate) :
  matches r st st' -> pos st <= pos st'.
Proof. induction 1; cbn; lia. Qed.

(** A pattern leaves the captures of the groups it does not contain. *)
Lemma matches_caps (r : regex) (st st' : mstate) :
  matches r st st' ->
  forall j, ~ In j (group_ids r) -> lookup j (caps st') = lookup j (caps st).
Proof.
  induction 1; intros j Hj; cbn [group_ids caps] in *; try reflexivity.
  - rewrite IHmatches2, IHmatches1; [reflexivity| |];
      intros Hin; apply Hj, in_or_app; auto.
  - apply IHmatches. intros Hin. apply Hj, in_or_app. auto.
  - apply IHmatches. intros Hin. apply Hj, in_or_app. auto.
  - rewrite IHmatches2, IHmatches1; auto.
  - auto.
  - cbn [lookup]. destruct (Nat.eqb_spec j i) as [->|Hne].
    + exfalso. apply Hj. left. reflexivity.
    + apply IHmatches. intros Hin. apply Hj. right. exact Hin.
Qed.

Lemma matches_class_inv (p : ascii -> bool) (st st' : mstate) :
  matches (Class p) st st' ->
  exists c s', rest st = String c s' /\ p c = true /\
               st' = {| pos := S (pos st); rest := s'; caps := caps st |}.
Proof. inversion 1; subst. eexists _, _. repeat split; eassumption. Qed.

Lemma matches_seq_inv (r1 r2 : regex) (st st' : mstate) :
  matches (Seq r1 r2) st st' ->
  exists st1, matches r1 st st1 /\ matches r2 st1 st'.
Proof. inversion 1; subst. eexists. split; eassumption. Qed.

Lemma matches_group_inv (i : nat) (r : regex) (st st' : mstate) :
  matches (Group i r) st st' ->
  exists st1, matches r st st1 /\
              st' = {| pos := pos st1; rest := rest st1;
                       caps := (i, Text.take (pos st1 - pos st) (rest st)) :: caps st1 |}.
Proof. inversion 1; subst. eexists. split; [eassumption|reflexivity]. Qed.

(** What a starred class consumes. *)
Lemma matches_star_class (g : bool) (p : ascii -> bool) (st st' : mstate) :
  matches (Star g (Class p)) st st' ->
  exists d, every p d = true /\ rest st = d ++ rest st' /\
            pos st' = pos st + String.length d /\ caps st' = caps st.
Proof.
  intros H. remember (Star g (Class p)) as r eqn:Hr.
  induction H; try discriminate Hr.
  - exists "". repeat split; cbn; try reflexivity; lia.
  - injection Hr as -> ->.
    destruct (IHmatches2 eq_refl) as (d & Hd & Hrest & Hpos & Hcaps).
    apply matches_class_inv in H. destruct H as (c & s' & Hst & Hc & ->).
    cbn [rest pos caps] in *.
    exists (String c d). cbn. rewrite Hc, Hd, Hst, Hrest.
    repeat split; try reflexivity; try lia; assumption.
Qed.

Lemma matches_plus_class (p : ascii -> bool) (st st' : mstate) :
  matches (plus (Class p)) st st' ->
  exists c d, p c = true /\ every p d = true /\ rest st = String c d ++ rest st' /\
              pos st' = pos st + S (String.length d) /\ caps st' = caps st.
Proof.
  unfold plus. intros H.
  apply matches_seq_inv in H. destruct H as (st1 & H1 & H2).
  apply matches_class_inv in H1. destruct H1 as (c & s' & Hst & Hc & ->).
  apply matches_star_class in H2.
  destruct H2 as (d & Hd & Hrest & Hpos & Hcaps). cbn [rest pos caps] in *.
  exists c, d. cbn. rewrite Hst, Hrest.
  repeat split; try reflexivity; try lia; assumption.
Qed.

Lemma take_app_length (d s : string) : Text.take (String.length d) (d ++ s) = d.
Proof.
  induction d as [|c d IH]; cbn; [destruct s; reflexivity|].
  rewrite IH. reflexivity.
Qed.

(** The capture of a group around a run of a class: the run. *)
Lemma matches_group_plus (i : nat) (p : ascii -> bool) (st st' : mstate) :
  matches (Group i (plus (Class p))) st st' ->
  exists c d, p c = true /\ every p d = true /\
              caps st' = (i, String c d) :: caps st.
Proof.
  intros H. apply matches_group_inv in H. destruct H as (st1 & H & ->).
  apply matches_plus_class in H.
  destruct H as (c & d & Hc & Hd & Hrest & Hpos & Hcaps).
  exists c, d. split; [exact Hc|]. split; [exact Hd|].
  cbn [caps]. rewrite Hcaps, Hrest, Hpos.
  replace (pos st + S (String.length d) - pos st) with (String.length (String c d))
    by (cbn; lia).
  rewrite take_app_length. reflexivity.
Qed.

(** The captures of the DMS pattern of [parseCoordinate]: two runs of
    digits and a text that starts with a digit. *)
Lemma dmsPattern_captures (s : string) (m : rmatch) :
  exec Parser.dmsPattern s = Some m ->
  exists c1 d1 c2 d2 c3 t3,
    every is_digit (String c1 d1) = true /\
    every is_digit (String c2 d2) = true /\
    is_digit c3 = true /\
    group m 1 = Some (String c1 d1) /\
    group m 2 = Some (String c2 d2) /\
    group m 3 = Some (String c3 t3).
Proof.
  intros H. apply search_from_sound in H.
  destruct H as (st0 & st' & Hcaps0 & H & Hgroups).
  unfold group. rewrite Hgroups. unfold Parser.dmsPattern in H.
  apply matches_seq_inv in H. destruct H as (s1 & H1 & T1).
  pose proof (matches_caps _ _ _ T1 1) as K1.
  apply matches_seq_inv in T1. destruct T1 as (s2 & H2 & T2).
  apply matches_seq_inv in T2. destruct T2 as (s3 & H3 & T3).
  pose proof (matches_caps _ _ _ T3 2) as K2.
  apply matches_seq_inv in T3. destruct T3 as (s4 & H4 & T4).
  apply matches_seq_inv in T4. destruct T4 as (s5 & H5 & T5).
  pose proof (matches_caps _ _ _ T5 3) as K3.
  apply matches_group_plus in H1. destruct H1 as (c1 & d1 & Hc1 & Hd1 & E1).
  apply matches_group_plus in H3. destruct H3 as (c2 & d2 & Hc2 & Hd2 & E2).
  apply matches_group_inv in H5. destruct H5 as (sb & H5 & ->).
  apply matches_seq_inv in H5. destruct H5 as (sm & H5 & T6).
  apply matches_plus_class in H5.
  destruct H5 as (c3 & d3 & Hc3 & Hd3 & Hrest3 & Hpos3 & _).
  apply matches_pos in T6.
  exists c1, d1, c2, d2, c3, (Text.take (pos sb - pos s4 - 1) (d3 ++ rest sm)).
  split; [cbn; rewrite Hc1, Hd1; reflexivity|].
  split; [cbn; rewrite Hc2, Hd2; reflexivity|].
  split; [exact Hc3|].
  split; [|split].
  - rewrite K1 by (cbn; intuition discriminate). rewrite E1. reflexivity.
  - rewrite K2 by (cbn; intuition discriminate). rewrite E2. reflexivity.
  - rewrite K3 by (cbn; intuition discriminate). cbn [caps lookup Nat.eqb].
    rewrite Hrest3.
    destruct (pos sb - pos s4) as [|n] eqn:En; [lia|].
    cbn [append Text.take Nat.sub]. rewrite Nat.sub_0_r. reflexivity.
Qed.

(** ** Dictionaries *)

Lemma own_set_same {V} (d : Dict.dict V) (k : string) (v : V) :
  Dict.own (Dict.set d k v) k = Some v.
Proof.
  induction d as [|[k' v'] d IH]; cbn.
  - rewrite String.eqb_refl. reflexivity.
  - destruct (String.eqb k k') eqn:E; cbn; rewrite E; [reflexivity|exact IH].
Qed.

Lemma own_set_other {V} (d : Dict.dict V) (k k' : string) (v : V) :
  k' <> k -> Dict.own (Dict.set d k v) k' = Dict.own d k'.
Proof.
  intros Hne. induction d as [|[k0 v0] d IH]; cbn.
  - destruct (String.eqb_spec k' k); [contradiction|reflexivity].
  - destruct (String.eqb_spec k k0) as [->|Hk]; cbn.
    + destruct (String.eqb_spec k' k0); [contradiction|reflexivity].
    + destruct (String.eqb k' k0); [reflexivity|exact IH].
Qed.

Lemma set_set {V} (d : Dict.dict V) (k : string) (v v' : V) :
  Dict.set (Dict.set d k v) k v' = Dict.set d k v'.
Proof.
  induction d as [|[k0 v0] d IH]; cbn.
  - rewrite String.eqb_refl. reflexivity.
  - destruct (String.eqb k k0) eqn:E; cbn; rewrite E; [reflexivity|].
    rewrite IH. reflexivity.
Qed.

Lemma keys_set {V} (d : Dict.dict V) (k : string) (v : V) :
  map fst (Dict.set d k v) =
    match Dict.own d k with
    | Some _ => map fst d
    | None => (map fst d ++ [k])%list
    end.
Proof.
  induction d as [|[k0 v0] d IH]; cbn; [reflexivity|].
  destruct (String.eqb_spec k k0) as [->|Hk]; cbn; [reflexivity|].
  rewrite IH. destruct (Dict.own d k); reflexivity.
Qed.

Lemma own_in {V} (d : Dict.dict V) (k : string) (v : V) :
  Dict.own d k = Some v -> In (k, v) d.
Proof.
  induction d as [|[k0 v0] d IH]; cbn; [discriminate|].
  destruct (String.eqb_spec k k0) as [->|Hk].
  - intros [= ->]. left. reflexivity.
  - intros H. right. exact (IH H).
Qed.

Lemma own_none_notin {V} (d : Dict.dict V) (k : string) :
  Dict.own d k = None -> ~ In k (map fst d).
Proof.
  induction d as [|[k0 v0] d IH]; cbn; [tauto|].
  destruct (String.eqb_spec k k0) as [->|Hk]; [discriminate|].
  intros H [E|Hin]; [congruence|exact (IH H Hin)].
Qed.

Lemma in_own {V} (d : Dict.dict V) (k : string) (v : V) :
  NoDup (map fst d) -> In (k, v) d -> Dict.own d k = Some v.
Proof.
  induction d as [|[k0 v0] d IH]; cbn; [tauto|].
  intros Hnd [E|Hin].
  - injection E as -> ->. rewrite String.eqb_refl. reflexivity.
  - inversion Hnd as [|? ? Hnotin Hnd']; subst.
    destruct (String.eqb_spec k k0) as [->|Hk].
    + exfalso. apply Hnotin. apply (in_map fst) in Hin. exact Hin.
    + exact (IH Hnd' Hin).
Qed.

Lemma insert_by_index_perm {V} (i : Z) (v : V) (l : list (Z * V)) :
  Permutation (Dict.insert_by_index i v l) ((i, v) :: l).
Proof.
  induction l as [|[j w] l IH]; cbn; [reflexivity|].
  destruct (i <? j)%Z; [reflexivity|].
  rewrite IH. apply perm_swap.
Qed.

Lemma values_perm {V} (d : Dict.dict V) :
  Permutation (Dict.values d) (map snd d).
Proof.
  unfold Dict.values. induction d as [|[k v] d IH]; cbn; [reflexivity|].
  destruct (Dict.array_index k) as [i|].
  - rewrite (Permutation_map snd (insert_by_index_perm i v (Dict.indexed d))).
    cbn. constructor. exact IH.
  - rewrite <- Permutation_middle. constructor. exact IH.
Qed.

(** ** The sort *)

Section Sort.
Context {A : Type} (cmp : A -> A -> number).

Lemma sort_insert_perm (a : A) (l : list A) :
  Permutation (Parser.sort_insert cmp a l) (a :: l).
Proof.
  induction l as [|b l IH]; cbn; [reflexivity|].
  destruct (gt (cmp a b) (of_Z 0)); [|reflexivity].
  rewrite IH. apply perm_swap.
Qed.

Lemma sort_perm (l : list A) : Permutation (Parser.sort cmp l) l.
Proof.
  induction l as [|a l IH]; cbn; [reflexivity|].
  rewrite sort_insert_perm. constructor. exact IH.
Qed.

(** Elements that the comparator never orders strictly keep their relative
    order. *)
Lemma filter_sort_insert (p : A -> bool) (a : A) (l : list A) :
  (forall b, p a = true -> p b = true -> gt (cmp a b) (of_Z 0) = false) ->
  filter p (Parser.sort_insert cmp a l) = filter p (a :: l).
Proof.
  intros Hp. induction l as [|b l IH]; cbn [Parser.sort_insert]; [reflexivity|].
  destruct (gt (cmp a b) (of_Z 0)) eqn:Hgt; [|reflexivity].
  cbn [filter] in *. rewrite IH.
  destruct (p a) eqn:Ha; [|reflexivity].
  destruct (p b) eqn:Hb; [|reflexivity].
  rewrite (Hp b eq_refl Hb) in Hgt. discriminate Hgt.
Qed.

Lemma sort_stable (p : A -> bool) (l : list A) :
  (forall a b, p a = true -> p b = true -> gt (cmp a b) (of_Z 0) = false) ->
  filter p (Parser.sort cmp l) = filter p l.
Proof.
  intros Hp. induction l as [|a l IH]; cbn [Parser.sort]; [reflexivity|].
  rewrite filter_sort_insert by (intros b; apply Hp).
  cbn [filter]. rewrite IH. reflexivity.
Qed.

Hypothesis cmp_total :
  forall a b, gt (cmp a b) (of_Z 0) = true -> Parser.may_precede cmp b a.
Hypothesis cmp_trans :
  forall a b c, Parser.may_precede cmp a b -> Parser.may_precede cmp b c ->
                Parser.may_precede cmp a c.

Lemma sort_insert_sorted (a : A) (l : list A) :
  StronglySorted (Parser.may_precede cmp) l ->
  StronglySorted (Parser.may_precede cmp) (Parser.sort_insert cmp a l).
Proof.
  induction 1 as [|b l Hl IH Hb]; cbn [Parser.sort_insert].
  - repeat constructor.
  - destruct (gt (cmp a b) (of_Z 0)) eqn:Hgt.
    + constructor; [exact IH|].
      rewrite Forall_forall. intros x Hx.
      apply (Permutation_in _ (sort_insert_perm a l)) in Hx.
      destruct Hx as [<-|Hx]; [exact (cmp_total _ _ Hgt)|].
      rewrite Forall_forall in Hb. exact (Hb x Hx).
    + constructor; [constructor; assumption|].
      constructor; [exact Hgt|].
      rewrite Forall_forall in *. intros x Hx.
      exact (cmp_trans _ _ _ Hgt (Hb x Hx)).
Qed.

Lemma sort_sorted (l : list A) :
  StronglySorted (Parser.may_precede cmp) (Parser.sort cmp l).
Proof.
  induction l as [|a l IH]; cbn [Parser.sort]; [constructor|].
  apply sort_insert_sorted, IH.
Qed.

End Sort.

(** ** The comparator by sequence *)

Section BySequence.

Import Parser.

Lemma sequence_or_zero_not_NaN (b : boundary) : sequence_or_zero b <> NaN.
Proof.
  unfold sequence_or_zero. destruct (sequence b) as [n|]; [|discriminate].
  destruct n; cbn; try discriminate.
  destruct (negb (Qeq_bool q 0)); discriminate.
Qed.

Lemma gt_sub_key_le (x y : number) :
  x <> NaN -> y <> NaN ->
  (gt (sub x y) (of_Z 0) = false <-> key_le x y).
Proof.
  intros Hx Hy.
  destruct x as [|s|p]; [contradiction| |]; destruct y as [|t|q]; try contradiction.
  - destruct s, t; cbn; split; intros H; try reflexivity; try exact I;
      try discriminate H; try contradiction H.
  - destruct s; cbn; split; intros H; try reflexivity; try exact I;
      try discriminate H; try contradiction H.
  - destruct t; cbn; split; intros H; try reflexivity; try exact I;
      try discriminate H; try contradiction H.
  - unfold sub, neg, add, gt, of_Z.
    rewrite negb_false_iff, Qle_bool_iff, !Qred_correct.
    change (inject_Z 0) with 0%Q. cbn [key_le]. lra.
Qed.

Lemma key_le_total (x y : number) : key_le x y \/ key_le y x.
Proof.
  destruct x as [|[|]|p], y as [|[|]|q]; cbn; auto.
  destruct (Qlt_le_dec p q) as [H|H]; [left; apply Qlt_le_weak, H|right; exact H].
Qed.

Lemma key_le_trans (x y z : number) :
  y <> NaN -> key_le x y -> key_le y z -> key_le x z.
Proof.
  destruct x as [|[|]|p], y as [|[|]|q], z as [|[|]|r]; cbn; intros Hy H1 H2;
    try exact I; try contradiction.
  exact (Qle_trans _ _ _ H1 H2).
Qed.

Lemma by_sequence_total (a b : boundary) :
  gt (by_sequence a b) (of_Z 0) = true -> may_precede by_sequence b a.
Proof.
  unfold may_precede, by_sequence. intros H.
  apply gt_sub_key_le; try apply sequence_or_zero_not_NaN.
  destruct (key_le_total (sequence_or_zero b) (sequence_or_zero a)) as [Hle|Hle];
    [exact Hle|].
  apply gt_sub_key_le in Hle; try apply sequence_or_zero_not_NaN. congruence.
Qed.

Lemma by_sequence_trans (a b c : boundary) :
  may_precede by_sequence a b -> may_precede by_sequence b c ->
  may_precede by_sequence a c.
Proof.
  unfold may_precede, by_sequence. intros H1 H2.
  apply gt_sub_key_le in H1; try apply sequence_or_zero_not_NaN.
  apply gt_sub_key_le in H2; try apply sequence_or_zero_not_NaN.
  apply gt_sub_key_le; try apply sequence_or_zero_not_NaN.
  exact (key_le_trans _ _ _ (sequence_or_zero_not_NaN b) H1 H2).
Qed.

(** Points with the same sequence are never ordered strictly. *)
Lemma key_le_eqb (x y k : number) :
  Num.eqb x k = true -> Num.eqb y k = true -> key_le x y.
Proof.
  destruct x as [|s|p], y as [|t|q], k as [|u|r]; cbn; intros H1 H2;
    try discriminate; try exact I.
  - apply Bool.eqb_prop in H1, H2. subst. destruct u; exact I.
  - apply Qeq_bool_iff in H1, H2. rewrite H1, H2. apply Qle_refl.
Qed.

Lemma same_sequence_tied (k : number) (a b : boundary) :
  same_sequence k a = true -> same_sequence k b = true ->
  gt (by_sequence a b) (of_Z 0) = false.
Proof.
  unfold same_sequence, by_sequence. intros Ha Hb.
  apply gt_sub_key_le; try apply sequence_or_zero_not_NaN.
  exact (key_le_eqb _ _ k Ha Hb).
Qed.

(** X8.  The boundaries after the sort by sequence: the same points, in
    ascending sequence (a missing or zero sequence counting as 0), the
    points of one sequence in their original order. *)
Theorem sort_by_sequence (l : list boundary) :
  Permutation (sort by_sequence l) l /\
  StronglySorted (may_precede by_sequence) (sort by_sequence l) /\
  forall k, filter (same_sequence k) (sort by_sequence l)
            = filter (same_sequence k) l.
Proof.
  split; [apply sort_perm|]. split.
  - apply sort_sorted; [exact by_sequence_total|exact by_sequence_trans].
  - intros k. apply sort_stable. intros a b. apply same_sequence_tied.
Qed.

End BySequence.

(** ** The format detector *)

(** C3, the sample that fails.  The text [VERTICAL LIMITS: FL100 - FL200]
    contains that phrase and has no CSV header (it is one line), and
    [detectFileFormat] answers [generic], not [structured_text]. *)
Lemma detectFileFormat_vertical_limits_generic :
  Text.includes Samples.vertical_limits "VERTICAL LIMITS: FL100 - FL200" = true /\
  List.length (Text.lines Samples.vertical_limits) = 1 /\
  Parser.detectFileFormat Samples.vertical_limits = Parser.generic /\
  Parser.detectFileFormat Samples.vertical_limits <> Parser.structured_text.
Proof.
  repeat split; try (vm_compute; reflexivity).
  vm_compute. discriminate.
Qed.

(** The detector follows the four rules, on every text. *)
Lemma detectFileFormat_rules (content : string) :
  Parser.detectFileFormat content = DetectorRules.detect content.
Proof.
  unfold Parser.detectFileFormat, DetectorRules.detect, DetectorRules.is_json,
    DetectorRules.has_csv_header, DetectorRules.has_marker.
  assert (Hjson : (Text.startsWith "{" (Text.trim content)
                   || Text.startsWith "[" (Text.trim content))
                  = match Text.trim content with
                    | String c _ => Ascii.eqb c "{" || Ascii.eqb c "["
                    | EmptyString => false
                    end).
  { destruct (Text.trim content) as [|c t]; [reflexivity|].
    cbn [Text.startsWith]. rewrite !andb_true_r.
    rewrite (Ascii.eqb_sym "{" c), (Ascii.eqb_sym "[" c). reflexivity. }
  rewrite Hjson. clear Hjson.
  assert (Hcsv : (1 <? List.length (Text.lines content))
                 && Text.includes (hd "" (Text.lines content)) ","
                 && (Text.includes (Text.toLowerCase (hd "" (Text.lines content)))
                       "airspace"
                     || Text.includes (Text.toLowerCase (hd "" (Text.lines content)))
                          "latitude"
                     || Text.includes (Text.toLowerCase (hd "" (Text.lines content)))
                          "name")
                 = match Text.lines content with
                   | first :: _ :: _ =>
                       Text.includes first ","
                       && existsb (Text.includes (Text.toLowerCase first))
                            ["airspace"; "latitude"; "name"]
                   | _ => false
                   end).
  { destruct (Text.lines content) as [|l1 [|l2 ls]]; [reflexivity|reflexivity|].
    cbn [List.length hd existsb]. rewrite orb_false_r, orb_assoc. reflexivity. }
  cbv zeta. rewrite Hcsv. clear Hcsv.
  cbn [existsb]. rewrite orb_false_r, !orb_assoc.
  destruct (Text.trim content) as [|c t]; reflexivity.
Qed.

(** C3, amended.  [detectFileFormat] answers CSV for [id,name] / [A1,Foo],
    JSON for [[1,2,3]] and GENERIC for [hello world].  On every text it
    follows the four rules of the detector; so a text that is not JSON (its
    trimmed form does not start with a brace or a bracket, or it does not
    parse) and has no CSV header (it has one line, or no comma in its first
    line, or none of the three header words there) is STRUCTURED_TEXT when
    it contains one of AIRSPACE, Airspace, UPPER LIMIT, LOWER LIMIT and
    GENERIC otherwise, whether or not it contains
    [VERTICAL LIMITS: FL100 - FL200]. *)
Theorem detectFileFormat_samples :
  Parser.detectFileFormat Samples.two_line_csv = Parser.csv /\
  Parser.detectFileFormat "[1,2,3]" = Parser.json /\
  Parser.detectFileFormat "hello world" = Parser.generic /\
  (forall content,
     Parser.detectFileFormat content = DetectorRules.detect content) /\
  forall content,
    DetectorRules.is_json content = false ->
    DetectorRules.has_csv_header content = false ->
    (Parser.detectFileFormat content = Parser.structured_text <->
     ( Text.includes content "AIRSPACE" = true \/
       Text.includes content "Airspace" = true \/
       Text.includes content "UPPER LIMIT" = true \/
       Text.includes content "LOWER LIMIT" = true )) /\
    (Parser.detectFileFormat content = Parser.generic <->
     ( Text.includes content "AIRSPACE" = false /\
       Text.includes content "Airspace" = false /\
       Text.includes content "UPPER LIMIT" = false /\
       Text.includes content "LOWER LIMIT" = false )).
Proof.
  split; [vm_compute; reflexivity|].
  split; [vm_compute; reflexivity|].
  split; [vm_compute; reflexivity|].
  split; [exact detectFileFormat_rules|].
  intros content Hj Hc.
  rewrite (detectFileFormat_rules content).
  unfold DetectorRules.detect. rewrite Hj, Hc.
  unfold DetectorRules.has_marker. cbn [existsb].
  destruct (Text.includes content "AIRSPACE"),
           (Text.includes content "Airspace"),
           (Text.includes content "UPPER LIMIT"),
           (Text.includes content "LOWER LIMIT"); cbn;
    (split; split; intros H; try discriminate; try reflexivity; auto;
     try (destruct H as [H|[H|[H|H]]]; discriminate);
     try (destruct H as (H1 & H2 & H3 & H4); discriminate)).
Qed.

(** The amended statement at three one-line inputs: the bare
    vertical-limits line, the same line behind the word AIRSPACE, and a
    text that starts with a brace without being JSON. *)
Lemma detectFileFormat_samples_witness :
  Parser.detectFileFormat Samples.vertical_limits = Parser.generic /\
  Parser.detectFileFormat ("AIRSPACE " ++ Samples.vertical_limits)
    = Parser.structured_text /\
  Parser.detectFileFormat "{AIRSPACE" = Parser.structured_text.
Proof.
  destruct detectFileFormat_samples as (_ & _ & _ & _ & H).
  split; [|split].
  - apply (H Samples.vertical_limits);
      [vm_compute; reflexivity | vm_compute; reflexivity |].
    repeat split; vm_compute; reflexivity.
  - apply (H ("AIRSPACE " ++ Samples.vertical_limits));
      [vm_compute; reflexivity | vm_compute; reflexivity |].
    left. vm_compute. reflexivity.
  - apply (H "{AIRSPACE");
      [vm_compute; reflexivity | vm_compute; reflexivity |].
    left. vm_compute. reflexivity.
Defined.

(** ** The post-pass of the CSV parser *)

Section Grouping.

Import Parser.

Lemma merge_step_returns (d : Dict.dict airspace) (a : airspace) :
  Dict.is_inherited (id a) = false ->
  merge_step d a = Ok (Dict.set d (id a) (grown d a)).
Proof.
  intros Hid. unfold merge_step, grown, Dict.get.
  destruct (Dict.own d (id a)) as [g|] eqn:Hown.
  - rewrite Hown. reflexivity.
  - rewrite Hid. rewrite own_set_same. rewrite set_set. reflexivity.
Qed.

Lemma merge_step_throws (d : Dict.dict airspace) (a : airspace) :
  keys_not_inherited d ->
  Dict.is_inherited (id a) = true ->
  merge_step d a = Throw (cannot_read "push").
Proof.
  intros Hd Hid.
  assert (Hget : Dict.get d (id a) = Dict.Inherited).
  { unfold Dict.get. destruct (Dict.own d (id a)) as [g|] eqn:Hown.
    - assert (H : Dict.is_inherited (id a) = false) by (apply Hd; congruence).
      congruence.
    - rewrite Hid. reflexivity. }
  unfold merge_step. rewrite Hget. rewrite Hget. reflexivity.
Qed.

Lemma keys_not_inherited_set (d : Dict.dict airspace) (k : string) (v : airspace) :
  keys_not_inherited d -> Dict.is_inherited k = false ->
  keys_not_inherited (Dict.set d k v).
Proof.
  intros Hd Hk k' Hown.
  destruct (String.eqb_spec k' k) as [->|Hne]; [exact Hk|].
  rewrite own_set_other in Hown by exact Hne. exact (Hd k' Hown).
Qed.

(** The pass returns exactly when no id is a name that [grouped] inherits. *)
Lemma merge_all_returns_iff (l : list airspace) (d : Dict.dict airspace) :
  keys_not_inherited d ->
  (exists d', merge_all d l = Ok d') <->
  (forall a, In a l -> Dict.is_inherited (id a) = false).
Proof.
  revert d. induction l as [|a l IH]; intros d Hd; cbn [merge_all In].
  - split; [intros _ a []|intros _; eexists; reflexivity].
  - destruct (Dict.is_inherited (id a)) eqn:Hid.
    + rewrite (merge_step_throws d a Hd Hid). cbn [bind]. split.
      * intros (d' & H). discriminate H.
      * intros H. specialize (H a (or_introl eq_refl)). congruence.
    + rewrite (merge_step_returns d a Hid). cbn [bind].
      rewrite (IH _ (keys_not_inherited_set d (id a) _ Hd Hid)). split.
      * intros H b [<-|Hb]; [exact Hid|exact (H b Hb)].
      * intros H b Hb. apply H. right. exact Hb.
Qed.

Lemma merge_all_groups (l : list airspace) (d d' : Dict.dict airspace) :
  merge_all d l = Ok d' ->
  (forall a, In a l -> Dict.is_inherited (id a) = false) ->
  forall k, Dict.own d' k = group_after d l k.
Proof.
  revert d. induction l as [|a l IH]; intros d H Hl k; cbn in H.
  - injection H as <-. reflexivity.
  - rewrite (merge_step_returns d a (Hl a (or_introl eq_refl))) in H.
    cbn [bind] in H.
    rewrite (IH _ H (fun b Hb => Hl b (or_intror Hb)) k).
    unfold group_after. cbn [filter]. unfold has_id at 2.
    destruct (String.eqb_spec (id a) k) as [<-|Hne].
    + rewrite own_set_same. unfold grown.
      destruct (filter (has_id (id a)) l) as [|r rs];
        destruct (Dict.own d (id a)) as [g|]; cbn [flat_map with_boundaries boundaries id name type upperLimit lowerLimit conditional];
        rewrite ?app_nil_r, ?app_assoc; reflexivity.
    + rewrite own_set_other by congruence. reflexivity.
Qed.

Lemma merge_all_keys (l : list airspace) (d d' : Dict.dict airspace) :
  merge_all d l = Ok d' ->
  (forall a, In a l -> Dict.is_inherited (id a) = false) ->
  NoDup (map fst d) -> NoDup (map fst d').
Proof.
  revert d. induction l as [|a l IH]; intros d H Hl Hnd; cbn in H.
  - injection H as <-. exact Hnd.
  - rewrite (merge_step_returns d a (Hl a (or_introl eq_refl))) in H.
    cbn [bind] in H.
    apply (IH _ H (fun b Hb => Hl b (or_intror Hb))).
    rewrite keys_set. destruct (Dict.own d (id a)) eqn:Hown; [exact Hnd|].
    apply NoDup_app; [exact Hnd| repeat constructor; intros [] |].
    intros x Hx [E|[]]. subst x. exact (own_none_notin d _ Hown Hx).
Qed.

Lemma filter_head {A} (p : A -> bool) (l : list A) (r : A) (rs : list A) :
  filter p l = r :: rs -> p r = true.
Proof.
  intros H. assert (Hin : In r (filter p l)) by (rewrite H; left; reflexivity).
  apply filter_In in Hin. exact (proj2 Hin).
Qed.

Lemma group_after_empty (l : list airspace) (k : string) (g : airspace) :
  group_after Dict.empty l k = Some g <->
  exists r rs, filter (has_id k) l = r :: rs /\
               g = with_boundaries r (flat_map boundaries (r :: rs)).
Proof.
  unfold group_after. cbn [Dict.own Dict.empty].
  destruct (filter (has_id k) l) as [|r rs]; split.
  - discriminate.
  - intros (r & rs & H & _). discriminate H.
  - intros [= <-]. exists r, rs. split; reflexivity.
  - intros (r' & rs' & [= <- <-] & ->). reflexivity.
Qed.

Lemma group_after_id (l : list airspace) (k : string) (g : airspace) :
  group_after Dict.empty l k = Some g -> id g = k.
Proof.
  intros H. apply group_after_empty in H. destruct H as (r & rs & Hf & ->).
  apply filter_head in Hf. unfold has_id in Hf.
  apply String.eqb_eq in Hf. exact Hf.
Qed.

Lemma map_id_values (d : Dict.dict airspace) :
  (forall k g, In (k, g) d -> id g = k) ->
  map id (map snd d) = map fst d.
Proof.
  induction d as [|[k g] d IH]; intros H; cbn; [reflexivity|].
  rewrite (H k g (or_introl eq_refl)), IH; [reflexivity|].
  intros k' g' Hin. apply H. right. exact Hin.
Qed.

(** X6.  On rows whose ids are not names that the object [grouped]
    inherits, the post-pass returns, without an exception, records with
    distinct ids: one record for each id, with the fields of the first row
    of that id and, as boundaries, the points of all the rows of that id in
    row order, sorted by sequence. *)
Theorem mergeAirspaceBoundaries_groups (rows : list airspace) :
  (forall a, In a rows -> Dict.is_inherited (id a) = false) ->
  exists out,
    mergeAirspaceBoundaries rows = Ok out /\
    NoDup (map id out) /\
    forall g, In g out <->
      exists r rs,
        filter (has_id (id g)) rows = r :: rs /\
        g = with_boundaries r (sort by_sequence (flat_map boundaries (r :: rs))).
Proof.
  intros Hrows.
  assert (Hempty : keys_not_inherited Dict.empty) by (intros k H; contradiction H; reflexivity).
  destruct (proj2 (merge_all_returns_iff rows Dict.empty Hempty) Hrows) as (d & Hd).
  pose proof (merge_all_groups rows Dict.empty d Hd Hrows) as Hgroups.
  assert (Hnd : NoDup (map fst d))
    by (apply (merge_all_keys rows Dict.empty d Hd Hrows); constructor).
  assert (Hkey : forall k g, In (k, g) d -> id g = k).
  { intros k g Hin. apply (group_after_id rows). rewrite <- Hgroups.
    apply in_own; assumption. }
  unfold mergeAirspaceBoundaries. rewrite Hd. cbn [bind].
  eexists. split; [reflexivity|]. split.
  - rewrite map_map. cbn [id with_boundaries].
    change (map (fun x => id x) (Dict.values d)) with (map id (Dict.values d)).
    apply (Permutation_NoDup (l := map fst d)); [|exact Hnd].
    rewrite <- (map_id_values d Hkey). symmetry.
    apply Permutation_map, values_perm.
  - intros g. rewrite in_map_iff. split.
    + intros (g0 & <- & Hin).
      apply (Permutation_in _ (values_perm d)) in Hin.
      apply in_map_iff in Hin. destruct Hin as ([k g1] & Hk & Hin).
      cbn in Hk. subst g1.
      pose proof (in_own d k g0 Hnd Hin) as Hown.
      rewrite Hgroups in Hown.
      pose proof (group_after_id rows k g0 Hown) as Hid.
      apply group_after_empty in Hown. destruct Hown as (r & rs & Hf & ->).
      exists r, rs. split; [|reflexivity].
      cbn [id with_boundaries] in *. rewrite Hid. exact Hf.
    + intros (r & rs & Hf & ->). cbn [id with_boundaries] in Hf.
      exists (with_boundaries r (flat_map boundaries (r :: rs))).
      split; [reflexivity|].
      apply (Permutation_in _ (Permutation_sym (values_perm d))).
      apply in_map_iff. exists (id r, with_boundaries r (flat_map boundaries (r :: rs))).
      split; [reflexivity|].
      apply own_in. rewrite Hgroups. apply group_after_empty.
      exists r, rs. split; [exact Hf|reflexivity].
Qed.

(** X7.  The post-pass returns exactly when no id is a name that the
    object [grouped] inherits from [Object.prototype]; otherwise it throws. *)
Theorem mergeAirspaceBoundaries_returns_iff (rows : list airspace) :
  (exists out, mergeAirspaceBoundaries rows = Ok out) <->
  (forall a, In a rows -> Dict.is_inherited (id a) = false).
Proof.
  assert (Hempty : keys_not_inherited Dict.empty) by (intros k H; contradiction H; reflexivity).
  rewrite <- (merge_all_returns_iff rows Dict.empty Hempty).
  unfold mergeAirspaceBoundaries. split.
  - intros (out & H). bind_inv H. eexists. reflexivity.
  - intros (d & ->). eexists. reflexivity.
Qed.

(** The only exception of the post-pass is that [TypeError]. *)
Lemma mergeAirspaceBoundaries_outcome (rows : list airspace) :
  (exists out, mergeAirspaceBoundaries rows = Ok out) \/
  mergeAirspaceBoundaries rows = Throw (cannot_read "push").
Proof.
  unfold mergeAirspaceBoundaries.
  assert (H : forall l d, (exists d', merge_all d l = Ok d')
                          \/ merge_all d l = Throw (cannot_read "push")).
  { induction l as [|a l IH]; intros d; cbn [merge_all].
    - left. eexists. reflexivity.
    - unfold merge_step.
      destruct (Dict.get _ (id a)); try (right; reflexivity).
      cbn [bind]. apply IH. }
  destruct (H rows Dict.empty) as [(d & ->)| ->].
  - left. eexists. reflexivity.
  - right. reflexivity.
Qed.

(** C6, evaluated.  The rows (A, 2), (A, 1), (B, 1) merge into A with its
    points in the order sequence 1, sequence 2 and B apart; a single row
    whose id is [constructor] makes the post-pass throw a [TypeError]. *)
Theorem mergeAirspaceBoundaries_samples :
  mergeAirspaceBoundaries Samples.three_rows
    = Ok [ Samples.row "A" [Samples.point 20 1; Samples.point 10 2];
           Samples.row "B" [Samples.point 30 1] ] /\
  mergeAirspaceBoundaries Samples.constructor_rows
    = Throw (cannot_read "push").
Proof. split; vm_compute; reflexivity. Qed.

(** The records come out in the order of [Object.values]: the ids that are
    array indices first, by increasing index, then the others in the order
    of their first row. *)
Lemma mergeAirspaceBoundaries_numeric_ids :
  mergeAirspaceBoundaries Samples.numeric_id_rows
    = Ok [ Samples.row "7" [Samples.point 10 1];
           Samples.row "B" [Samples.point 30 1] ].
Proof. vm_compute. reflexivity. Qed.

End Grouping.

(** ** The PDF-text parser *)

(** C5.  The three-line block [YBBB/BRISBANE CTA A1], [LATERAL LIMITS:
    3322225 14822227E], [VERTICAL LIMITS: FL180 - FL245] yields exactly one
    airspace, with locations [YBBB], one boundary at latitude
    -(33 + 22/60 + 22.5/3600) and longitude 148 + 22/60 + 22.7/3600 (within
    a thousandth of -33.373 and 148.373), lower limit FL180 and upper limit
    FL245. *)
Theorem parseAirspaceText_brisbane :
  exists a b (lat lon : Q),
    DahParser.parseAirspaceText Samples.brisbane = [a] /\
    DahParser.locations a = ["YBBB"] /\
    DahParser.boundaries a = [b] /\
    DahParser.latitude b = Fin lat /\
    DahParser.longitude b = Fin lon /\
    (lat == - (33 + 22 / 60 + (225 # 10) / 3600))%Q /\
    (lon == 148 + 22 / 60 + (227 # 10) / 3600)%Q /\
    (Qabs (lat - (-33373 # 1000)) < 1 # 1000)%Q /\
    (Qabs (lon - (148373 # 1000)) < 1 # 1000)%Q /\
    DahParser.lowerLimit a = "FL180" /\
    DahParser.upperLimit a = "FL245".
Proof.
  do 4 eexists.
  split; [vm_compute; reflexivity|].
  split; [reflexivity|].
  split; [reflexivity|].
  split; [reflexivity|].
  split; [reflexivity|].
  repeat split; vm_compute; reflexivity.
Qed.

(** Every record kept by [save] has a boundary. *)
Lemma save_bounded (l : list DahParser.airspace) (current : option DahParser.airspace) :
  DahParser.all_bounded l -> DahParser.all_bounded (DahParser.save l current).
Proof.
  intros Hl. unfold DahParser.save. destruct current as [a|]; [|exact Hl].
  destruct (DahParser.boundaries a) as [|b bs] eqn:Hb; cbn; [exact Hl|].
  apply Forall_app. split; [exact Hl|].
  constructor; [|constructor]. rewrite Hb. discriminate.
Qed.

Lemma step_bounded (st : DahParser.state) (line : string) :
  DahParser.all_bounded (DahParser.airspaces st) ->
  DahParser.all_bounded (DahParser.airspaces (DahParser.step st line)).
Proof.
  intros H. unfold DahParser.step.
  destruct (Text.is_empty line); [exact H|].
  destruct (exec DahParser.titlePattern line).
  - cbn. apply save_bounded, H.
  - destruct (DahParser.currentAirspace st); [|exact H].
    repeat match goal with
           | |- context [if ?c then _ else _] => destruct c
           end; exact H.
Qed.

Lemma fold_step_bounded (lines : list string) (st : DahParser.state) :
  DahParser.all_bounded (DahParser.airspaces st) ->
  DahParser.all_bounded (DahParser.airspaces (fold_left DahParser.step lines st)).
Proof.
  revert st. induction lines as [|line lines IH]; intros st H; cbn; [exact H|].
  apply IH, step_bounded, H.
Qed.

(** X12.  The PDF-text parser never emits a record without boundaries: a
    titled block that gathers no coordinate is dropped. *)
Theorem parseAirspaceText_bounded (text : string) (a : DahParser.airspace) :
  In a (DahParser.parseAirspaceText text) -> DahParser.boundaries a <> [].
Proof.
  unfold DahParser.parseAirspaceText.
  assert (H : DahParser.all_bounded
                (DahParser.save
                   (DahParser.airspaces
                      (fold_left DahParser.step (map Text.trim (Text.lines text))
                         DahParser.initial))
                   (DahParser.currentAirspace
                      (fold_left DahParser.step (map Text.trim (Text.lines text))
                         DahParser.initial)))).
  { apply save_bounded, fold_step_bounded. constructor. }
  intros Hin. unfold DahParser.all_bounded in H. rewrite Forall_forall in H. exact (H a Hin).
Qed.

Section ParserClaims.

Context {R : Runtime}.

(** C10.  Some input is classified as CSV by [detectFileFormat] and then
    rejected by [parseCSVFormat] with the error for too few lines: a header
    line [id,name] followed by blank lines only. *)
Theorem csv_detected_then_rejected :
  exists content,
    Parser.detectFileFormat content = Parser.csv /\
    forall p, Parser.parseCSVFormat content p = Throw Parser.too_few_lines.
Proof.
  exists Samples.header_only_csv. split.
  - vm_compute. reflexivity.
  - intros p. vm_compute. reflexivity.
Qed.

(** ** Coordinates *)

Lemma call_toString_string (s : string) : call_toString (VStr s) = Ok s.
Proof. reflexivity. Qed.

(** [parseCoordinate] on a string, branch by branch. *)
Lemma parseCoordinate_string (s : string) :
  Parser.parseCoordinate (VStr s) =
    Ok (let decimal := Num.parseFloat (Text.trim s) in
        if negb (isNaN decimal) then decimal
        else match exec Parser.dmsPattern (Text.trim s) with
             | Some m =>
                 let value :=
                   add (add (Num.parseInt (group_text m 1))
                            (div_by (Num.parseInt (group_text m 2)) 60))
                       (div_by (Num.parseFloat (group_text m 3)) 3600) in
                 if String.eqb (Text.toUpperCase (group_text m 4)) "S"
                    || String.eqb (Text.toUpperCase (group_text m 4)) "W"
                 then neg value else value
             | None => of_Z 0
             end).
Proof.
  unfold Parser.parseCoordinate. cbn [call_toString toString bind].
  cbv zeta.
  destruct (negb (isNaN (Num.parseFloat (Text.trim s)))); [reflexivity|].
  destruct (exec Parser.dmsPattern (Text.trim s)) as [m|]; [|reflexivity].
  destruct (String.eqb _ "S" || String.eqb _ "W"); reflexivity.
Qed.

(** A token with a numeric prefix is answered by the decimal branch. *)
Lemma parseCoordinate_numeric_prefix (s : string) :
  isNaN (Num.parseFloat (Text.trim s)) = false ->
  Parser.parseCoordinate (VStr s) = Ok (Num.parseFloat (Text.trim s)).
Proof.
  intros H. unfold Parser.parseCoordinate.
  rewrite call_toString_string. cbn [bind]. rewrite H. reflexivity.
Qed.

(** X3.  A token that starts with a digit, as every DMS token that begins
    with its degrees does, is answered by the decimal branch: the result is
    the number [parseFloat] reads in front of the trimmed text, whatever
    follows it, a hemisphere letter included; the DMS branch is out of its
    reach. *)
Lemma parseCoordinate_digit_first (c : ascii) (s : string) :
  is_digit c = true ->
  isNaN (Num.parseFloat (Text.trim (String c s))) = false /\
  Parser.parseCoordinate (VStr (String c s))
    = Ok (Num.parseFloat (Text.trim (String c s))).
Proof.
  intros H. destruct (trim_digit_first c s H) as (t & Ht).
  assert (Hnan : isNaN (Num.parseFloat (Text.trim (String c s))) = false)
    by (rewrite Ht; apply parseFloat_digit_first, H).
  split; [exact Hnan|]. apply parseCoordinate_numeric_prefix, Hnan.
Qed.

(** The DMS branch, once reached, applies the formula
    degrees + minutes / 60 + seconds / 3600, negated for S and W. *)
Lemma parseCoordinate_dms_formula (s : string) (m : rmatch) :
  isNaN (Num.parseFloat (Text.trim s)) = true ->
  exec Parser.dmsPattern (Text.trim s) = Some m ->
  Parser.parseCoordinate (VStr s) =
    Ok (let decimal :=
          add (add (Num.parseInt (group_text m 1))
                   (div_by (Num.parseInt (group_text m 2)) 60))
              (div_by (Num.parseFloat (group_text m 3)) 3600) in
        let direction := Text.toUpperCase (group_text m 4) in
        if String.eqb direction "S" || String.eqb direction "W"
        then neg decimal else decimal).
Proof.
  intros Hnan Hm. unfold Parser.parseCoordinate.
  rewrite call_toString_string. cbn [bind]. rewrite Hnan, Hm. cbn [negb].
  destruct (String.eqb _ "S" || String.eqb _ "W"); reflexivity.
Qed.

(** On every string [parseCoordinate] returns a number without throwing;
    the number is not [NaN], and it is 0 when the two tests of the function
    fail. *)
Lemma parseCoordinate_fall_through (s : string) :
  exists n : number,
    Parser.parseCoordinate (VStr s) = Ok n /\
    isNaN n = false /\
    (isNaN (Num.parseFloat (Text.trim s)) = true ->
     exec Parser.dmsPattern (Text.trim s) = None ->
     n = of_Z 0).
Proof.
  rewrite parseCoordinate_string. eexists. split; [reflexivity|].
  cbv zeta.
  destruct (isNaN (Num.parseFloat (Text.trim s))) eqn:Hnan; cbn [negb].
  - destruct (exec Parser.dmsPattern (Text.trim s)) as [m|] eqn:Hm.
    + split; [|intros _ H; discriminate H].
      destruct (dmsPattern_captures _ _ Hm)
        as (c1 & d1 & c2 & d2 & c3 & t3 & H1 & H2 & H3 & G1 & G2 & G3).
      unfold group_text, group_or. rewrite G1, G2, G3.
      destruct (parseInt_digits c1 d1 H1) as (a & ->).
      destruct (parseInt_digits c2 d2 H2) as (b & ->).
      apply dms_value_not_NaN, parseFloat_digit_first, H3.
    + split; [reflexivity|]. intros _ _. reflexivity.
  - split; [exact Hnan|]. intros H. discriminate H.
Qed.

(** Values other than strings: a number is returned as it is, and
    [undefined] has no [toString] to call. *)
Lemma parseCoordinate_other_values (n : number) :
  Parser.parseCoordinate (VNum n) = Ok n /\
  Parser.parseCoordinate VUndefined = Throw (cannot_read "toString").
Proof. split; reflexivity. Qed.

(** C2, at the token of the source's own comment.  The text
    33 deg 52' 12'' S has the DMS shape (degrees 33, minutes 52, seconds 12,
    direction S), yet [parseCoordinate] returns 33: [parseFloat] reads the
    leading digits and the DMS branch is never reached. *)
Theorem parseCoordinate_dms_south :
  Parser.parseCoordinate (VStr Samples.dms_south) = Ok (of_Z 33) /\
  exists m, exec Parser.dmsPattern Samples.dms_south = Some m /\
            group m 1 = Some "33" /\ group m 2 = Some "52" /\
            group m 3 = Some "12" /\ group m 4 = Some "S".
Proof.
  split.
  - vm_compute. reflexivity.
  - eexists. split; [vm_compute; reflexivity|].
    repeat split; vm_compute; reflexivity.
Qed.

(** The same token behind a label reaches the DMS branch and is converted:
    -(33 + 52/60 + 12/3600) = -33.87. *)
Lemma parseCoordinate_labelled_dms_south :
  Parser.parseCoordinate (VStr Samples.labelled_dms_south)
    = Ok (Fin (-3387 # 100)).
Proof. vm_compute. reflexivity. Qed.

(** ** The text parsers and the boundary invariant *)

(** C4, at a titled block without coordinates.  The one-line text
    [AIRSPACE A1] is classified as structured text, and
    [parseStructuredText] emits its record with an empty [boundaries]. *)
Theorem parseStructuredText_emits_empty_boundaries :
  Parser.detectFileFormat Samples.titled_without_coordinates
    = Parser.structured_text /\
  exists a,
    Parser.parseStructuredText Samples.titled_without_coordinates Samples.no_data
      = Ok {| Parser.airspaces := [a] |} /\
    Parser.id a = "AIRSPACE" /\
    Parser.boundaries a = [].
Proof.
  split; [vm_compute; reflexivity|].
  eexists. split; [vm_compute; reflexivity|]. split; reflexivity.
Qed.

Lemma parseCoordinate_string_ok (s : string) :
  exists n, Parser.parseCoordinate (VStr s) = Ok n.
Proof. rewrite parseCoordinate_string. eexists. reflexivity. Qed.

Lemma generic_boundary_ok (m : rmatch) :
  exists b, Parser.generic_boundary m = Ok b.
Proof.
  unfold Parser.generic_boundary.
  destruct (parseCoordinate_string_ok (group_text m 1 ++ group_text m 2)) as (lat & ->).
  destruct (parseCoordinate_string_ok (group_text m 3 ++ group_text m 4)) as (lon & ->).
  eexists. reflexivity.
Qed.

(** The generic parser returns on every text and adds at most one record,
    which has a boundary. *)
Theorem parseGenericFormat_bounded (content : string) (p : Parser.parsedData) :
  exists p',
    Parser.parseGenericFormat content p = Ok p' /\
    forall a, In a (Parser.airspaces p') ->
              In a (Parser.airspaces p) \/ Parser.boundaries a <> [].
Proof.
  unfold Parser.parseGenericFormat.
  destruct (mapM_total Parser.generic_boundary generic_boundary_ok
              (matchAll Parser.coordPattern content)) as (bs & -> & _).
  cbn [bind]. destruct bs as [|b bs]; cbn.
  - exists p. split; [reflexivity|]. intros a Ha. left. exact Ha.
  - eexists. split; [reflexivity|]. cbn. intros a Ha.
    apply in_app_or in Ha. destruct Ha as [Ha|[<-|[]]]; [left; exact Ha|].
    right. cbn. discriminate.
Qed.

(** ** The CSV parser *)

(** C7, at a row whose id is [constructor].  The text has two non-blank
    lines and is classified as CSV, and [parseCSVFormat] throws a
    [TypeError] from the post-pass. *)
Theorem parseCSVFormat_constructor_row :
  List.length (filter Parser.non_blank (Text.lines Samples.constructor_csv)) = 2 /\
  Parser.detectFileFormat Samples.constructor_csv = Parser.csv /\
  Parser.parseCSVFormat Samples.constructor_csv Samples.no_data
    = Throw (cannot_read "push").
Proof. repeat split; vm_compute; reflexivity. Qed.

Import Parser.

(** No role is mapped to a lower-case header that is a name the row object
    inherits, so a mapped cell is always read from an own property. *)
Lemma inherited_header_unmapped (m : columns) (header : string) :
  Dict.is_inherited header = true ->
  Text.toLowerCase header = header ->
  map_header m header = m.
Proof.
  unfold Dict.is_inherited, Dict.inherited. cbn [existsb].
  intros H Hlower.
  repeat (apply orb_true_iff in H; destruct H as [H|H];
          [apply String.eqb_eq in H; subst header;
           try (vm_compute in Hlower; discriminate Hlower);
           reflexivity|]).
  discriminate H.
Qed.

(** A row whose field count differs from the header count is skipped. *)
Lemma parse_row_skips (headers : list string) (columnMap : columns) (i : nat)
    (line : string) :
  List.length (parseCSVLine line) <> List.length headers ->
  parse_row headers columnMap i line = Ok None.
Proof.
  intros H. unfold parse_row.
  destruct (Nat.eqb_spec (List.length (parseCSVLine line)) (List.length headers));
    [contradiction|reflexivity].
Qed.

Lemma parse_row_returns (headers : list string) (columnMap : columns) (i : nat)
    (line : string) :
  exists row, parse_row headers columnMap i line = Ok row.
Proof.
  unfold parse_row.
  destruct (negb (List.length (parseCSVLine line) =? List.length headers));
    [eexists; reflexivity|].
  destruct (cell_truthy _ _ && cell_truthy _ _).
  - rewrite !parseCoordinate_string. cbn [bind]. eexists. reflexivity.
  - cbn [bind]. eexists. reflexivity.
Qed.

Lemma parse_rows_returns (headers : list string) (columnMap : columns)
    (lines : list string) (i : nat) (p : parsedData) :
  exists p', parse_rows headers columnMap i lines p = Ok p'.
Proof.
  revert i p. induction lines as [|line lines IH]; intros i p; cbn [parse_rows].
  - eexists. reflexivity.
  - destruct (parse_row_returns headers columnMap i line) as (row & ->).
    cbn [bind]. apply IH.
Qed.

(** The error for too few lines is thrown exactly when fewer than two
    non-blank lines remain; any other exception of the parser is the
    [TypeError] of the post-pass. *)
Theorem parseCSVFormat_outcome (content : string) (p : parsedData) :
  (List.length (filter non_blank (Text.lines content)) < 2 ->
   parseCSVFormat content p = Throw too_few_lines) /\
  (2 <= List.length (filter non_blank (Text.lines content)) ->
   (exists out, parseCSVFormat content p = Ok out) \/
   parseCSVFormat content p = Throw (cannot_read "push")).
Proof.
  unfold parseCSVFormat. split; intros H.
  - destruct (Nat.ltb_spec (List.length (filter non_blank (Text.lines content))) 2);
      [reflexivity|lia].
  - destruct (Nat.ltb_spec (List.length (filter non_blank (Text.lines content))) 2);
      [lia|].
    cbv zeta.
    match goal with
    | |- context [parse_rows ?h ?c ?i ?l ?q] =>
        destruct (parse_rows_returns h c l i q) as (p1 & ->)
    end.
    cbn [bind].
    destruct (mergeAirspaceBoundaries_outcome (airspaces p1)) as [(out & ->)| ->].
    + left. eexists. reflexivity.
    + right. reflexivity.
Qed.

(** X4.  The CSV parser throws the error for a missing data row exactly
    when fewer than two lines of the text are not blank. *)
Theorem parseCSVFormat_too_few_lines_iff (content : string) (p : parsedData) :
  parseCSVFormat content p = Throw too_few_lines <->
  List.length (filter non_blank (Text.lines content)) < 2.
Proof.
  destruct (parseCSVFormat_outcome content p) as (Hfew & Henough). split.
  - intros H.
    destruct (Nat.lt_ge_cases (List.length (filter non_blank (Text.lines content))) 2)
      as [Hlt|Hge]; [exact Hlt|].
    destruct (Henough Hge) as [(out & Hout)|Hthrow]; rewrite H in *; discriminate.
  - exact Hfew.
Qed.

End ParserClaims.

(** ** The converter *)

Section ConverterClaims.

Context {R : Runtime}.
Import Converter.

(** *** Altitudes *)

(** C1, evaluated.  [UNL], [GND] and [FL245] normalise as listed; [5000FT]
    and [5000 AGL] are taken by the flight-level branch, whose pattern
    accepts a bare number above 180, and come out as flight level 5000. *)
Theorem normalizeAltitude_samples :
  normalizeAltitude (VStr "UNL")
    = Ok (altitude (of_Z 999) "FL" "STD") /\
  normalizeAltitude (VStr "GND")
    = Ok (altitude (of_Z 0) "FT" "AGL") /\
  normalizeAltitude (VStr "FL245")
    = Ok (altitude (of_Z 245) "FL" "STD") /\
  normalizeAltitude (VStr "5000FT")
    = Ok (altitude (of_Z 5000) "FL" "STD") /\
  normalizeAltitude (VStr "5000 AGL")
    = Ok (altitude (of_Z 5000) "FL" "STD").
Proof. repeat split; vm_compute; reflexivity. Qed.

(** Feet are reported for the numbers up to 180 only. *)
Lemma normalizeAltitude_feet_samples :
  normalizeAltitude (VStr "150FT")
    = Ok (altitude (of_Z 150) "FT" "AMSL") /\
  normalizeAltitude (VStr "150 AGL")
    = Ok (altitude (of_Z 150) "FT" "AGL").
Proof. repeat split; vm_compute; reflexivity. Qed.

(** *** Re-application *)


Lemma convertBoundary_shape (b out : value) :
  convertBoundary b = Ok out -> is_converted_boundary out.
Proof.
  unfold convertBoundary. intros H. bind_inv H. injection H as <-.
  eexists _, _. reflexivity.
Qed.

Lemma optional_only_optional (k : string) (c : bool) (v : value) :
  optional_key k = true -> optional_only (optional k c v).
Proof.
  intros Hk. unfold optional. destruct c; constructor; [exact Hk|constructor].
Qed.

Lemma optional_only_app (l1 l2 : list (string * value)) :
  optional_only l1 -> optional_only l2 -> optional_only (l1 ++ l2).
Proof. intros H1 H2. apply Forall_app. split; assumption. Qed.

(** What [convertAirspace] returns: the four fixed properties, the
    boundaries all of the shape lat/lon, then optional properties. *)
Lemma convertAirspace_shape (e : entropy) (a r : value) :
  convertAirspace e a = Ok r ->
  exists id name type boundaries extras,
    get a "id" = Ok id /\
    r = converted_record (or_else id (VStr (generateId e "AIRSPACE")))
          name type boundaries extras /\
    Forall is_converted_boundary boundaries /\
    optional_only extras.
Proof.
  unfold convertAirspace. intros H. bind_inv H. injection H as <-.
  assert (Hb : exists bs, a10 = VArr bs /\ Forall is_converted_boundary bs).
  { destruct a9.
    - unfold call_map in E9. destruct a8; try discriminate E9.
      bind_inv E9. injection E9 as <-. eexists. split; [reflexivity|].
      eapply mapM_Forall; [|exact E13]. apply convertBoundary_shape.
    - injection E9 as <-. exists []. split; [reflexivity|constructor]. }
  destruct Hb as (bs & -> & Hbs).
  eexists _, _, _, bs, _. split; [reflexivity|]. split; [reflexivity|].
  split; [exact Hbs|].
  repeat apply optional_only_app; apply optional_only_optional; reflexivity.
Qed.

Lemma own_optional_only (extras : list (string * value)) (k : string) :
  optional_only extras -> optional_key k = false -> own extras k = None.
Proof.
  intros H Hk. induction H as [|[k' v] l Hk' _ IH]; cbn; [reflexivity|].
  destruct (String.eqb_spec k k') as [->|_]; [|exact IH].
  cbn [fst] in Hk'. congruence.
Qed.

Lemma get_object (props : list (string * value)) (k : string) :
  exists v, get (VObj props) k = Ok v.
Proof. cbn. destruct (own props k); eexists; reflexivity. Qed.

Lemma normalizeAirspaceType_string (s : string) :
  exists t, normalizeAirspaceType (VStr s) = Ok t.
Proof.
  unfold normalizeAirspaceType.
  destruct (negb (truthy (VStr s))); [eexists; reflexivity|].
  destruct (assoc _ typeMap); eexists; reflexivity.
Qed.

Lemma convertBoundary_converted (b : value) :
  is_converted_boundary b ->
  convertBoundary b = Ok (converted_boundary (of_Z 0) (of_Z 0)).
Proof. intros (lat & lon & ->). reflexivity. Qed.

Lemma mapM_convertBoundary_converted (bs : list value) :
  Forall is_converted_boundary bs ->
  mapM convertBoundary bs
    = Ok (map (fun _ => converted_boundary (of_Z 0) (of_Z 0)) bs).
Proof.
  induction 1 as [|b l Hb _ IH]; cbn; [reflexivity|].
  rewrite (convertBoundary_converted b Hb). cbn [bind]. rewrite IH. reflexivity.
Qed.

Lemma toString_primitive (v : value) :
  primitive v = true -> exists s, toString v = Ok s.
Proof.
  destruct v as [| |[|]| | | |]; cbn; intros H;
    try discriminate H; eexists; reflexivity.
Qed.

Lemma primitive_or_else (a b : value) :
  primitive a = true -> primitive b = true -> primitive (or_else a b) = true.
Proof. intros Ha Hb. unfold or_else. destruct (truthy a); assumption. Qed.

End ConverterClaims.

(* ================================================================== *)
(** * Further properties *)

(** ** CSV lines *)

Section CsvLines.

Import Parser Notions.

Lemma append_assoc (a b c : string) : (a ++ b) ++ c = a ++ (b ++ c).
Proof. induction a as [|x a IH]; cbn; [reflexivity|]. rewrite IH. reflexivity. Qed.

Lemma append_empty_r (a : string) : a ++ "" = a.
Proof. induction a as [|x a IH]; cbn; [reflexivity|]. rewrite IH. reflexivity. Qed.

Lemma every_app (p : ascii -> bool) (a b : string) :
  every p (a ++ b) = every p a && every p b.
Proof.
  induction a as [|x a IH]; cbn; [reflexivity|].
  rewrite IH, andb_assoc. reflexivity.
Qed.

(** The fields already split stay in front. *)
Lemma parseCSVLine_from_result (line : string) :
  forall front result current inQuotes,
    parseCSVLine_from line (front ++ result) current inQuotes
    = (front ++ parseCSVLine_from line result current inQuotes)%list.
Proof.
  induction line as [|c line IH]; intros front result current inQuotes;
    cbn [parseCSVLine_from].
  - rewrite app_assoc. reflexivity.
  - destruct (Ascii.eqb c dquote); [apply IH|].
    destruct (Ascii.eqb c "," && negb inQuotes); [|apply IH].
    rewrite <- app_assoc. apply IH.
Qed.

(** Characters that are neither a quote nor a separating comma join the
    current field. *)
Lemma parseCSVLine_from_text (t : string) :
  forall rest result current inQuotes,
    every (fun c => negb (Ascii.eqb c dquote)
                    && (inQuotes || negb (Ascii.eqb c ","))) t = true ->
    parseCSVLine_from (t ++ rest) result current inQuotes
    = parseCSVLine_from rest result (current ++ t) inQuotes.
Proof.
  induction t as [|c t IH]; intros rest result current inQuotes H.
  - cbn. rewrite append_empty_r. reflexivity.
  - cbn [every] in H. apply andb_true_iff in H. destruct H as (Hc & Ht).
    apply andb_true_iff in Hc. destruct Hc as (Hq & Hcomma).
    apply negb_true_iff in Hq.
    cbn [append parseCSVLine_from]. rewrite Hq.
    replace (Ascii.eqb c "," && negb inQuotes) with false.
    + rewrite (IH _ _ _ _ Ht), append_assoc. reflexivity.
    + destruct inQuotes; cbn in *; [rewrite andb_false_r; reflexivity|].
      apply negb_true_iff in Hcomma. rewrite Hcomma. reflexivity.
Qed.

Lemma parseCSVLine_from_written (cell : bool * string) :
  forall rest result current,
    readable cell = true ->
    parseCSVLine_from (written cell ++ rest) result current false
    = parseCSVLine_from rest result (current ++ snd cell) false.
Proof.
  destruct cell as [[|] t]; intros rest result current H; cbn [written snd].
  - cbn [append parseCSVLine_from]. rewrite Ascii.eqb_refl.
    rewrite append_assoc. cbn [negb].
    rewrite parseCSVLine_from_text by exact H.
    cbn [append parseCSVLine_from]. rewrite Ascii.eqb_refl. reflexivity.
  - apply parseCSVLine_from_text. exact H.
Qed.

(** X1.  Round trip.  Cells without a double quote, each written as it is or
    between double quotes (which a cell holding a comma needs) and joined by
    commas, are read back one by one. *)
Theorem parseCSVLine_join (cells : list (bool * string)) :
  cells <> [] ->
  forallb readable cells = true ->
  parseCSVLine (Text.join "," (map written cells)) = map snd cells.
Proof.
  intros Hne Hall. unfold parseCSVLine.
  induction cells as [|cell cells IH]; [congruence|].
  cbn [forallb] in Hall. apply andb_true_iff in Hall. destruct Hall as (Hc & Hcs).
  destruct cells as [|cell' cells].
  - cbn [map Text.join].
    rewrite <- (append_empty_r (written cell)).
    rewrite parseCSVLine_from_written by exact Hc. reflexivity.
  - remember (cell' :: cells) as more eqn:Hmore.
    assert (Hjoin : Text.join "," (map written (cell :: more))
                    = written cell ++ "," ++ Text.join "," (map written more)).
    { rewrite Hmore. reflexivity. }
    rewrite Hjoin, parseCSVLine_from_written by exact Hc.
    cbn [append parseCSVLine_from]. cbn [Ascii.eqb Bool.eqb dquote chr ascii_of_nat
      ascii_of_pos ascii_of_N] .
    change (parseCSVLine_from (Text.join "," (map written more))
              ([snd cell] ++ []) "" false = map snd (cell :: more)).
    rewrite parseCSVLine_from_result, IH; [reflexivity| |exact Hcs].
    rewrite Hmore. discriminate.
Qed.

Lemma parseCSVLine_from_quote_free (line : string) :
  forall result current inQuotes,
    Forall (fun f => quote_free f = true) result ->
    quote_free current = true ->
    Forall (fun f => quote_free f = true)
           (parseCSVLine_from line result current inQuotes).
Proof.
  induction line as [|c line IH]; intros result current inQuotes Hr Hc;
    cbn [parseCSVLine_from].
  - apply Forall_app. split; [exact Hr|]. constructor; [exact Hc|constructor].
  - destruct (Ascii.eqb c dquote) eqn:Eq; [apply IH; assumption|].
    destruct (Ascii.eqb c "," && negb inQuotes).
    + apply IH; [|reflexivity]. apply Forall_app. split; [exact Hr|].
      constructor; [exact Hc|constructor].
    + apply IH; [exact Hr|]. unfold quote_free in *. rewrite every_app, Hc.
      cbn [every andb]. rewrite Eq. reflexivity.
Qed.

Lemma parseCSVLine_from_last (line : string) :
  forall result current inQuotes,
    parseCSVLine_from line result current inQuotes <> [].
Proof.
  induction line as [|c line IH]; intros result current inQuotes;
    cbn [parseCSVLine_from].
  - destruct result; discriminate.
  - destruct (Ascii.eqb c dquote); [apply IH|].
    destruct (Ascii.eqb c "," && negb inQuotes); apply IH.
Qed.

(** X2.  A line always has a field, and no field keeps a double quote: the
    quotes only switch the reading of commas, a doubled quote included. *)
Theorem parseCSVLine_fields (line : string) :
  parseCSVLine line <> [] /\
  Forall (fun f => quote_free f = true) (parseCSVLine line).
Proof.
  split; [apply parseCSVLine_from_last|].
  apply parseCSVLine_from_quote_free; [constructor|reflexivity].
Qed.

End CsvLines.

(** The round trip at [a,b] and the quoted [c,d]. *)
Lemma parseCSVLine_join_witness :
  Parser.parseCSVLine
    (Text.join "," (map Notions.written [ (false, "a"); (true, "b,c") ]))
  = [ "a"; "b,c" ].
Proof.
  apply (parseCSVLine_join [ (false, "a"); (true, "b,c") ]).
  - discriminate.
  - reflexivity.
Defined.

(** ** The structured-text parser *)

Section StructuredText.

Context {R : Runtime}.
Import Parser Notions.

Lemma parseCoordinate_of_string (s : string) :
  exists n, parseCoordinate (VStr s) = Ok n.
Proof.
  unfold parseCoordinate. cbn [call_toString toString bind]. cbv zeta.
  destruct (negb (isNaN (Num.parseFloat (Text.trim s)))); [eexists; reflexivity|].
  destruct (exec dmsPattern (Text.trim s)) as [m|]; [|eexists; reflexivity].
  destruct (String.eqb _ "S" || String.eqb _ "W"); eexists; reflexivity.
Qed.

Lemma extractCoordinates_returns (line : string) :
  exists found, extractCoordinates line = Ok found.
Proof.
  unfold extractCoordinates.
  destruct (exec coordinatesPattern line) as [m|]; [|eexists; reflexivity].
  destruct (parseCoordinate_of_string (group_text m 1 ++ group_text m 2)) as (lat & ->).
  destruct (parseCoordinate_of_string (group_text m 3 ++ group_text m 4)) as (lon & ->).
  eexists. reflexivity.
Qed.

(** One line: a heading adds a record with the id and the name read from
    it; any other line leaves the ids and names as they are. *)
Lemma structured_line_labels (st : text_state) (line : string) :
  exists st',
    structured_line st line = Ok st' /\
    map label (emitted st')
    = (map label (emitted st)
       ++ if is_heading line then [heading_label line] else [])%list.
Proof.
  destruct st as [p current]. unfold structured_line, is_heading.
  destruct (Text.is_empty (Text.trim line)) eqn:Hblank.
  - exists (p, current). split; [reflexivity|].
    destruct (Text.trim line); [|discriminate Hblank].
    cbn. rewrite app_nil_r. reflexivity.
  - destruct (test headingPattern (Text.trim line)).
    + destruct (extractCoordinates_returns (Text.trim line)) as (found & ->).
      cbn [bind]. eexists. split; [reflexivity|].
      unfold emitted, push_airspace. cbn [fst snd airspaces].
      destruct current as [a|], found, (exec upperPattern _), (exec lowerPattern _);
        unfold label, heading_label, with_boundaries, set_lowerLimit, set_upperLimit;
        cbn [airspaces id name map app]; rewrite ?map_app, ?app_nil_r;
        reflexivity.
    + destruct current as [a|].
      * destruct (extractCoordinates_returns (Text.trim line)) as (found & ->).
        cbn [bind]. eexists. split; [reflexivity|].
        unfold emitted. cbn [fst snd]. rewrite !map_app, app_nil_r.
        destruct found, (exec upperPattern _), (exec lowerPattern _);
          reflexivity.
      * eexists. split; [reflexivity|]. rewrite app_nil_r. reflexivity.
Qed.

Lemma structured_lines_labels (lines : list string) :
  forall st,
    exists st',
      structured_lines st lines = Ok st' /\
      map label (emitted st')
      = (map label (emitted st) ++ map heading_label (filter is_heading lines))%list.
Proof.
  induction lines as [|line lines IH]; intros st; cbn [structured_lines filter].
  - exists st. split; [reflexivity|]. cbn. rewrite app_nil_r. reflexivity.
  - destruct (structured_line_labels st line) as (st1 & -> & H1). cbn [bind].
    destruct (IH st1) as (st' & -> & H'). exists st'. split; [reflexivity|].
    rewrite H', H1, <- app_assoc. destruct (is_heading line); reflexivity.
Qed.

(** X9.  The structured-text parser returns on every text, and it adds one
    record for each heading line, in the order of the lines, with the id and
    the name read from that line; no other line adds or removes a record. *)
Theorem parseStructuredText_headings (content : string) (p : parsedData) :
  exists p',
    parseStructuredText content p = Ok p' /\
    map label (airspaces p')
    = (map label (airspaces p)
       ++ map heading_label (filter is_heading (Text.lines content)))%list.
Proof.
  unfold parseStructuredText.
  destruct (structured_lines_labels (Text.lines content) (p, None))
    as ([p' current] & -> & H).
  cbn [bind]. unfold emitted in H. cbn [fst snd] in H. rewrite app_nil_r in H.
  destruct current as [a|]; eexists; (split; [reflexivity|]).
  - exact H.
  - rewrite app_nil_r in H. exact H.
Qed.

End StructuredText.

(** ** The records of the CSV parser *)

Section CsvRecords.

Context {R : Runtime}.
Import Parser Notions.

(** The number read from a string is never [NaN]: a decimal prefix is a
    number, the DMS formula adds numbers, and the default is 0. *)
Lemma parseCoordinate_string_number (s : string) (n : number) :
  parseCoordinate (VStr s) = Ok n -> isNaN n = false.
Proof.
  unfold parseCoordinate. cbn [call_toString toString bind]. cbv zeta.
  destruct (isNaN (Num.parseFloat (Text.trim s))) eqn:Hnan; cbn [negb].
  - destruct (exec dmsPattern (Text.trim s)) as [m|] eqn:Hm.
    + destruct (dmsPattern_captures _ _ Hm)
        as (c1 & d1 & c2 & d2 & c3 & t3 & H1 & H2 & H3 & G1 & G2 & G3).
      unfold group_text, group_or. rewrite G1, G2, G3.
      destruct (parseInt_digits c1 d1 H1) as (a & ->).
      destruct (parseInt_digits c2 d2 H2) as (b & ->).
      pose proof (parseFloat_digit_first c3 t3 H3) as H.
      destruct (Num.parseFloat (String c3 t3)) as [|[|]|q]; [discriminate H| | |];
        destruct (String.eqb _ "S" || String.eqb _ "W");
        intros [= <-]; reflexivity.
    + intros [= <-]. reflexivity.
  - intros [= <-]. exact Hnan.
Qed.

Lemma cell_or_filled (row : Dict.dict string) (col : option string) (c : ascii)
    (dflt : string) :
  Text.is_empty (cell_or row col (String c dflt)) = false.
Proof.
  unfold cell_or. destruct (cell row col) as [[|x s]|]; reflexivity.
Qed.

(** A row that is kept has its id, its name and its limits filled, from
    the cell or from the default, and at most one point, made of numbers. *)
Lemma parse_row_record (headers : list string) (columnMap : columns) (i : nat)
    (line : string) (a : airspace) :
  parse_row headers columnMap i line = Ok (Some a) ->
  filled a = true /\ forallb numeric_point (boundaries a) = true.
Proof.
  unfold parse_row.
  destruct (negb (List.length (parseCSVLine line) =? List.length headers));
    [discriminate|].
  intros H. bind_inv H. injection H as <-. split.
  - unfold filled. cbn [id name upperLimit lowerLimit].
    change ("AIRSPACE_" ++ of_nat i) with (String "A" ("IRSPACE_" ++ of_nat i)).
    rewrite !cell_or_filled. reflexivity.
  - cbn [boundaries].
    destruct (cell_truthy _ _ && cell_truthy _ _).
    + bind_inv E. injection E as <-.
      apply parseCoordinate_string_number in E0, E1.
      unfold numeric_point. cbn [forallb latitude longitude sequence].
      rewrite E0, E1. cbn [negb andb].
      destruct (Num.parseInt _) as [|[|]|q]; cbn [Num.truthy]; try reflexivity.
      destruct (negb (Qeq_bool q 0)); reflexivity.
    + injection E as <-. reflexivity.
Qed.

Lemma parse_rows_records (P : airspace -> Prop) (headers : list string)
    (columnMap : columns) (lines : list string) :
  (forall i line a, parse_row headers columnMap i line = Ok (Some a) -> P a) ->
  forall i p p',
    parse_rows headers columnMap i lines p = Ok p' ->
    Forall P (airspaces p) -> Forall P (airspaces p').
Proof.
  intros Hrow. induction lines as [|line lines IH]; intros i p p' H Hp;
    cbn [parse_rows] in H.
  - injection H as <-. exact Hp.
  - bind_inv H. apply (IH _ _ _ H). destruct a as [a|]; [|exact Hp].
    unfold push_airspace. cbn [airspaces]. apply Forall_app. split; [exact Hp|].
    constructor; [|constructor]. exact (Hrow _ _ _ E).
Qed.

(** What the post-pass returns: one record for each id, made of the first
    row of that id and the sorted points of all its rows. *)
Lemma mergeAirspaceBoundaries_members (rows out : list airspace) :
  mergeAirspaceBoundaries rows = Ok out ->
  NoDup (map id out) /\
  forall g, In g out ->
    exists r rs,
      filter (has_id (id g)) rows = r :: rs /\
      g = with_boundaries r (sort by_sequence (flat_map boundaries (r :: rs))).
Proof.
  intros Hout.
  assert (Hempty : keys_not_inherited Dict.empty)
    by (intros k H; contradiction H; reflexivity).
  unfold mergeAirspaceBoundaries in Hout. bind_inv Hout. injection Hout as <-.
  rename a into d.
  assert (Hrows : forall a, In a rows -> Dict.is_inherited (id a) = false).
  { apply (merge_all_returns_iff rows Dict.empty Hempty). eexists. exact E. }
  pose proof (merge_all_groups rows Dict.empty d E Hrows) as Hgroups.
  assert (Hnd : NoDup (map fst d))
    by (apply (merge_all_keys rows Dict.empty d E Hrows); constructor).
  assert (Hkey : forall k g, In (k, g) d -> id g = k).
  { intros k g Hin. apply (group_after_id rows). rewrite <- Hgroups.
    apply in_own; assumption. }
  split.
  - rewrite map_map. cbn [id with_boundaries].
    change (map (fun x => id x) (Dict.values d)) with (map id (Dict.values d)).
    apply (Permutation_NoDup (l := map fst d)); [|exact Hnd].
    rewrite <- (map_id_values d Hkey). symmetry.
    apply Permutation_map, values_perm.
  - intros g Hg. apply in_map_iff in Hg. destruct Hg as (g0 & <- & Hin).
    apply (Permutation_in _ (values_perm d)) in Hin.
    apply in_map_iff in Hin. destruct Hin as ([k g1] & Hk & Hin).
    cbn in Hk. subst g1.
    pose proof (in_own d k g0 Hnd Hin) as Hown.
    rewrite Hgroups in Hown.
    pose proof (group_after_id rows k g0 Hown) as Hid.
    apply group_after_empty in Hown. destruct Hown as (r & rs & Hf & ->).
    exists r, rs. split; [|reflexivity].
    cbn [id with_boundaries] in *. rewrite Hid. exact Hf.
Qed.

Lemma filter_incl {A} (p : A -> bool) (l : list A) (r : A) (rs : list A) :
  filter p l = r :: rs -> forall x, In x (r :: rs) -> In x l.
Proof.
  intros H x Hx. rewrite <- H in Hx. apply filter_In in Hx. exact (proj1 Hx).
Qed.

(** X5.  What the CSV parser hands over.  When it returns, on the fresh
    [parsedData] of [parseDAHFile], the records have distinct ids; each has
    a non-empty id, name, upper and lower limit; and each of its points has
    a latitude, a longitude and a sequence that are numbers, never [NaN]. *)
Theorem parseCSVFormat_records (content : string) (out : parsedData) :
  parseCSVFormat content {| airspaces := [] |} = Ok out ->
  NoDup (map id (airspaces out)) /\
  Forall (fun a => filled a = true /\
                   forallb numeric_point (boundaries a) = true)
         (airspaces out).
Proof.
  unfold parseCSVFormat.
  destruct (List.length (filter non_blank (Text.lines content)) <? 2);
    [discriminate|].
  cbv zeta. intros H. bind_inv H. injection H as <-. cbn [airspaces].
  rename a into p1, a0 into merged.
  assert (Hrows : Forall (fun a => filled a = true /\
                            forallb numeric_point (boundaries a) = true)
                         (airspaces p1)).
  { eapply parse_rows_records; [|exact E|constructor].
    intros i line a. apply parse_row_record. }
  destruct (mergeAirspaceBoundaries_members _ _ E0) as (Hnd & Hmem).
  split; [exact Hnd|].
  apply Forall_forall. intros g Hg.
  destruct (Hmem g Hg) as (r & rs & Hf & ->).
  rewrite Forall_forall in Hrows.
  pose proof (filter_incl _ _ _ _ Hf) as Hin.
  split.
  - exact (proj1 (Hrows r (Hin r (or_introl eq_refl)))).
  - cbn [boundaries with_boundaries]. apply forallb_forall. intros b Hb.
    apply (Permutation_in _ (sort_perm by_sequence _)) in Hb.
    apply in_flat_map in Hb. destruct Hb as (r' & Hr' & Hb).
    pose proof (proj2 (Hrows r' (Hin r' Hr'))) as Hpoints.
    rewrite forallb_forall in Hpoints. exact (Hpoints b Hb).
Qed.

End CsvRecords.

(** The CSV parser at a header line with one data row. *)
Lemma parseCSVFormat_records_witness :
  exists out,
    Parser.parseCSVFormat (R := Samples.sample_runtime) Examples.sydney_csv
      {| Parser.airspaces := [] |} = Ok out /\
    NoDup (map Parser.id (Parser.airspaces out)) /\
    Forall (fun a => Notions.filled a = true /\
                     forallb Notions.numeric_point (Parser.boundaries a) = true)
           (Parser.airspaces out).
Proof.
  eexists. split; [vm_compute; reflexivity|].
  apply (parseCSVFormat_records (R := Samples.sample_runtime) Examples.sydney_csv).
  vm_compute. reflexivity.
Defined.

(** ** The generic parser *)

Section GenericText.

Context {R : Runtime}.
Import Parser Notions.

Lemma generic_boundary_point (m : rmatch) :
  exists b,
    generic_boundary m = Ok b /\
    isNaN (latitude b) = false /\ isNaN (longitude b) = false /\
    sequence b = None.
Proof.
  unfold generic_boundary.
  destruct (parseCoordinate_of_string (group_text m 1 ++ group_text m 2))
    as (lat & Hlat).
  destruct (parseCoordinate_of_string (group_text m 3 ++ group_text m 4))
    as (lon & Hlon).
  rewrite Hlat, Hlon. cbn [bind]. eexists. split; [reflexivity|].
  cbn [latitude longitude sequence].
  apply parseCoordinate_string_number in Hlat, Hlon. auto.
Qed.

Lemma mapM_Forall2 {A B} (f : A -> result B) (l : list A) :
  forall out, mapM f l = Ok out -> Forall2 (fun x y => f x = Ok y) l out.
Proof.
  induction l as [|x l IH]; intros out H; cbn [mapM] in H.
  - injection H as <-. constructor.
  - bind_inv H. injection H as <-. constructor; [exact E|]. apply IH. reflexivity.
Qed.

(** X10.  The generic parser returns on every text.  It reads one point for
    each match of its pattern, in the order of the matches: the latitude is
    what [parseCoordinate] reads in the first number and its letter, the
    longitude what it reads in the second, both numbers and never [NaN].
    It puts them all into a single record [EXTRACTED_AIRSPACE] with the
    limits UNL and GND; a text without a match adds nothing. *)
Theorem parseGenericFormat_record (content : string) (p : parsedData) :
  exists points,
    Forall2 point_of_match (matchAll coordPattern content) points /\
    Forall (fun b => isNaN (latitude b) = false /\ isNaN (longitude b) = false)
           points /\
    parseGenericFormat content p
    = Ok (match points with
          | [] => p
          | _ :: _ =>
              push_airspace p
                {| id := "EXTRACTED_AIRSPACE";
                   name := "Extracted from DAH";
                   type := None;
                   boundaries := points;
                   upperLimit := "UNL";
                   lowerLimit := "GND";
                   conditional := None |}
          end).
Proof.
  unfold parseGenericFormat.
  destruct (mapM_total generic_boundary
              (fun m => let (b, H) := generic_boundary_point m in
                        ex_intro _ b (proj1 H))
              (matchAll coordPattern content)) as (points & Hpoints & Hlen).
  exists points. split; [|split].
  - apply mapM_Forall2 in Hpoints.
    eapply Forall2_impl; [|exact Hpoints].
    intros m b Hb. unfold generic_boundary in Hb. bind_inv Hb.
    injection Hb as <-. cbn [latitude longitude sequence].
    unfold point_of_match. cbn [latitude longitude sequence].
    repeat split; assumption.
  - eapply mapM_Forall; [|exact Hpoints].
    intros m b Hb. destruct (generic_boundary_point m) as (b' & Hb' & H1 & H2 & _).
    rewrite Hb in Hb'. injection Hb' as <-. auto.
  - rewrite Hpoints. cbn [bind]. destruct points; reflexivity.
Qed.

End GenericText.

(** ** The records of the PDF-text parser *)

Section PdfRecords.

Import DahParser Notions.

Lemma fold_push_boundary (P : airspace -> Prop) :
  (forall a b, P a -> P (push_boundary a b)) ->
  forall bs a, P a -> P (fold_left push_boundary bs a).
Proof.
  intros Hpush. induction bs as [|b bs IH]; intros a Ha; cbn; [exact Ha|].
  apply IH, Hpush, Ha.
Qed.

(** What holds of a record and is kept by a new point holds after a line
    of coordinates. *)
Lemma extractCoordinatesFromLine_keeps (P : airspace -> Prop) :
  (forall a b, P a -> P (push_boundary a b)) ->
  forall line a, P a -> P (extractCoordinatesFromLine line a).
Proof.
  intros Hpush line a Ha. unfold extractCoordinatesFromLine.
  repeat match goal with
         | |- context [if ?c then _ else _] => destruct c
         end; try apply fold_push_boundary; assumption.
Qed.

Lemma extractVerticalLimits_keeps (P : airspace -> Prop) :
  (forall a lower upper, P a -> P (set_limits a lower upper)) ->
  forall text a, P a -> P (extractVerticalLimits text a).
Proof.
  intros Hset text a Ha. unfold extractVerticalLimits.
  destruct (exec rangePattern text); [apply Hset, Ha|].
  destruct (test singlePattern text); [|exact Ha].
  destruct (test groundPattern text); apply Hset, Ha.
Qed.

Lemma save_held (P : airspace -> Prop) (l : list airspace)
    (current : option airspace) :
  Forall P l -> (forall a, current = Some a -> P a) -> Forall P (save l current).
Proof.
  intros Hl Hc. unfold save. destruct current as [a|]; [|exact Hl].
  destruct (0 <? List.length (boundaries a)); [|exact Hl].
  apply Forall_app. split; [exact Hl|]. constructor; [|constructor].
  apply Hc. reflexivity.
Qed.

(** One turn of the loop keeps what the four updates keep and what holds
    of the record a title opens. *)
Lemma step_held (P : airspace -> Prop) :
  (forall line a, P a -> P (extractCoordinatesFromLine line a)) ->
  (forall a lower upper, P a -> P (set_limits a lower upper)) ->
  (forall a hours, P a -> P (set_hoursOfOperation a hours)) ->
  (forall a authority, P a -> P (set_controllingAuthority a authority)) ->
  forall st line,
    (forall titleMatch,
       exec titlePattern line = Some titleMatch -> P (open_airspace titleMatch)) ->
    held P st -> held P (step st line).
Proof.
  intros Hcoords Hlimits Hhours Hauthority st line Hopen (Hall & Hcur).
  pose proof (extractVerticalLimits_keeps P Hlimits) as Hvertical.
  unfold step. destruct (Text.is_empty line); [split; assumption|].
  destruct (exec titlePattern line) as [titleMatch|].
  - split; cbn [airspaces currentAirspace].
    + apply save_held; assumption.
    + intros a [= <-]. apply Hopen. reflexivity.
  - destruct (currentAirspace st) as [a|] eqn:Ha;
      [|split; [exact Hall|intros a' H'; rewrite Ha in H'; discriminate H']].
    specialize (Hcur a eq_refl).
    repeat match goal with
           | |- context [if ?c then _ else _] => destruct c
           end;
      (split; cbn [airspaces currentAirspace];
       [exact Hall|intros a' [= <-]; auto]).
Qed.

Lemma fold_step_held (P : airspace -> Prop) :
  (forall line a, P a -> P (extractCoordinatesFromLine line a)) ->
  (forall a lower upper, P a -> P (set_limits a lower upper)) ->
  (forall a hours, P a -> P (set_hoursOfOperation a hours)) ->
  (forall a authority, P a -> P (set_controllingAuthority a authority)) ->
  forall ls st,
    (forall line titleMatch,
       In line ls ->
       exec titlePattern line = Some titleMatch -> P (open_airspace titleMatch)) ->
    held P st -> held P (fold_left step ls st).
Proof.
  intros Hcoords Hlimits Hhours Hauthority.
  induction ls as [|line ls IH]; intros st Hopen Hst; cbn [fold_left];
    [exact Hst|].
  apply IH.
  - intros l m Hl. apply Hopen. right. exact Hl.
  - apply step_held; try assumption.
    intros m. apply Hopen. left. reflexivity.
Qed.

Lemma parseAirspaceText_held (P : airspace -> Prop) (text : string) :
  (forall line a, P a -> P (extractCoordinatesFromLine line a)) ->
  (forall a lower upper, P a -> P (set_limits a lower upper)) ->
  (forall a hours, P a -> P (set_hoursOfOperation a hours)) ->
  (forall a authority, P a -> P (set_controllingAuthority a authority)) ->
  (forall line titleMatch,
     In line (map Text.trim (Text.lines text)) ->
     exec titlePattern line = Some titleMatch -> P (open_airspace titleMatch)) ->
  Forall P (parseAirspaceText text).
Proof.
  intros Hcoords Hlimits Hhours Hauthority Hopen. unfold parseAirspaceText.
  destruct (fold_step_held P Hcoords Hlimits Hhours Hauthority
              (map Text.trim (Text.lines text)) initial Hopen) as (Hall & Hcur).
  - split; [constructor|]. intros a H. discriminate H.
  - apply save_held; assumption.
Qed.

Lemma parseAirspaceText_opened (text : string) :
  Forall (opened_by (map Text.trim (Text.lines text))) (parseAirspaceText text).
Proof.
  apply parseAirspaceText_held;
    try (apply extractCoordinatesFromLine_keeps);
    try (intros a x (line & m & Hin & Hm & H1 & H2 & H3 & H4);
         exists line, m; repeat split; assumption);
    try (intros a x y (line & m & Hin & Hm & H1 & H2 & H3 & H4);
         exists line, m; repeat split; assumption).
  intros line m Hin Hm. exists line, m. repeat split; assumption.
Qed.

(** X13.  Every record the PDF-text parser emits was opened by a title line
    of the text (a trimmed line that matches the title pattern) and keeps
    the id, the name and the locations read from that title; each location
    has four characters, and the record has no frequency, since no line
    ever writes one. *)
Theorem parseAirspaceText_titled (text : string) (a : airspace) :
  In a (parseAirspaceText text) ->
  (exists line titleMatch,
     In line (map Text.trim (Text.lines text)) /\
     exec titlePattern line = Some titleMatch /\
     id a = id (open_airspace titleMatch) /\
     name a = name (open_airspace titleMatch) /\
     locations a = locations (open_airspace titleMatch)) /\
  Forall (fun l => String.length l = 4) (locations a) /\
  frequencies a = [].
Proof.
  intros Hin.
  pose proof (parseAirspaceText_opened text) as H.
  rewrite Forall_forall in H.
  destruct (H a Hin) as (line & m & Hl & Hm & H1 & H2 & H3 & H4).
  split; [exists line, m; repeat split; assumption|]. split.
  - rewrite H3. unfold open_airspace. cbn [locations].
    apply Forall_forall. intros l Hl4. apply filter_In in Hl4.
    apply Nat.eqb_eq. exact (proj2 Hl4).
  - rewrite H4. reflexivity.
Qed.

End PdfRecords.

(** The record of the Brisbane block. *)
Lemma parseAirspaceText_titled_witness :
  exists a,
    In a (DahParser.parseAirspaceText Samples.brisbane) /\
    DahParser.locations a = ["YBBB"] /\
    Forall (fun l => String.length l = 4) (DahParser.locations a) /\
    DahParser.frequencies a = [].
Proof.
  eexists. split; [vm_compute; left; reflexivity|].
  split; [reflexivity|].
  refine (proj2 (parseAirspaceText_titled Samples.brisbane _ _)).
  vm_compute. left. reflexivity.
Defined.

(** ** Coordinates in degrees, minutes and seconds *)

Section Dms.

Import DahParser Notions.

Lemma every_filter_chars (p : ascii -> bool) (s : string) :
  every p (filter_chars p s) = true.
Proof.
  induction s as [|c s IH]; cbn; [reflexivity|].
  destruct (p c) eqn:Hp; cbn; [rewrite Hp|]; exact IH.
Qed.

Lemma read_digits_nonneg (s : string) :
  forall acc n, (0 <= acc)%Z ->
    (0 <= fst (fst (read_digits dec_val 10 acc n s)))%Z.
Proof.
  induction s as [|c s IH]; intros acc n Hacc; cbn [read_digits]; [exact Hacc|].
  unfold dec_val at 1. destruct (is_digit c); [|exact Hacc].
  apply IH. unfold digit_val. lia.
Qed.

(** A run of digits denotes a natural number. *)
Lemma parseInt_digits_nonneg (c : ascii) (d : string) :
  every is_digit (String c d) = true ->
  exists z, (0 <= z)%Z /\ Num.parseInt (String c d) = of_Z z.
Proof.
  intros H. pose proof H as Hall. cbn [every] in H.
  apply andb_true_iff in H. destruct H as (Hc & _).
  destruct (every_digit_not_x c d Hall) as (Hx & HX).
  unfold Num.parseInt. cbn [trimStart]. rewrite (digit_not_space c Hc).
  rewrite (read_sign_digit c _ Hc), Hx, HX. cbn [orb].
  pose proof (read_digits_count dec_val 10 d (0 * 10 + digit_val c)%Z 1) as Hcount.
  pose proof (read_digits_nonneg d (0 * 10 + digit_val c)%Z 1) as Hsign.
  cbn [read_digits]. unfold dec_val at 1. rewrite Hc.
  destruct (read_digits dec_val 10 (0 * 10 + digit_val c) 1 d) as [[v n] r].
  cbn [fst snd] in Hcount, Hsign. destruct n; [lia|].
  exists v. split; [|reflexivity]. apply Hsign. unfold digit_val. lia.
Qed.

(** The formula on natural numbers of degrees, minutes and tenths of
    seconds or seconds: a rational, negative or zero for S and W, positive
    or zero otherwise. *)
Lemma dmsToDecimal_sign (a b c : Z) (d : Q) (direction : string) :
  (0 <= a)%Z -> (0 <= b)%Z -> (0 <= c)%Z -> (0 < d)%Q ->
  exists q,
    dmsToDecimal (of_Z a) (of_Z b) (div_by (of_Z c) d) direction = Fin q /\
    if south_or_west direction then (q <= 0)%Q else (0 <= q)%Q.
Proof.
  intros Ha Hb Hc Hd. unfold dmsToDecimal, south_or_west, of_Z, div_by, add, neg.
  assert (Hpos : (0 <= inject_Z a + inject_Z b / 60 + inject_Z c / d / 3600)%Q).
  { assert (0 <= inject_Z a)%Q
      by (change (inject_Z 0 <= inject_Z a)%Q; rewrite <- Zle_Qle; exact Ha).
    assert (0 <= inject_Z b)%Q
      by (change (inject_Z 0 <= inject_Z b)%Q; rewrite <- Zle_Qle; exact Hb).
    assert (0 <= inject_Z c)%Q
      by (change (inject_Z 0 <= inject_Z c)%Q; rewrite <- Zle_Qle; exact Hc).
    assert (0 <= inject_Z b / 60)%Q by (apply Qle_shift_div_l; lra).
    assert (0 <= inject_Z c / d)%Q by (apply Qle_shift_div_l; lra).
    assert (0 <= inject_Z c / d / 3600)%Q by (apply Qle_shift_div_l; lra).
    lra. }
  destruct (String.eqb direction "S" || String.eqb direction "W");
    eexists; (split; [reflexivity|]); rewrite !Qred_correct; lra.
Qed.

Lemma length_two_or_more (s : string) (n : nat) :
  String.length s = S n ->
  exists c d, s = String c d /\ String.length d = n.
Proof.
  destruct s as [|c d]; cbn; intros H; [discriminate H|].
  exists c, d. split; [reflexivity|]. lia.
Qed.

Lemma every_take (p : ascii -> bool) (s : string) :
  forall n, every p s = true -> every p (Text.take n s) = true.
Proof.
  induction s as [|c s IH]; intros [|n] H; cbn; try reflexivity.
  cbn in H. apply andb_true_iff in H. destruct H as (Hc & Hs).
  rewrite Hc. apply IH, Hs.
Qed.

Lemma every_drop (p : ascii -> bool) (s : string) :
  forall n, every p s = true -> every p (Text.drop n s) = true.
Proof.
  induction s as [|c s IH]; intros [|n] H; cbn; try reflexivity; try exact H.
  cbn in H. apply andb_true_iff in H. apply IH, (proj2 H).
Qed.

Lemma drop_length (s : string) :
  forall n, String.length (Text.drop n s) = String.length s - n.
Proof.
  induction s as [|c s IH]; intros [|n]; cbn; try reflexivity. apply IH.
Qed.

Lemma take_length (s : string) :
  forall n, n <= String.length s -> String.length (Text.take n s) = n.
Proof.
  induction s as [|c s IH]; intros [|n] H; cbn in *; try reflexivity; try lia.
  rewrite IH; lia.
Qed.

(** A part of a run of digits that is not empty denotes a natural
    number. *)
Lemma parseInt_substring (str : string) (i j : nat) :
  every is_digit str = true -> i < j -> j <= String.length str ->
  exists z, (0 <= z)%Z /\ Num.parseInt (Text.substring i j str) = of_Z z.
Proof.
  intros Hall Hij Hj. unfold Text.substring.
  assert (Hlen : String.length (Text.take (j - i) (Text.drop i str)) = j - i).
  { apply take_length. rewrite drop_length. lia. }
  destruct (Text.take (j - i) (Text.drop i str)) as [|c d] eqn:E;
    [cbn in Hlen; lia|].
  apply parseInt_digits_nonneg. rewrite <- E.
  apply every_take, every_drop, Hall.
Qed.

(** What a block of 7 or 8 digits gives. *)
Lemma parseDMSCoordinate_value (dmsStr direction : string) (n : number) :
  parseDMSCoordinate dmsStr direction = Some n ->
  exists q, n = Fin q /\
            if south_or_west direction then (q <= 0)%Q else (0 <= q)%Q.
Proof.
  unfold parseDMSCoordinate.
  pose proof (every_filter_chars is_digit dmsStr) as Hall.
  destruct (Nat.eqb_spec (String.length (filter_chars is_digit dmsStr)) 7) as [H7|H7].
  - intros [= <-].
    destruct (parseInt_substring _ 0 2 Hall) as (a & Ha & ->); [lia|lia|].
    destruct (parseInt_substring _ 2 4 Hall) as (b & Hb & ->); [lia|lia|].
    destruct (parseInt_substring _ 4 7 Hall) as (c & Hc & ->); [lia|lia|].
    apply dmsToDecimal_sign; try assumption. reflexivity.
  - destruct (Nat.eqb_spec (String.length (filter_chars is_digit dmsStr)) 8) as [H8|H8];
      [|discriminate].
    intros [= <-].
    destruct (parseInt_substring _ 0 3 Hall) as (a & Ha & ->); [lia|lia|].
    destruct (parseInt_substring _ 3 5 Hall) as (b & Hb & ->); [lia|lia|].
    destruct (parseInt_substring _ 5 8 Hall) as (c & Hc & ->); [lia|lia|].
    apply dmsToDecimal_sign; try assumption. reflexivity.
Qed.

(** X16.  A block of digits is read when it has 7 digits (DDMMSSS) or 8
    (DDDMMSSS), the other characters being ignored, and gives [null]
    otherwise.  The value read is a rational number, negative or zero for
    the directions S and W and positive or zero for any other direction. *)
Theorem parseDMSCoordinate_outcome (dmsStr direction : string) :
  (parseDMSCoordinate dmsStr direction = None <->
   String.length (Text.filter_chars Text.is_digit dmsStr) <> 7 /\
   String.length (Text.filter_chars Text.is_digit dmsStr) <> 8) /\
  (forall n, parseDMSCoordinate dmsStr direction = Some n ->
     exists q, n = Fin q /\
               if south_or_west direction then (q <= 0)%Q else (0 <= q)%Q).
Proof.
  split; [|apply parseDMSCoordinate_value].
  unfold parseDMSCoordinate.
  destruct (Nat.eqb_spec (String.length (filter_chars is_digit dmsStr)) 7) as [H7|H7].
  - split; [discriminate|intros (H & _); contradiction].
  - destruct (Nat.eqb_spec (String.length (filter_chars is_digit dmsStr)) 8) as [H8|H8].
    + split; [discriminate|intros (_ & H); contradiction].
    + split; [auto|reflexivity].
Qed.

End Dms.

(** A latitude block of seven digits, read as a southern latitude. *)
Lemma parseDMSCoordinate_outcome_witness :
  exists q, DahParser.parseDMSCoordinate "3322225" "S" = Some (Fin q) /\ (q <= 0)%Q.
Proof.
  destruct (proj2 (parseDMSCoordinate_outcome "3322225" "S") _ eq_refl)
    as (q & H & Hq).
  exists q. split; [rewrite <- H; reflexivity|exact Hq].
Defined.

(** ** The points of the PDF-text parser *)

Section PdfPoints.

Import DahParser Notions.

(** Each match of a global search is a match of the pattern. *)
Lemma matchAll_from_sound (r : regex) (fuel : nat) :
  forall i s m,
    In m (matchAll_from fuel r i s) ->
    exists st0 st', caps st0 = [] /\ matches r st0 st' /\ groups m = caps st'.
Proof.
  induction fuel as [|fuel IH]; intros i s m H; cbn [matchAll_from] in H;
    [contradiction|].
  destruct (search_from r i s) as [m0|] eqn:E; [|contradiction].
  destruct H as [<-|H]; [exact (search_from_sound r s i m0 E)|].
  destruct (String.length s <? _); [contradiction|].
  exact (IH _ _ _ H).
Qed.

Lemma matchAll_sound (r : regex) (s : string) (m : rmatch) :
  In m (matchAll r s) ->
  exists st0 st', caps st0 = [] /\ matches r st0 st' /\ groups m = caps st'.
Proof. apply matchAll_from_sound. Qed.

(** A group around a run of digits that the rest of the pattern does not
    capture again holds that run at the end of the match. *)
Lemma digits_group_kept (i : nat) (tail : regex) (st st1 st' : mstate) :
  matches (Group i (plus digit)) st st1 ->
  matches tail st1 st' ->
  ~ In i (group_ids tail) ->
  exists c d, every is_digit (String c d) = true /\
              lookup i (caps st') = Some (String c d).
Proof.
  intros H Htail Hi. apply matches_group_plus in H.
  destruct H as (c & d & Hc & Hd & Hcaps).
  exists c, d. split; [cbn; rewrite Hc, Hd; reflexivity|].
  rewrite (matches_caps _ _ _ Htail i Hi), Hcaps. cbn [lookup].
  rewrite Nat.eqb_refl. reflexivity.
Qed.

(** The six numeric captures of the pattern with the degree, minute and
    second signs. *)
Lemma pattern2_captures (m : rmatch) (st0 st' : mstate) :
  matches pattern2 st0 st' -> groups m = caps st' ->
  forall i, In i [1; 2; 3; 5; 6; 7] ->
    exists c d, every is_digit (String c d) = true /\
                group_text m i = String c d.
Proof.
  intros H Hgroups.
  assert (Hk : forall i,
            (exists c d, every is_digit (String c d) = true /\
                         lookup i (caps st') = Some (String c d)) ->
            exists c d, every is_digit (String c d) = true /\
                        group_text m i = String c d).
  { intros i (c & d & Hd & Hl). exists c, d. split; [exact Hd|].
    unfold group_text, group_or, group. rewrite Hgroups, Hl. reflexivity. }
  unfold pattern2 in H.
  apply matches_seq_inv in H. destruct H as (s1 & G1 & T1).
  pose proof T1 as U1.
  apply matches_seq_inv in T1. destruct T1 as (s2 & _ & T2).
  apply matches_seq_inv in T2. destruct T2 as (s3 & G2 & T3).
  pose proof T3 as U2.
  apply matches_seq_inv in T3. destruct T3 as (s4 & _ & T4).
  apply matches_seq_inv in T4. destruct T4 as (s5 & G3 & T5).
  pose proof T5 as U3.
  apply matches_seq_inv in T5. destruct T5 as (s6 & _ & T6).
  apply matches_seq_inv in T6. destruct T6 as (s7 & _ & T7).
  apply matches_seq_inv in T7. destruct T7 as (s8 & _ & T8).
  apply matches_seq_inv in T8. destruct T8 as (s9 & G5 & T9).
  pose proof T9 as U5.
  apply matches_seq_inv in T9. destruct T9 as (s10 & _ & T10).
  apply matches_seq_inv in T10. destruct T10 as (s11 & G6 & T11).
  pose proof T11 as U6.
  apply matches_seq_inv in T11. destruct T11 as (s12 & _ & T12).
  apply matches_seq_inv in T12. destruct T12 as (s13 & G7 & T13).
  intros i Hi. apply Hk.
  repeat (destruct Hi as [<-|Hi]);
    [ eapply digits_group_kept; [exact G1|exact U1|]
    | eapply digits_group_kept; [exact G2|exact U2|]
    | eapply digits_group_kept; [exact G3|exact U3|]
    | eapply digits_group_kept; [exact G5|exact U5|]
    | eapply digits_group_kept; [exact G6|exact U6|]
    | eapply digits_group_kept; [exact G7|exact T13|]
    | contradiction ];
    cbn; intuition discriminate.
Qed.

Lemma dmsToDecimal_number (a b c : Z) (direction : string) :
  isNaN (dmsToDecimal (of_Z a) (of_Z b) (of_Z c) direction) = false.
Proof.
  unfold dmsToDecimal. destruct (String.eqb _ "S" || String.eqb _ "W"); reflexivity.
Qed.

Lemma pair2_numeric (line : string) (m : rmatch) :
  In m (matchAll pattern2 line) -> numeric (pair2 m).
Proof.
  intros H. apply matchAll_sound in H. destruct H as (st0 & st' & _ & H & Hg).
  pose proof (pattern2_captures m st0 st' H Hg) as Hc.
  unfold numeric, pair2. cbn [latitude longitude].
  destruct (Hc 1) as (c1 & d1 & D1 & ->); [cbn; tauto|].
  destruct (Hc 2) as (c2 & d2 & D2 & ->); [cbn; tauto|].
  destruct (Hc 3) as (c3 & d3 & D3 & ->); [cbn; tauto|].
  destruct (Hc 5) as (c5 & d5 & D5 & ->); [cbn; tauto|].
  destruct (Hc 6) as (c6 & d6 & D6 & ->); [cbn; tauto|].
  destruct (Hc 7) as (c7 & d7 & D7 & ->); [cbn; tauto|].
  destruct (parseInt_digits c1 d1 D1) as (z1 & ->).
  destruct (parseInt_digits c2 d2 D2) as (z2 & ->).
  destruct (parseInt_digits c3 d3 D3) as (z3 & ->).
  destruct (parseInt_digits c5 d5 D5) as (z5 & ->).
  destruct (parseInt_digits c6 d6 D6) as (z6 & ->).
  destruct (parseInt_digits c7 d7 D7) as (z7 & ->).
  split; apply dmsToDecimal_number.
Qed.

Lemma parseDMSCoordinate_number (dmsStr direction : string) (n : number) :
  parseDMSCoordinate dmsStr direction = Some n -> isNaN n = false.
Proof.
  intros H.
  destruct (parseDMSCoordinate_value dmsStr direction n H) as (q & -> & _).
  reflexivity.
Qed.

Lemma with_points_same (a : airspace) : with_points a (boundaries a) = a.
Proof. destruct a. reflexivity. Qed.

Lemma fold_push_boundary_points (bs : list boundary) :
  forall a, fold_left push_boundary bs a = with_points a (boundaries a ++ bs).
Proof.
  induction bs as [|b bs IH]; intros a; cbn [fold_left].
  - rewrite app_nil_r, with_points_same. reflexivity.
  - rewrite IH. unfold push_boundary, with_points.
    cbn [id name locations boundaries upperLimit lowerLimit
         controllingAuthority frequencies hoursOfOperation].
    rewrite <- app_assoc. reflexivity.
Qed.

Lemma pair1_numeric (ms : list rmatch) :
  Forall numeric (keep_some (map pair1 ms)).
Proof.
  induction ms as [|m ms IH]; cbn [map keep_some]; [constructor|].
  unfold pair1 at 1.
  destruct (parseDMSCoordinate (group_text m 1) _) as [lat|] eqn:Hlat;
    [|exact IH].
  destruct (parseDMSCoordinate (group_text m 3) _) as [lon|] eqn:Hlon;
    [|exact IH].
  constructor; [|exact IH].
  split; cbn [latitude longitude];
    eapply parseDMSCoordinate_number; eassumption.
Qed.

Lemma pairs3_numeric : forall (n : nat) (coords : list rmatch),
  List.length coords <= n -> Forall numeric (pairs3 coords).
Proof.
  induction n as [|n IH]; intros [|c0 [|c1 coords]] Hn; cbn [pairs3];
    try constructor; cbn in Hn; try lia.
  destruct (parseDMSCoordinate (group_text c0 1) "S") as [lat|] eqn:Hlat;
    [|apply IH; lia].
  destruct (parseDMSCoordinate (group_text c1 1) "E") as [lon|] eqn:Hlon;
    [|apply IH; lia].
  constructor; [|apply IH; lia].
  split; cbn [latitude longitude];
    eapply parseDMSCoordinate_number; eassumption.
Qed.

(** X15.  A line of coordinates only appends points to the record: the points
    already there stay in front, no other field changes, and each point
    added has a latitude and a longitude that are numbers, never [NaN]. *)
Theorem extractCoordinatesFromLine_appends (line : string) (a : airspace) :
  exists added,
    Forall numeric added /\
    extractCoordinatesFromLine line a = with_points a (boundaries a ++ added).
Proof.
  unfold extractCoordinatesFromLine.
  destruct (0 <? List.length (matchAll pattern1 line)).
  - eexists. split; [apply pair1_numeric|apply fold_push_boundary_points].
  - destruct (0 <? List.length (matchAll pattern2 line)).
    + eexists. split; [|apply fold_push_boundary_points].
      apply Forall_forall. intros b Hb. apply in_map_iff in Hb.
      destruct Hb as (m & <- & Hm). exact (pair2_numeric line m Hm).
    + destruct (2 <=? List.length (matchAll pattern3 line)).
      * eexists. split; [|apply fold_push_boundary_points].
        eapply pairs3_numeric. reflexivity.
      * exists []. split; [constructor|].
        rewrite app_nil_r, with_points_same. reflexivity.
Qed.

Lemma extractCoordinatesFromLine_numeric (line : string) (a : airspace) :
  Forall numeric (boundaries a) ->
  Forall numeric (boundaries (extractCoordinatesFromLine line a)).
Proof.
  intros Ha. unfold extractCoordinatesFromLine.
  repeat match goal with
         | |- context [if ?c then _ else _] => destruct c eqn:?
         end; rewrite ?fold_push_boundary_points; cbn [with_points boundaries];
    try exact Ha; apply Forall_app; (split; [exact Ha|]).
  - apply pair1_numeric.
  - apply Forall_forall. intros b Hb. apply in_map_iff in Hb.
    destruct Hb as (m & <- & Hm). exact (pair2_numeric line m Hm).
  - eapply pairs3_numeric. reflexivity.
Qed.

(** X14.  Every point of every record the PDF-text parser emits has a
    latitude and a longitude that are numbers, never [NaN]. *)
Theorem parseAirspaceText_numeric (text : string) (a : airspace) :
  In a (parseAirspaceText text) -> Forall numeric (boundaries a).
Proof.
  intros Hin.
  assert (H : Forall (fun a => Forall numeric (boundaries a))
                     (parseAirspaceText text)).
  { apply parseAirspaceText_held.
    - intros line a0. apply extractCoordinatesFromLine_numeric.
    - intros a0 lower upper H. exact H.
    - intros a0 hours H. exact H.
    - intros a0 authority H. exact H.
    - intros line m _ _. constructor. }
  rewrite Forall_forall in H. exact (H a Hin).
Qed.

End PdfPoints.

(** The point of the Brisbane block. *)
Lemma parseAirspaceText_numeric_witness :
  exists a,
    In a (DahParser.parseAirspaceText Samples.brisbane) /\
    Forall Notions.numeric (DahParser.boundaries a).
Proof.
  eexists. split; [vm_compute; left; reflexivity|].
  apply (parseAirspaceText_numeric Samples.brisbane).
  vm_compute. left. reflexivity.
Defined.

(** ** From the parser to the converter *)

Section ParsedToConverted.

Context {R : Runtime}.
Import Converter Notions.

Lemma normalizeAltitude_of_string (s : string) :
  exists v, normalizeAltitude (VStr s) = Ok v.
Proof.
  unfold normalizeAltitude. cbn [typeof call_toString toString bind]. cbv zeta.
  repeat match goal with
         | |- context [if ?c then _ else _] => destruct c
         end; eexists; reflexivity.
Qed.

Lemma normalizeAirspaceType_of_string (s : string) :
  exists t, normalizeAirspaceType (VStr s) = Ok t.
Proof.
  unfold normalizeAirspaceType.
  destruct (negb (truthy (VStr s))); [eexists; reflexivity|].
  destruct (assoc _ typeMap); eexists; reflexivity.
Qed.

Lemma length_positive_array (items : list value) :
  length_positive (VArr items) = Ok (0 <? List.length items).
Proof.
  unfold length_positive. cbn [get String.eqb Ascii.eqb Bool.eqb bind toNumber].
  destruct items as [|x items]; reflexivity.
Qed.

Lemma convertBoundary_point (b : Parser.boundary) :
  convertBoundary (Parser.boundary_value b)
  = Ok (converted_boundary (round6 (Parser.latitude b))
                           (round6 (Parser.longitude b))).
Proof. unfold Parser.boundary_value. destruct (Parser.sequence b); reflexivity. Qed.

Lemma mapM_convertBoundary_points (bs : list Parser.boundary) :
  mapM convertBoundary (map Parser.boundary_value bs)
  = Ok (map (fun b => converted_boundary (round6 (Parser.latitude b))
                                         (round6 (Parser.longitude b))) bs).
Proof.
  induction bs as [|b bs IH]; cbn [map mapM]; [reflexivity|].
  rewrite convertBoundary_point. cbn [bind]. rewrite IH. reflexivity.
Qed.

(** The conversion of a record built by the parsers, part by part. *)
Lemma convertAirspace_of_parsed (e : entropy) (a : Parser.airspace) :
  exists type ceiling floor,
    normalizeAirspaceType (type_value a) = Ok type /\
    normalizeAltitude (VStr (Parser.upperLimit a)) = Ok ceiling /\
    normalizeAltitude (VStr (Parser.lowerLimit a)) = Ok floor /\
    convertAirspace e (Parser.airspace_value a)
    = Ok (converted_parsed e a type ceiling floor).
Proof.
  destruct (normalizeAltitude_of_string (Parser.upperLimit a)) as (ceiling & Hc).
  destruct (normalizeAltitude_of_string (Parser.lowerLimit a)) as (floor & Hf).
  assert (Ht : exists type, normalizeAirspaceType (type_value a) = Ok type).
  { unfold type_value. destruct (Parser.type a) as [t|];
      [apply normalizeAirspaceType_of_string|eexists; reflexivity]. }
  destruct Ht as (type & Ht).
  exists type, ceiling, floor.
  split; [exact Ht|]. split; [exact Hc|]. split; [exact Hf|].
  unfold convertAirspace, converted_parsed, Parser.airspace_value, type_value in *.
  destruct a as [id name ty bs upper lower cond].
  cbn [Parser.id Parser.name Parser.type Parser.boundaries Parser.upperLimit
       Parser.lowerLimit Parser.conditional] in *.
  assert (Hbs : (if 0 <? List.length (map Parser.boundary_value bs)
                 then call_map (VArr (map Parser.boundary_value bs)) convertBoundary
                 else Ok (VArr []))
                = Ok (VArr (map converted_point bs))).
  { destruct bs as [|b bs]; [reflexivity|].
    cbn [List.length Nat.ltb Nat.leb map]. unfold call_map.
    change (Parser.boundary_value b :: map Parser.boundary_value bs)
      with (map Parser.boundary_value (b :: bs)).
    rewrite mapM_convertBoundary_points. reflexivity. }
  destruct ty as [t|], cond as [f|];
    cbn [get own app String.eqb Ascii.eqb Bool.eqb bind];
    rewrite Ht; cbn [bind truthy];
    destruct upper as [|cu upper], lower as [|cl lower];
    cbn [Text.is_empty negb bind];
    rewrite ?Hc, ?Hf; cbn [bind];
    rewrite length_positive_array; cbn [bind];
    rewrite Hbs; cbn [bind];
    unfold converted_record, converted_extras, text_or, or_else, optional;
    cbn [Parser.upperLimit Parser.lowerLimit Parser.conditional Text.is_empty
         negb truthy isUndefined app];
    destruct id, name; try destruct f; reflexivity.
Qed.

(** X20.  The converter on a record built by the parsers.  [convertAirspace]
    returns without an exception.  The result keeps the id and the name, a
    generated id or [Unknown Airspace] standing for an empty one; its type
    is the normalised type; it has one point for each point of the record,
    in the same order, with both coordinates rounded to six decimals; and
    its ceiling and floor are the normalised limits, present when the limit
    texts are not empty. *)
Theorem convertAirspace_parsed (e : entropy) (a : Parser.airspace) :
  exists type ceiling floor,
    normalizeAirspaceType (type_value a) = Ok type /\
    normalizeAltitude (VStr (Parser.upperLimit a)) = Ok ceiling /\
    normalizeAltitude (VStr (Parser.lowerLimit a)) = Ok floor /\
    convertAirspace e (Parser.airspace_value a)
    = Ok (converted_record
            (VStr (text_or (Parser.id a) (generateId e "AIRSPACE")))
            (VStr (text_or (Parser.name a) "Unknown Airspace"))
            type
            (map converted_point (Parser.boundaries a))
            (converted_extras a ceiling floor)).
Proof. exact (convertAirspace_of_parsed e a). Qed.

(** *** The whole conversion and its validation *)

Lemma mapM_from_parsed (entropy_at : nat -> entropy) (rows : list Parser.airspace) :
  forall i,
    exists records,
      mapM_from (fun i => convertAirspace (entropy_at i)) i
                (map Parser.airspace_value rows) = Ok records /\
      Forall2 (fun a r => exists e type ceiling floor,
                 convertAirspace e (Parser.airspace_value a) = Ok r /\
                 r = converted_parsed e a type ceiling floor)
              rows records.
Proof.
  induction rows as [|a rows IH]; intros i; cbn [map mapM_from].
  - exists []. split; [reflexivity|constructor].
  - destruct (convertAirspace_of_parsed (entropy_at i) a)
      as (type & ceiling & floor & _ & _ & _ & Ha).
    rewrite Ha. cbn [bind]. destruct (IH (S i)) as (records & -> & Hrs).
    cbn [bind]. eexists. split; [reflexivity|].
    constructor; [|exact Hrs]. exists (entropy_at i), type, ceiling, floor.
    split; [exact Ha|reflexivity].
Qed.

Lemma generateId_filled (e : entropy) (prefix : string) :
  Text.is_empty (generateId e prefix) = false.
Proof.
  unfold generateId. destruct prefix as [|c prefix]; reflexivity.
Qed.

(** The validator on a converted parsed record: only the warning for
    missing boundaries can appear. *)
Lemma check_airspace_parsed (index : nat) (e : entropy) (a : Parser.airspace)
    (type : string) (ceiling floor : value) :
  check_airspace index (converted_parsed e a type ceiling floor)
  = Ok (if unbounded a
        then [ "Airspace "
               ++ text_or (Parser.id a) (generateId e "AIRSPACE")
               ++ " has no boundaries" ]
        else []).
Proof.
  unfold check_airspace, converted_parsed, converted_record.
  cbn [get own app String.eqb Ascii.eqb Bool.eqb bind truthy negb].
  unfold length_is_zero. cbn [get String.eqb Ascii.eqb Bool.eqb bind].
  assert (Hid : Text.is_empty (text_or (Parser.id a) (generateId e "AIRSPACE"))
                = false).
  { unfold text_or. destruct (Parser.id a); [apply generateId_filled|reflexivity]. }
  assert (Hname : Text.is_empty (text_or (Parser.name a) "Unknown Airspace") = false).
  { unfold text_or. destruct (Parser.name a); reflexivity. }
  rewrite Hid, Hname. cbn [negb warn app].
  unfold unbounded. destruct (Parser.boundaries a) as [|b bs]; reflexivity.
Qed.

Lemma check_each_parsed (rows : list Parser.airspace) (records : list value) :
  Forall2 (fun a r => exists e type ceiling floor,
             convertAirspace e (Parser.airspace_value a) = Ok r /\
             r = converted_parsed e a type ceiling floor)
          rows records ->
  forall index,
    exists ws,
      check_each check_airspace index records = Ok ws /\
      Forall no_boundaries_warning ws /\
      List.length ws = List.length (filter unbounded rows).
Proof.
  induction 1 as [|a r rows records (e & type & ceiling & floor & _ & ->) _ IH];
    intros index; cbn [check_each filter].
  - exists []. repeat split. constructor.
  - rewrite check_airspace_parsed. cbn [bind].
    destruct (IH (S index)) as (ws & -> & Hws & Hlen). cbn [bind].
    eexists. split; [reflexivity|].
    destruct (unbounded a); cbn [app List.length]; [|split; assumption].
    split; [|rewrite Hlen; reflexivity].
    constructor; [|exact Hws]. eexists. reflexivity.
Qed.

(** X21.  From the parser to the validator.  On the [parsedData] of the
    CSV and text parsers, [convertToVATGlasses] returns without an
    exception: an object with one converted record for each parsed record,
    in the same order, no position, no airport, and the parser's source in
    its metadata.  The validator returns on that object with [valid] true
    and no error, and its warnings are one warning for missing boundaries
    for each parsed record without points. *)
Theorem convertToVATGlasses_parsed (c : clock) (parseDate : string)
    (p : Parser.parsedData) :
  exists records v,
    convertToVATGlasses c (Parser.parsedData_value parseDate p)
    = Ok (converted_output (generatedAt c) "Air Services Australia DAH" records) /\
    Forall2 conversion_of (Parser.airspaces p) records /\
    validateVATGlassesData
      (converted_output (generatedAt c) "Air Services Australia DAH" records)
    = Ok v /\
    valid v = true /\ errors v = [] /\
    Forall no_boundaries_warning (warnings v) /\
    List.length (warnings v) = List.length (filter unbounded (Parser.airspaces p)).
Proof.
  destruct (mapM_from_parsed (airspace_entropy c) (Parser.airspaces p) 0)
    as (records & Hmap & Hrecords).
  destruct (check_each_parsed _ _ Hrecords 0) as (ws & Hws & Hshape & Hlen).
  exists records. eexists. split; [|split; [|split; [|split; [|split; [|split]]]]].
  - unfold convertToVATGlasses, Parser.parsedData_value, metadata_source,
      convert_field, converted_output.
    cbn [get own String.eqb Ascii.eqb Bool.eqb bind truthy].
    rewrite !length_positive_array. cbn [bind List.length Nat.ltb Nat.leb].
    destruct (Parser.airspaces p) as [|a rows] eqn:Hrows.
    + cbn in Hmap. injection Hmap as <-. reflexivity.
    + cbn [map List.length Nat.ltb Nat.leb]. unfold call_map_index.
      change (Parser.airspace_value a :: map Parser.airspace_value rows)
        with (map Parser.airspace_value (a :: rows)).
      rewrite Hmap. reflexivity.
  - eapply Forall2_impl; [|exact Hrecords].
    intros a r (e & type & ceiling & floor & H & _). exists e. exact H.
  - unfold validateVATGlassesData, converted_output.
    cbn [get own String.eqb Ascii.eqb Bool.eqb bind truthy negb andb].
    unfold check_field. cbn [truthy check_each bind]. rewrite Hws. reflexivity.
  - reflexivity.
  - reflexivity.
  - cbn [warnings]. rewrite !app_nil_r. exact Hshape.
  - cbn [warnings]. rewrite !app_nil_r. exact Hlen.
Qed.

End ParsedToConverted.

(** ** The converter and the validator on any input *)

Section ConvertedFile.

Context {R : Runtime}.
Import Converter Notions.

(** The text of a value: it exists unless an object in it hides
    [toString]. *)
Lemma toString_outcome : forall v : value,
  (exists s, toString v = Ok s) \/ toString v = Throw no_text.
Proof.
  fix IH 1. intros v. destruct v as [| |[|]|n|s|items|props];
    try (left; eexists; reflexivity).
  - cbn [toString]. revert items. fix IHitems 1.
    intros [|x items]; [left; eexists; reflexivity|].
    specialize (IHitems items).
    assert (Hx : (exists sx, match x with
                             | VUndefined | VNull => Ok ""
                             | _ => toString x
                             end = Ok sx)
                 \/ match x with
                    | VUndefined | VNull => Ok ""
                    | _ => toString x
                    end = Throw no_text).
    { pose proof (IH x) as Hx0.
      destruct x; try (left; eexists; reflexivity); exact Hx0. }
    destruct Hx as [(sx & ->)| ->]; [|right; reflexivity].
    cbn [bind]. destruct items as [|y items]; [left; eexists; reflexivity|].
    destruct IHitems as [(sl & ->)| ->];
      [left; eexists; reflexivity|right; reflexivity].
  - cbn [toString]. destruct (own props "toString");
      [right; reflexivity|left; eexists; reflexivity].
Qed.

Lemma truthy_get (v : value) (k : string) :
  truthy v = true -> exists x, get v k = Ok x.
Proof.
  destruct v; cbn; intros H; try discriminate H;
    repeat match goal with
           | |- context [match ?c with _ => _ end] => destruct c
           end; eexists; reflexivity.
Qed.

Lemma get_of_object (props : list (string * value)) (k : string) :
  get (VObj props) k
  = Ok (match own props k with Some x => x | None => VUndefined end).
Proof. cbn. destruct (own props k); reflexivity. Qed.

Lemma length_is_zero_truthy (v : value) :
  truthy v = true -> exists none, length_is_zero v = Ok none.
Proof.
  intros H. destruct (truthy_get v "length" H) as (len & Hlen).
  unfold length_is_zero. rewrite Hlen. cbn [bind]. eexists. reflexivity.
Qed.

(** On an object, the check of an airspace returns its warnings or fails
    on an id without text. *)
Lemma check_airspace_object (index : nat) (props : list (string * value)) :
  (exists ws, check_airspace index (VObj props) = Ok ws) \/
  check_airspace index (VObj props) = Throw no_text.
Proof.
  unfold check_airspace. rewrite !get_of_object. cbn [bind].
  set (id := match own props "id" with Some x => x | None => VUndefined end).
  set (name := match own props "name" with Some x => x | None => VUndefined end).
  set (boundaries :=
         match own props "boundaries" with Some x => x | None => VUndefined end).
  assert (Hnone : exists none,
            (if negb (truthy boundaries) then Ok true
             else length_is_zero boundaries) = Ok none).
  { destruct (truthy boundaries) eqn:Hb; cbn [negb];
      [apply length_is_zero_truthy, Hb|eexists; reflexivity]. }
  destruct Hnone as (none & ->). cbn [bind].
  destruct none; [|left; eexists; reflexivity].
  destruct (truthy id); [|left; eexists; reflexivity].
  unfold interpolate. destruct (toString_outcome id) as [(s & ->)| ->];
    [left; eexists; reflexivity|right; reflexivity].
Qed.

Lemma truthy_or_else (a b : value) :
  truthy b = true -> truthy (or_else a b) = true.
Proof. intros Hb. unfold or_else. destruct (truthy a) eqn:Ha; assumption. Qed.

(** A converted airspace has an id and a name. *)
Lemma convertAirspace_named (e : entropy) (a r : value) :
  convertAirspace e a = Ok r -> has_truthy "id" r /\ has_truthy "name" r.
Proof.
  unfold convertAirspace. intros H. bind_inv H. injection H as <-.
  split; eexists _, _; (split; [reflexivity|]);
    (split; [reflexivity|]); apply truthy_or_else; [|reflexivity].
  cbn [truthy]. rewrite generateId_filled. reflexivity.
Qed.

(** A converted position has a frequency. *)
Lemma convertPosition_tuned (e : entropy) (position r : value) :
  convertPosition e position = Ok r -> has_truthy "frequency" r.
Proof.
  unfold convertPosition. intros H. bind_inv H. injection H as <-.
  eexists _, _. split; [reflexivity|]. split; [reflexivity|].
  apply truthy_or_else. reflexivity.
Qed.

(** A converted airport has coordinates. *)
Lemma convertAirport_located (airport r : value) :
  convertAirport airport = Ok r -> has_truthy "coordinates" r.
Proof.
  unfold convertAirport. intros H. bind_inv H. injection H as <-.
  eexists _, _. split; [reflexivity|]. split; [reflexivity|].
  unfold coordinates_of in E4. bind_inv E4. injection E4 as <-. reflexivity.
Qed.

Lemma check_airspace_converted (index : nat) (r : value) :
  has_truthy "id" r -> has_truthy "name" r ->
  (exists ws, check_airspace index r = Ok ws /\ Forall expected_warning ws) \/
  check_airspace index r = Throw no_text.
Proof.
  intros (props & id & -> & Hid & Tid) (props' & name & [= <-] & Hname & Tname).
  unfold check_airspace. rewrite !get_of_object, Hid, Hname. cbn [bind].
  set (boundaries :=
         match own props "boundaries" with Some x => x | None => VUndefined end).
  assert (Hnone : exists none,
            (if negb (truthy boundaries) then Ok true
             else length_is_zero boundaries) = Ok none).
  { destruct (truthy boundaries) eqn:Hb; cbn [negb];
      [apply length_is_zero_truthy, Hb|eexists; reflexivity]. }
  destruct Hnone as (none & ->). cbn [bind]. rewrite Tid, Tname.
  cbn [negb warn app].
  destruct none; [|left; eexists; split; [reflexivity|constructor]].
  unfold interpolate. destruct (toString_outcome id) as [(s & ->)| ->];
    [|right; reflexivity].
  left. eexists. split; [reflexivity|].
  constructor; [|constructor]. left. eexists. reflexivity.
Qed.

Lemma check_position_converted (index : nat) (r : value) :
  has_truthy "frequency" r ->
  exists ws, check_position index r = Ok ws /\ Forall expected_warning ws.
Proof.
  intros (props & frequency & -> & Hf & Tf).
  unfold check_position. rewrite !get_of_object, Hf. cbn [bind]. rewrite Tf.
  eexists. split; [reflexivity|]. cbn [negb warn]. rewrite app_nil_r.
  unfold warn. destruct (negb _); constructor; [|constructor].
  right. left. eexists. reflexivity.
Qed.

Lemma check_airport_converted (index : nat) (r : value) :
  has_truthy "coordinates" r ->
  exists ws, check_airport index r = Ok ws /\ Forall expected_warning ws.
Proof.
  intros (props & coordinates & -> & Hc & Tc).
  unfold check_airport. rewrite !get_of_object, Hc. cbn [bind]. rewrite Tc.
  eexists. split; [reflexivity|]. cbn [negb warn]. rewrite app_nil_r.
  unfold warn. destruct (negb _); constructor; [|constructor].
  right. right. eexists. reflexivity.
Qed.

Lemma check_each_outcome (check : nat -> value -> result (list string))
    (P : value -> Prop) :
  (forall index r, P r ->
     (exists ws, check index r = Ok ws /\ Forall expected_warning ws) \/
     check index r = Throw no_text) ->
  forall items index,
    Forall P items ->
    (exists ws, check_each check index items = Ok ws /\
                Forall expected_warning ws) \/
    check_each check index items = Throw no_text.
Proof.
  intros Hcheck. induction items as [|r items IH]; intros index Hitems;
    cbn [check_each].
  - left. exists []. split; [reflexivity|constructor].
  - inversion Hitems as [|r' items' Hr Hrest]; subst.
    destruct (Hcheck index r Hr) as [(w & -> & Hw)| ->]; [|right; reflexivity].
    cbn [bind].
    destruct (IH (S index) Hrest) as [(ws & -> & Hws)| ->]; [|right; reflexivity].
    left. eexists. split; [reflexivity|]. apply Forall_app. split; assumption.
Qed.

Lemma mapM_from_Forall {A B} (f : nat -> A -> result B) (P : B -> Prop) :
  (forall i x y, f i x = Ok y -> P y) ->
  forall l i out, mapM_from f i l = Ok out -> Forall P out.
Proof.
  intros Hf. induction l as [|x l IH]; intros i out H; cbn in H.
  - injection H as <-. constructor.
  - bind_inv H. injection H as <-. constructor; eauto.
Qed.

(** A converted field is an array of converted items. *)
Lemma convert_field_array (field : value)
    (convert : nat -> value -> result value) (P : value -> Prop) (v : value) :
  (forall i x y, convert i x = Ok y -> P y) ->
  convert_field field convert = Ok v ->
  exists items, v = VArr items /\ Forall P items.
Proof.
  intros Hconvert. unfold convert_field. intros H. bind_inv H.
  destruct a.
  - unfold call_map_index in H. destruct field; try discriminate H.
    bind_inv H. injection H as <-. eexists. split; [reflexivity|].
    eapply mapM_from_Forall; [|exact E0]. exact Hconvert.
  - injection H as <-. exists []. split; [reflexivity|constructor].
Qed.

(** X22.  The validator on whatever the converter returns.  The three
    fields of a converted file are arrays, so the validator reports no
    error and [valid] is true.  Its warnings can only be those for an
    airspace without boundaries, a position without callsign and an airport
    without ICAO code: a converted airspace always has an id and a name, a
    converted position a frequency and a converted airport coordinates.
    The validator can only fail on an airspace without boundaries whose id
    has no text. *)
Theorem convertToVATGlasses_validated (c : clock) (parsedData out : value) :
  convertToVATGlasses c parsedData = Ok out ->
  (exists v,
     validateVATGlassesData out = Ok v /\
     valid v = true /\ errors v = [] /\
     Forall expected_warning (warnings v)) \/
  validateVATGlassesData out = Throw no_text.
Proof.
  unfold convertToVATGlasses. intros H. bind_inv H. injection H as <-.
  destruct (convert_field_array _ _ _ _
              (fun i x y Hy => convertAirspace_named (airspace_entropy c i) x y Hy)
              E1) as (airspace & -> & Ha).
  destruct (convert_field_array _ _ _ _
              (fun i x y Hy => convertPosition_tuned (position_entropy c i) x y Hy)
              E3) as (positions & -> & Hp).
  destruct (convert_field_array _ _ _ _
              (fun _ x y Hy => convertAirport_located x y Hy)
              E5) as (airports & -> & Hq).
  unfold validateVATGlassesData.
  cbn [get own String.eqb Ascii.eqb Bool.eqb bind truthy negb andb].
  unfold check_field. cbn [truthy].
  destruct (check_each_outcome check_airspace _
              (fun index r Hr => check_airspace_converted index r (proj1 Hr) (proj2 Hr))
              airspace 0 Ha) as [(w1 & -> & Hw1)| ->]; [|right; reflexivity].
  cbn [bind].
  destruct (check_each_outcome check_position _
              (fun index r Hr => or_introl (check_position_converted index r Hr))
              positions 0 Hp) as [(w2 & -> & Hw2)| ->]; [|right; reflexivity].
  cbn [bind].
  destruct (check_each_outcome check_airport _
              (fun index r Hr => or_introl (check_airport_converted index r Hr))
              airports 0 Hq) as [(w3 & -> & Hw3)| ->]; [|right; reflexivity].
  cbn [bind]. left. eexists. split; [reflexivity|].
  split; [reflexivity|]. split; [reflexivity|].
  cbn [warnings]. repeat (apply Forall_app; split); assumption.
Qed.

End ConvertedFile.

(** A file with an airspace, a position without callsign and an airport:
    it is converted and validated, with one warning. *)
Lemma convertToVATGlasses_validated_witness :
  exists out v,
    Converter.convertToVATGlasses (R := Samples.sample_runtime)
      Examples.sample_clock Examples.parsed_file = Ok out /\
    Converter.validateVATGlassesData (R := Samples.sample_runtime) out = Ok v /\
    Converter.valid v = true /\
    Converter.warnings v = [ "Position at index 0 missing callsign" ].
Proof.
  eexists.
  destruct (convertToVATGlasses_validated (R := Samples.sample_runtime)
              Examples.sample_clock Examples.parsed_file _ eq_refl)
    as [(v & Hv & Hvalid & _ & _)|Hthrow].
  - exists v. split; [reflexivity|]. split; [exact Hv|]. split; [exact Hvalid|].
    vm_compute in Hv. injection Hv as <-. reflexivity.
  - vm_compute in Hthrow. discriminate Hthrow.
Defined.

(** ** The helpers of the converter *)

Section ConverterHelpers.

Import Converter Notions.

Lemma upper_char_idempotent (c : ascii) : upper_char (upper_char c) = upper_char c.
Proof. destruct c as [[] [] [] [] [] [] [] []]; reflexivity. Qed.

Lemma upper_char_space (c : ascii) : is_space (upper_char c) = is_space c.
Proof. destruct c as [[] [] [] [] [] [] [] []]; reflexivity. Qed.

Lemma toUpperCase_idempotent (s : string) :
  toUpperCase (toUpperCase s) = toUpperCase s.
Proof.
  unfold toUpperCase. induction s as [|c s IH]; cbn [map_chars]; [reflexivity|].
  rewrite upper_char_idempotent, IH. reflexivity.
Qed.

Lemma trimStart_toUpperCase (s : string) :
  trimStart (toUpperCase s) = toUpperCase (trimStart s).
Proof.
  unfold toUpperCase. induction s as [|c s IH]; cbn [map_chars trimStart];
    [reflexivity|].
  rewrite upper_char_space. destruct (is_space c); [exact IH|reflexivity].
Qed.

Lemma trimEnd_toUpperCase (s : string) :
  trimEnd (toUpperCase s) = toUpperCase (trimEnd s).
Proof.
  unfold toUpperCase. induction s as [|c s IH]; cbn [map_chars trimEnd];
    [reflexivity|].
  rewrite IH, upper_char_space.
  destruct (trimEnd s); cbn [map_chars]; [destruct (is_space c)|]; reflexivity.
Qed.

Lemma trim_toUpperCase (s : string) :
  trim (toUpperCase s) = toUpperCase (trim s).
Proof. unfold trim. rewrite trimStart_toUpperCase, trimEnd_toUpperCase. reflexivity. Qed.

Lemma trimStart_clean (s : string) : starts_clean (trimStart s).
Proof.
  induction s as [|c s IH]; cbn; [exact I|].
  destruct (is_space c) eqn:E; [exact IH|exact E].
Qed.

Lemma trimStart_of_clean (s : string) : starts_clean s -> trimStart s = s.
Proof. destruct s as [|c s]; cbn; [reflexivity|]. intros ->. reflexivity. Qed.

Lemma trimEnd_clean (s : string) : starts_clean s -> starts_clean (trimEnd s).
Proof.
  destruct s as [|c s]; cbn; [exact (fun H => H)|]. intros H.
  destruct (trimEnd s); [rewrite H|]; exact H.
Qed.

Lemma trimEnd_idempotent (s : string) : trimEnd (trimEnd s) = trimEnd s.
Proof.
  induction s as [|c s IH]; cbn; [reflexivity|].
  destruct (trimEnd s) as [|d t] eqn:E.
  - destruct (is_space c) eqn:Hc; cbn; [reflexivity|]. rewrite Hc. reflexivity.
  - cbn [trimEnd] in *. rewrite IH. reflexivity.
Qed.

Lemma trim_idempotent (s : string) : trim (trim s) = trim s.
Proof.
  unfold trim.
  rewrite (trimStart_of_clean (trimEnd (trimStart s)))
    by (apply trimEnd_clean, trimStart_clean).
  apply trimEnd_idempotent.
Qed.

Lemma assoc_value (k : string) (l : list (string * string)) (v : string) :
  assoc k l = Some v -> In v (map snd l).
Proof.
  induction l as [|[k' v'] l IH]; cbn; [discriminate|].
  destruct (String.eqb k k'); [intros [= <-]; left; reflexivity|].
  intros H. right. exact (IH H).
Qed.

(** X19.  The type a record gets is an upper-case text without white space
    around it, and normalising it again gives it back, unless it is empty
    (the type of a text of white space only, which normalises to OTHER the
    second time). *)
Theorem normalizeAirspaceType_normal (type : value) (t : string) :
  normalizeAirspaceType type = Ok t ->
  Text.toUpperCase t = t /\ Text.trim t = t /\
  (t <> "" -> normalizeAirspaceType (VStr t) = Ok t).
Proof.
  unfold normalizeAirspaceType at 1.
  destruct (negb (truthy type)); [intros [= <-]; repeat split|].
  destruct type as [| | | |s| |]; try discriminate.
  destruct (assoc (trim (toUpperCase s)) typeMap) as [code|] eqn:Ha; intros [= <-].
  - apply assoc_value in Ha. cbn [map snd typeMap] in Ha.
    repeat (destruct Ha as [<-|Ha]; [repeat split|]). contradiction Ha.
  - assert (Hu : toUpperCase (trim (toUpperCase s)) = trim (toUpperCase s))
      by (rewrite <- trim_toUpperCase, toUpperCase_idempotent; reflexivity).
    split; [exact Hu|]. split; [apply trim_idempotent|].
    intros Hne. unfold normalizeAirspaceType.
    destruct (trim (toUpperCase s)) as [|c u] eqn:E; [congruence|].
    cbn [truthy Text.is_empty negb]. rewrite <- E in *.
    rewrite Hu, trim_idempotent, Ha. reflexivity.
Qed.

End ConverterHelpers.

(** The type of a text in lower case with white space around it. *)
Lemma normalizeAirspaceType_normal_witness :
  Converter.normalizeAirspaceType (VStr " control zone ") = Ok "CTR" /\
  Converter.normalizeAirspaceType (VStr "CTR") = Ok "CTR".
Proof.
  split; [reflexivity|].
  apply (normalizeAirspaceType_normal (VStr " control zone ") "CTR" eq_refl).
  discriminate.
Defined.

(** ** Rounding to six decimals *)

Section Rounding.

Context {R : Runtime}.
Import Converter Notions.

Lemma Qfloor_unique (y : Q) (k : Z) :
  (inject_Z k <= y)%Q -> (y < inject_Z (k + 1))%Q -> Qfloor y = k.
Proof.
  intros Hlo Hhi.
  pose proof (Qfloor_le y) as H1. pose proof (Qlt_floor y) as H2.
  assert (Ha : (inject_Z (Qfloor y) < inject_Z (k + 1))%Q) by lra.
  assert (Hb : (inject_Z k < inject_Z (Qfloor y + 1))%Q) by lra.
  rewrite <- Zlt_Qlt in Ha, Hb. lia.
Qed.

(** The multiple of 10^-6 that [round6] picks. *)
Lemma round6_steps (q : Q) :
  let k := Qfloor (Qabs q * inject_Z 1000000 + (1 # 2))%Q in
  (0 <= k)%Z /\
  (inject_Z k <= Qabs q * 1000000 + (1 # 2))%Q /\
  (Qabs q * 1000000 + (1 # 2) < inject_Z k + 1)%Q.
Proof.
  cbv zeta. change (inject_Z 1000000) with (1000000 # 1)%Q.
  pose proof (Qfloor_le (Qabs q * 1000000 + (1 # 2))) as H1.
  pose proof (Qlt_floor (Qabs q * 1000000 + (1 # 2))) as H2.
  rewrite inject_Z_plus in H2. change (inject_Z 1) with 1%Q in H2.
  split; [|split; assumption].
  pose proof (Qabs_nonneg q) as Hq.
  assert (H : (inject_Z (-1) < inject_Z (Qfloor (Qabs q * 1000000 + (1 # 2))))%Q).
  { change (inject_Z (-1)) with (-1 # 1)%Q. lra. }
  rewrite <- Zlt_Qlt in H. lia.
Qed.

Lemma round6_close (q : Q) :
  exists r, round6 (Fin q) = Fin r /\ (Qabs (r - q) <= 1 # 2000000)%Q.
Proof.
  unfold round6. eexists. split; [reflexivity|].
  destruct (round6_steps q) as (Hk & Hlo & Hhi). cbv zeta in *.
  change (inject_Z 1000000) with (1000000 # 1)%Q in *.
  set (k := Qfloor (Qabs q * 1000000 + (1 # 2))) in *.
  assert (Hr : (inject_Z k / 1000000 * 1000000 == inject_Z k)%Q) by field.
  set (r := (inject_Z k / 1000000)%Q) in *.
  rewrite Qred_correct. apply Qabs_Qle_condition.
  destruct (Qle_bool 0 q) eqn:Hs.
  - apply Qle_bool_iff in Hs. rewrite (Qabs_pos q Hs) in Hlo, Hhi.
    split; lra.
  - assert (Hneg : (q < 0)%Q).
    { apply Qnot_le_lt. intros H. apply Qle_bool_iff in H. congruence. }
    rewrite (Qabs_neg q) in Hlo, Hhi by lra.
    split; lra.
Qed.

Lemma round6_idempotent (n : number) : round6 (round6 n) = round6 n.
Proof.
  destruct n as [|s|q]; try reflexivity.
  unfold round6. f_equal. apply Qred_complete.
  destruct (round6_steps q) as (Hk & Hlo & Hhi). cbv zeta in *.
  change (inject_Z 1000000) with (1000000 # 1)%Q in *.
  set (k := Qfloor (Qabs q * 1000000 + (1 # 2))) in *.
  assert (Hr : (inject_Z k / 1000000 * 1000000 == inject_Z k)%Q) by field.
  set (r := (inject_Z k / 1000000)%Q) in *.
  set (x := if Qle_bool 0 q then r else (- r)%Q).
  assert (Hk0 : (0 <= inject_Z k)%Q)
    by (change (inject_Z 0 <= inject_Z k)%Q; rewrite <- Zle_Qle; exact Hk).
  assert (Habs : (Qabs (Qred x) == r)%Q).
  { rewrite Qred_correct. unfold x.
    destruct (Qle_bool 0 q); [apply Qabs_pos; lra|].
    rewrite Qabs_opp. apply Qabs_pos. lra. }
  assert (Hfloor : Qfloor (Qabs (Qred x) * 1000000 + (1 # 2)) = k).
  { apply Qfloor_unique; rewrite Habs, ?inject_Z_plus;
      change (inject_Z 1) with 1%Q; lra. }
  rewrite Hfloor. fold r.
  destruct (Qle_bool 0 (Qred x)) eqn:Hs.
  - apply Qle_bool_iff in Hs. rewrite Qred_correct in Hs. unfold x in *.
    destruct (Qle_bool 0 q); [reflexivity|]. lra.
  - assert (Hneg : (Qred x < 0)%Q).
    { apply Qnot_le_lt. intros H. apply Qle_bool_iff in H. congruence. }
    rewrite Qred_correct in Hneg. unfold x in *.
    destruct (Qle_bool 0 q); [|reflexivity]. lra.
Qed.

(** X18.  A normalised coordinate is a fixed point of the normalisation.  A
    rational number moves by at most half a millionth; and what is read
    from a value that is not a number is never [NaN], a text without a
    numeric prefix giving 0. *)
Theorem normalizeCoordinate_rounded (coord : value) (n : number) :
  normalizeCoordinate coord = Ok n ->
  normalizeCoordinate (VNum n) = Ok n /\
  (forall q, coord = VNum (Fin q) ->
     exists r, n = Fin r /\ (Qabs (r - q) <= 1 # 2000000)%Q) /\
  (typeof coord <> t_number -> isNaN n = false).
Proof.
  intros H.
  assert (Hn : round6 n = n).
  { unfold normalizeCoordinate in H. destruct coord;
      try (bind_inv H; destruct (negb (isNaN a));
           injection H as <-; [apply round6_idempotent|reflexivity]).
    injection H as <-. apply round6_idempotent. }
  split; [cbn [normalizeCoordinate]; rewrite Hn; reflexivity|]. split.
  - intros q ->. cbn [normalizeCoordinate] in H. injection H as <-.
    apply round6_close.
  - intros Ht. unfold normalizeCoordinate in H.
    destruct coord; try (contradiction Ht; reflexivity);
      bind_inv H; destruct (isNaN a) eqn:Ha; cbn [negb] in H;
      injection H as <-; try reflexivity;
      destruct a as [|sg|q']; try discriminate Ha; reflexivity.
Qed.

End Rounding.

(** The latitude -16019/480 = -33.3729166... is rounded to -33.372917. *)
Lemma normalizeCoordinate_rounded_witness :
  Converter.normalizeCoordinate (R := Samples.sample_runtime)
    (VNum (Fin (-16019 # 480))) = Ok (Fin (-33372917 # 1000000)) /\
  Converter.normalizeCoordinate (R := Samples.sample_runtime)
    (VNum (Fin (-33372917 # 1000000))) = Ok (Fin (-33372917 # 1000000)).
Proof.
  split; [vm_compute; reflexivity|].
  apply (normalizeCoordinate_rounded (R := Samples.sample_runtime)
           (VNum (Fin (-16019 # 480)))).
  vm_compute. reflexivity.
Defined.

(** ** Patterns that read the first run of digits *)

Section FirstDigits.

Import Notions.

Lemma run_star_class_end (p : ascii -> bool) (st : mstate) (k : mstate -> option mstate) :
  rest st = "" -> run (Star true (Class p)) st k = k st.
Proof. intros H. cbn [run]. rewrite H. reflexivity. Qed.

Lemma run_star_class_step (p : ascii -> bool) (st : mstate)
    (k : mstate -> option mstate) (c : ascii) (s' : string) :
  rest st = String c s' ->
  run (Star true (Class p)) st k
  = if p c then
      match run (Star true (Class p))
              {| pos := S (pos st); rest := s'; caps := caps st |} k with
      | Some out => Some out
      | None => k st
      end
    else k st.
Proof.
  intros H. destruct st as [i w cs]. cbn [rest pos caps] in *. subst w.
  cbn [run rest pos caps String.length]. destruct (p c); [|reflexivity].
  replace (i <? S i) with true by (symmetry; apply Nat.ltb_lt; lia).
  reflexivity.
Qed.

Lemma leading_digits_every (s : string) : every is_digit (leading_digits s) = true.
Proof.
  induction s as [|c s IH]; cbn; [reflexivity|].
  destruct (is_digit c) eqn:E; cbn; [rewrite E; exact IH|reflexivity].
Qed.

Lemma leading_digits_split (s : string) :
  s = leading_digits s ++ after_digits s.
Proof.
  induction s as [|c s IH]; cbn; [reflexivity|].
  destruct (is_digit c); cbn; [rewrite <- IH|]; reflexivity.
Qed.

Lemma leading_digits_length (s : string) :
  String.length s = String.length (leading_digits s) + String.length (after_digits s).
Proof.
  induction s as [|c s IH]; cbn; [reflexivity|].
  destruct (is_digit c); cbn; [rewrite IH|]; reflexivity.
Qed.

(** A greedy run of digits takes all the digits in front when what follows
    the pattern succeeds there. *)
Lemma run_star_digits (w : string) :
  forall st k out,
    rest st = w ->
    k {| pos := pos st + String.length (leading_digits w);
         rest := after_digits w; caps := caps st |} = Some out ->
    run (Star true digit) st k = Some out.
Proof.
  unfold digit. induction w as [|c w IH]; intros st k out Hrest Hk.
  - rewrite run_star_class_end by exact Hrest. cbn in Hk.
    destruct st as [i r cs]. cbn in *. subst r. rewrite Nat.add_0_r in Hk. exact Hk.
  - rewrite (run_star_class_step _ _ _ c w Hrest). cbn in Hk.
    destruct (is_digit c).
    + erewrite IH; [reflexivity|reflexivity|]. cbn [pos caps String.length] in *.
      rewrite Nat.add_succ_r in Hk. exact Hk.
    + cbn in Hk. destruct st as [i r cs]. cbn in *. subst r.
      rewrite Nat.add_0_r in Hk. exact Hk.
Qed.

Lemma take_leading_digits (w : string) :
  Text.take (String.length (leading_digits w)) w = leading_digits w.
Proof.
  induction w as [|c w IH]; cbn; [reflexivity|].
  destruct (is_digit c); cbn; [rewrite IH|]; reflexivity.
Qed.

(** The group [(\d+)] in front of digits: it captures all of them when
    what follows the group succeeds after them, and it fails in front of
    anything else. *)
Lemma run_digits_group (st : mstate) (k : mstate -> option mstate) (out : mstate)
    (c : ascii) (w : string) :
  rest st = String c w -> is_digit c = true ->
  k {| pos := pos st + S (String.length (leading_digits w));
       rest := after_digits w;
       caps := (1, String c (leading_digits w)) :: caps st |} = Some out ->
  run (Group 1 (plus digit)) st k = Some out.
Proof.
  intros Hrest Hc Hk. unfold plus, digit. cbn [run]. rewrite Hrest, Hc.
  apply run_star_digits with (w := w); [reflexivity|].
  cbn [pos rest caps].
  replace (S (pos st) + String.length (leading_digits w) - pos st)
    with (S (String.length (leading_digits w))) by lia.
  cbn [Text.take]. rewrite take_leading_digits.
  replace (S (pos st) + String.length (leading_digits w))
    with (pos st + S (String.length (leading_digits w))) by lia.
  exact Hk.
Qed.

Lemma run_digits_group_fails (st : mstate) (k : mstate -> option mstate) :
  starts_with_digit (rest st) = false ->
  run (Group 1 (plus digit)) st k = None.
Proof.
  intros H. unfold plus, digit. cbn [run].
  destruct (rest st) as [|c w]; [reflexivity|]. cbn in H. rewrite H. reflexivity.
Qed.

Lemma run_opt_class (p : ascii -> bool) (st : mstate)
    (k : mstate -> option mstate) :
  run (Opt true (Class p)) st k
  = match rest st with
    | String c s' =>
        if p c then
          match k {| pos := S (pos st); rest := s'; caps := caps st |} with
          | Some out => Some out
          | None => k st
          end
        else k st
    | EmptyString => k st
    end.
Proof.
  cbn [run]. destruct (rest st) as [|c s']; [reflexivity|].
  destruct (p c); [|reflexivity]. cbn [pos].
  replace (pos st <? S (pos st)) with true by (symmetry; apply Nat.ltb_lt; lia).
  reflexivity.
Qed.

Lemma reader_digits_group : reader (fun st => run (Group 1 (plus digit)) st Some).
Proof.
  intros st. destruct (rest st) as [|c w] eqn:Hrest.
  - rewrite run_digits_group_fails by (rewrite Hrest; reflexivity).
    split; [exact I|discriminate].
  - destruct (is_digit c) eqn:Hc.
    + erewrite run_digits_group; [|exact Hrest|exact Hc|reflexivity]. split.
      * exists c, (leading_digits w). cbn [first_digits]. rewrite Hc.
        split; reflexivity.
      * discriminate.
    + rewrite run_digits_group_fails by (rewrite Hrest; exact Hc).
      split; [exact I|cbn; rewrite Hc; discriminate].
Qed.

(** An optional letter in front of a reader gives a reader. *)
Lemma reader_opt_letter (x : ascii) (k : mstate -> option mstate) :
  is_digit x = false -> reader k ->
  reader (fun st => run (opt (lit x)) st k).
Proof.
  intros Hx Hk st. unfold opt, lit. rewrite run_opt_class.
  destruct (rest st) as [|c w] eqn:Hrest.
  - specialize (Hk st). rewrite Hrest in Hk. exact Hk.
  - destruct (Ascii.eqb_spec x c) as [<-|Hne].
    + destruct (k {| pos := S (pos st); rest := w; caps := caps st |})
        as [out|] eqn:Hout.
      * split; [|discriminate].
        pose proof (proj1 (Hk {| pos := S (pos st); rest := w; caps := caps st |}))
          as Hreads.
        rewrite Hout in Hreads. cbn [rest reads] in *.
        cbn [first_digits]. rewrite Hx. exact Hreads.
      * specialize (Hk st). rewrite Hrest in Hk. exact Hk.
    + specialize (Hk st). rewrite Hrest in Hk. exact Hk.
Qed.

Lemma run_star_total (r : regex) (st : mstate) (k : mstate -> option mstate) :
  (forall st', k st' <> None) -> run (Star true r) st k <> None.
Proof.
  intros Hk. cbn [run]. destruct (String.length (rest st)) as [|fuel];
    [apply Hk|].
  cbv zeta.
  match goal with
  | |- match ?a with _ => _ end <> None => destruct a
  end; [discriminate|apply Hk].
Qed.

Lemma run_opt_total (r : regex) (st : mstate) (k : mstate -> option mstate) :
  (forall st', k st' <> None) -> run (Opt true r) st k <> None.
Proof.
  intros Hk. cbn [run]. cbv zeta.
  match goal with
  | |- match ?a with _ => _ end <> None => destruct a
  end; [discriminate|apply Hk].
Qed.

(** The group [(\d+)] followed by a tail that always matches and has no
    group 1 is a reader. *)
Lemma reader_digits_then (tail : regex) :
  (forall st, run tail st Some <> None) ->
  ~ In 1 (group_ids tail) ->
  reader (fun st => run (Group 1 (plus digit) ;; tail)%re st Some).
Proof.
  intros Htotal Hgroup st. cbv beta.
  change (run (Group 1 (plus digit) ;; tail)%re st Some)
    with (run (Group 1 (plus digit)) st (fun st1 => run tail st1 Some)).
  destruct (rest st) as [|c w] eqn:Hrest.
  - rewrite run_digits_group_fails by (rewrite Hrest; reflexivity).
    split; [exact I|discriminate].
  - destruct (is_digit c) eqn:Hc.
    + destruct (run tail
                  {| pos := pos st + S (String.length (leading_digits w));
                     rest := after_digits w;
                     caps := (1, String c (leading_digits w)) :: caps st |} Some)
        as [out|] eqn:Hout; [|exfalso; exact (Htotal _ Hout)].
      erewrite run_digits_group; [|exact Hrest|exact Hc|exact Hout]. split.
      * exists c, (leading_digits w). cbn [first_digits]. rewrite Hc.
        split; [reflexivity|].
        apply run_sound in Hout. destruct Hout as (st' & Hm & [= <-]).
        rewrite (matches_caps _ _ _ Hm 1 Hgroup). reflexivity.
      * discriminate.
    + rewrite run_digits_group_fails by (rewrite Hrest; exact Hc).
      split; [exact I|cbn; rewrite Hc; discriminate].
Qed.

(** The search for a reader finds the first run of digits of the text, and
    nothing in a text without a digit. *)
Lemma search_from_reader (r : regex) :
  reader (fun st => run r st Some) ->
  forall s i, found_first_digits s (search_from r i s).
Proof.
  intros Hr. induction s as [|x s IH]; intros i; cbn [search_from].
  - destruct (Hr {| pos := i; rest := ""; caps := [] |}) as (Hreads & _).
    cbn [rest] in Hreads.
    destruct (run r _ Some) as [out|]; [|reflexivity].
    destruct Hreads as (c & ds & H & _). discriminate H.
  - destruct (Hr {| pos := i; rest := String x s; caps := [] |}) as (Hreads & Hsome).
    cbn [rest] in Hreads, Hsome.
    destruct (run r _ Some) as [out|].
    + destruct Hreads as (c & ds & H1 & H2). exists c, ds. split; [exact H1|].
      unfold group_text, group_or, group. cbn [groups]. rewrite H2. reflexivity.
    + assert (Hx : is_digit x = false).
      { destruct (is_digit x) eqn:E; [|reflexivity].
        exfalso. apply Hsome; [exact E|reflexivity]. }
      specialize (IH (S i)). unfold found_first_digits in *.
      cbn [first_digits]. rewrite Hx. exact IH.
Qed.

(** [/F?L?(\d+)/] reads the first run of digits. *)
Lemma exec_flPattern (s : string) :
  found_first_digits s (exec Converter.flPattern s).
Proof.
  apply search_from_reader. unfold Converter.flPattern. cbn [run].
  apply (reader_opt_letter "F"); [reflexivity|].
  apply (reader_opt_letter "L"); [reflexivity|].
  exact reader_digits_group.
Qed.

(** So do the patterns for feet, [(\d+)\s*(unit)?]. *)
Lemma exec_digits_unit (unit : regex) (s : string) :
  ~ In 1 (group_ids unit) ->
  found_first_digits s
    (exec (Group 1 (plus digit) ;; star space ;; opt unit)%re s).
Proof.
  intros Hunit. apply search_from_reader. apply reader_digits_then.
  - intros st. cbn [run]. apply run_star_total. intros st'.
    apply (run_opt_total unit st' Some). discriminate.
  - cbn [group_ids star opt space app]. exact Hunit.
Qed.

End FirstDigits.

(** ** Altitudes *)

Section Altitudes.

Context {R : Runtime}.
Import Notions.

(** X17.  The altitude of a text, in the converter to [ceiling] and [floor].
    Beside the words for unlimited and ground, only the first run of digits
    of the text counts: a number above 180 is a flight level whatever unit
    follows it, a number up to 180 is in feet (above ground when the text
    holds AGL or ABOVE GROUND), and a text without a digit is 0 feet. *)
Theorem normalizeAltitude_by_digits (s : string) :
  Converter.normalizeAltitude (VStr s)
  = Ok (let altStr := Text.trim (Text.toUpperCase s) in
        if String.eqb altStr "UNL" || String.eqb altStr "UNLIMITED"
        then Converter.altitude (of_Z 999) "FL" "STD"
        else if String.eqb altStr "GND" || String.eqb altStr "GROUND"
                || String.eqb altStr "SFC"
        then Converter.altitude (of_Z 0) "FT" "AGL"
        else
          match first_digits altStr with
          | EmptyString => Converter.altitude (of_Z 0) "FT" "AMSL"
          | String c ds =>
              let n := Num.parseInt (String c ds) in
              if gt n (of_Z 180) then Converter.altitude n "FL" "STD"
              else Converter.altitude n "FT"
                     (if Text.includes altStr "AGL"
                         || Text.includes altStr "ABOVE GROUND"
                      then "AGL" else "AMSL")
          end).
Proof.
  unfold Converter.normalizeAltitude.
  cbn [typeof call_toString toString bind]. cbv zeta.
  set (altStr := Text.trim (Text.toUpperCase s)).
  destruct (String.eqb altStr "UNL" || String.eqb altStr "UNLIMITED");
    [reflexivity|].
  destruct (String.eqb altStr "GND" || String.eqb altStr "GROUND"
            || String.eqb altStr "SFC"); [reflexivity|].
  pose proof (exec_flPattern altStr) as Hfl.
  assert (Hft : found_first_digits altStr (exec Converter.ftPattern altStr)).
  { apply exec_digits_unit. cbn. intuition discriminate. }
  destruct (exec Converter.flPattern altStr) as [flMatch|];
    destruct (exec Converter.ftPattern altStr) as [ftMatch|];
    cbn [found_first_digits] in Hfl, Hft;
    cbn [Converter.matched Converter.capture andb].
  - destruct Hfl as (c & ds & Hd & ->). destruct Hft as (c' & ds' & Hd' & ->).
    rewrite Hd in *. injection Hd' as <- <-.
    destruct (gt _ _); reflexivity.
  - destruct Hfl as (c & ds & Hd & _). congruence.
  - destruct Hft as (c & ds & Hd & _). congruence.
  - rewrite Hfl. reflexivity.
Qed.

End Altitudes.

Section SectorAltitudes.

Import SectorConverter Notions.

(** X24.  The altitude of a text, in the converter to sectors.  Beside the
    words for unlimited and ground, the result is the number written by the
    first run of digits of the text, whatever surrounds it, and [null] for a
    text without a digit: the branch that divides feet by 100 is never
    taken, so that 24500FT gives 24500. *)
Theorem parseAltitude_first_digits (altStr : string) :
  parseAltitude altStr
  = if Text.is_empty altStr then None
    else
      let str := Text.trim (Text.toUpperCase altStr) in
      if String.eqb str "UNL" || String.eqb str "UNLIMITED" then Some (of_Z 999)
      else if String.eqb str "GND" || String.eqb str "GROUND"
              || String.eqb str "SFC" then None
      else
        match first_digits str with
        | EmptyString => None
        | String c ds => Some (Num.parseInt (String c ds))
        end.
Proof.
  unfold parseAltitude. destruct (Text.is_empty altStr); [reflexivity|].
  cbv zeta. set (str := Text.trim (Text.toUpperCase altStr)).
  destruct (String.eqb str "UNL" || String.eqb str "UNLIMITED"); [reflexivity|].
  destruct (String.eqb str "GND" || String.eqb str "GROUND"
            || String.eqb str "SFC"); [reflexivity|].
  pose proof (exec_flPattern str) as Hfl.
  change Converter.flPattern with flPattern in Hfl.
  assert (Hft : found_first_digits str (exec ftPattern str)).
  { apply exec_digits_unit. cbn. intuition discriminate. }
  destruct (exec flPattern str) as [flMatch|];
    cbn [found_first_digits] in Hfl.
  - destruct Hfl as (c & ds & -> & ->). reflexivity.
  - destruct (exec ftPattern str) as [ftMatch|].
    + destruct Hft as (c & ds & Hd & _). congruence.
    + rewrite Hfl. reflexivity.
Qed.

End SectorAltitudes.

(** ** The sector converter *)

Section PositionIds.

Import SectorConverter Notions.

Lemma matches_opt_inv (g : bool) (r : regex) (st st' : mstate) :
  matches (Opt g r) st st' -> st' = st \/ matches r st st'.
Proof. inversion 1; subst; auto. Qed.

(** The capture of [([A-Z]{3,4})]: three or four upper-case letters. *)
Lemma codePattern_capture (s : string) (m : rmatch) :
  exec codePattern s = Some m ->
  (String.length (group_text m 1) = 3 \/ String.length (group_text m 1) = 4) /\
  every is_upper (group_text m 1) = true.
Proof.
  intros H. apply search_from_sound in H.
  destruct H as (st0 & st' & _ & H & Hgroups).
  unfold group_text, group_or, Regex.group. rewrite Hgroups. clear Hgroups m.
  unfold codePattern in H. cbn [times] in H.
  apply matches_group_inv in H. destruct H as (st4 & H & ->).
  apply matches_seq_inv in H. destruct H as (st3 & H & Hopt).
  apply matches_seq_inv in H. destruct H as (st1 & H1 & H).
  apply matches_seq_inv in H. destruct H as (st2 & H2 & H3).
  apply matches_class_inv in H1. destruct H1 as (c1 & r1 & Hr0 & U1 & ->).
  apply matches_class_inv in H2. destruct H2 as (c2 & r2 & Hr1 & U2 & ->).
  apply matches_class_inv in H3. destruct H3 as (c3 & r3 & Hr2 & U3 & ->).
  cbn [rest pos caps] in *. subst r1 r2. rewrite Hr0.
  apply matches_opt_inv in Hopt. destruct Hopt as [->|H4].
  - cbn [pos caps lookup Nat.eqb].
    replace (S (S (S (pos st0))) - pos st0) with 3 by lia.
    cbn [Text.take String.length every]. rewrite U1, U2, U3. auto.
  - apply matches_class_inv in H4. destruct H4 as (c4 & r4 & Hr3 & U4 & ->).
    cbn [rest pos caps lookup Nat.eqb] in *. subst r3.
    replace (S (S (S (S (pos st0)))) - pos st0) with 4 by lia.
    cbn [Text.take String.length every]. rewrite U1, U2, U3, U4. auto.
Qed.

(** X25.  The position id read from an airspace, when there is one, is a
    code of three or four upper-case letters: so are the nine codes of the
    known sectors, and so is what the pattern captures in the upper-cased
    name (in the id when the name is empty). *)
Theorem extractPositionId_code (id name posId : string) :
  extractPositionId id name = Some posId ->
  (String.length posId = 3 \/ String.length posId = 4) /\
  every is_upper posId = true.
Proof.
  unfold extractPositionId.
  repeat match goal with
         | |- context [if ?c then _ else _] =>
             destruct c; [intros [= <-]; split; [auto|reflexivity]|]
         end.
  destruct (exec codePattern _) as [m|] eqn:Hm; [|discriminate].
  intros [= <-]. exact (codePattern_capture _ _ Hm).
Qed.

End PositionIds.

(** The position of the Coral sector, and the code read from a name. *)
Lemma extractPositionId_code_witness :
  SectorConverter.extractPositionId "YBBB/CORAL" "Coral Sea" = Some "COL" /\
  SectorConverter.extractPositionId "YBBB/BRISBANE CTA A1" "" = Some "YBBB" /\
  every is_upper "YBBB" = true.
Proof.
  split; [reflexivity|]. split; [reflexivity|].
  exact (proj2 (extractPositionId_code "YBBB/BRISBANE CTA A1" "" "YBBB" eq_refl)).
Defined.

(** ** From the PDF-text parser to the sector converter *)

Section SectorFile.

Context {R : Runtime} {H : SectorConverter.Host}.
Import SectorConverter Notions.

Lemma parseAirspaceText_shape (text : string) :
  Forall parsed_shape (DahParser.parseAirspaceText text).
Proof.
  apply Forall_forall. intros a Hin. split; [|split].
  - pose proof (save_bounded _ (DahParser.currentAirspace
                   (fold_left DahParser.step (map Text.trim (Text.lines text))
                      DahParser.initial))
                  (fold_step_bounded (map Text.trim (Text.lines text))
                     DahParser.initial (Forall_nil _))) as Hb.
    unfold DahParser.all_bounded in Hb. rewrite Forall_forall in Hb.
    exact (Hb a Hin).
  - pose proof (parseAirspaceText_opened text) as Ho.
    rewrite Forall_forall in Ho.
    destruct (Ho a Hin) as (line & m & _ & _ & _ & _ & _ & H4).
    rewrite H4. reflexivity.
  - pose proof (parseAirspaceText_opened text) as Ho.
    rewrite Forall_forall in Ho.
    destruct (Ho a Hin) as (line & m & _ & _ & _ & _ & H3 & _).
    rewrite H3. unfold DahParser.open_airspace. cbn [DahParser.locations].
    apply Forall_forall. intros l Hl. apply filter_In in Hl.
    apply Nat.eqb_eq. exact (proj2 Hl).
Qed.

(** A record with a boundary is converted, into one sector with a point
    for each boundary. *)
Lemma convertAirspace_bounded (a : DahParser.airspace) :
  DahParser.boundaries a <> [] ->
  exists v, convertAirspace a = Some v /\
            id v = sector_id a /\
            sector_sizes v = [List.length (DahParser.boundaries a)] /\
            group v = hd_error (DahParser.locations a).
Proof.
  intros Hb. unfold convertAirspace.
  destruct (DahParser.boundaries a) as [|b bs] eqn:E; [congruence|].
  cbn [List.length Nat.eqb]. eexists. split; [reflexivity|].
  split; [reflexivity|]. split; [|reflexivity].
  unfold sector_sizes. cbn [sectors map points List.length].
  rewrite length_map. reflexivity.
Qed.

Lemma add_position_without_frequency (positions : Dict.dict position)
    (a : DahParser.airspace) :
  DahParser.frequencies a = [] -> add_position positions a = positions.
Proof.
  intros Hf. unfold add_position. rewrite Hf.
  destruct (DahParser.controllingAuthority a); reflexivity.
Qed.

Lemma four_not_inherited (l : string) :
  String.length l = 4 -> Dict.is_inherited l = false.
Proof.
  intros Hl. unfold Dict.is_inherited, Dict.inherited. cbn [existsb].
  repeat (apply orb_false_iff; split);
    try reflexivity;
    apply String.eqb_neq; intros ->; discriminate Hl.
Qed.

(** The groups after the locations of a record: those before, and one for
    each location that had none. *)
Lemma fold_add_group (locations : list string) :
  forall groups,
    Forall (fun l => String.length l = 4) locations ->
    forall l,
      Dict.own (fold_left add_group locations groups) l
      = match Dict.own groups l with
        | Some g => Some g
        | None =>
            if existsb (String.eqb l) locations
            then Some {| name := extractLocationName l; colour := "#ffffff" |}
            else None
        end.
Proof.
  induction locations as [|x locations IH]; intros groups Hall l;
    cbn [fold_left existsb].
  - destruct (Dict.own groups l); reflexivity.
  - inversion Hall as [|x' ls Hx Hrest]; subst. rewrite (IH _ Hrest).
    unfold add_group, Dict.get.
    destruct (Dict.own groups x) as [gx|] eqn:Hgx.
    + destruct (String.eqb_spec l x) as [->|Hne];
        [rewrite Hgx; reflexivity|].
      destruct (Dict.own groups l); reflexivity.
    + rewrite (four_not_inherited x Hx).
      destruct (String.eqb_spec l x) as [->|Hne].
      * rewrite own_set_same, Hgx. reflexivity.
      * rewrite own_set_other by exact Hne.
        destruct (Dict.own groups l); reflexivity.
Qed.

Lemma fold_convert_step (rows : list DahParser.airspace) :
  Forall parsed_shape rows ->
  forall out,
    let out' := fold_left convert_step rows out in
    positions out' = positions out /\
    map id (airspace out') = (map id (airspace out) ++ map sector_id rows)%list /\
    map sector_sizes (airspace out')
    = (map sector_sizes (airspace out)
       ++ map (fun a => [List.length (DahParser.boundaries a)]) rows)%list /\
    forall l,
      Dict.own (groups out') l
      = match Dict.own (groups out) l with
        | Some g => Some g
        | None =>
            if existsb (fun a => existsb (String.eqb l) (DahParser.locations a)) rows
            then Some {| name := extractLocationName l; colour := "#ffffff" |}
            else None
        end.
Proof.
  induction 1 as [|a rows (Hb & Hf & Hl) _ IH]; intros out; cbv zeta;
    cbn [fold_left map existsb].
  - rewrite !app_nil_r. repeat split. intros l.
    destruct (Dict.own (groups out) l); reflexivity.
  - destruct (convertAirspace_bounded a Hb) as (v & Hv & Hid & Hsizes & _).
    assert (Hstep : convert_step out a
                    = {| airspace := (airspace out ++ [v])%list;
                         groups := fold_left add_group (DahParser.locations a)
                                     (groups out);
                         positions := positions out |}).
    { unfold convert_step.
      rewrite Hv, add_position_without_frequency by exact Hf. reflexivity. }
    specialize (IH (convert_step out a)). cbv zeta in IH. rewrite Hstep in *.
    destruct IH as (Hp & Hi & Hs & Hg).
    cbn [positions airspace groups] in Hp, Hi, Hs, Hg.
    rewrite map_app in Hi, Hs. cbn [map] in Hi, Hs.
    rewrite Hid in Hi. rewrite Hsizes in Hs. rewrite <- app_assoc in Hi, Hs.
    split; [exact Hp|]. split; [exact Hi|]. split; [exact Hs|].
    intros l. rewrite Hg, (fold_add_group _ _ Hl).
    destruct (Dict.own (groups out) l); [reflexivity|].
    destruct (existsb (String.eqb l) (DahParser.locations a)); reflexivity.
Qed.

(** X26.  The sector file of a parsed text never has a position.  The
    converter adds a position for a record with a controlling authority and a
    frequency, and the PDF-text parser never reads a frequency. *)
Theorem convertToVATGlasses_no_position (text : string) :
  positions (convertToVATGlasses (DahParser.parseAirspaceText text)) = Dict.empty.
Proof.
  exact (proj1 (fold_convert_step _ (parseAirspaceText_shape text)
                  empty_vatglasses)).
Qed.

(** X27.  The sector file of a parsed text keeps every record.  It has one
    airspace for each record the PDF-text parser emits, in the same order,
    named after the record, with one sector that has as many points as the
    record has boundaries; and a location has a group, in white and with
    the name of [extractLocationName], exactly when it is a location of one
    of the records. *)
Theorem convertToVATGlasses_keeps_records (text : string) :
  let rows := DahParser.parseAirspaceText text in
  let out := convertToVATGlasses rows in
  map id (airspace out) = map sector_id rows /\
  map sector_sizes (airspace out)
  = map (fun a => [List.length (DahParser.boundaries a)]) rows /\
  forall l,
    Dict.own (groups out) l
    = if existsb (fun a => existsb (String.eqb l) (DahParser.locations a)) rows
      then Some {| name := extractLocationName l; colour := "#ffffff" |}
      else None.
Proof.
  cbv zeta.
  destruct (fold_convert_step _ (parseAirspaceText_shape text) empty_vatglasses)
    as (_ & Hi & Hs & Hg).
  cbv zeta in Hi, Hs, Hg. split; [exact Hi|]. split; [exact Hs|].
  intros l. rewrite Hg. reflexivity.
Qed.

End SectorFile.

(** ** The validator's verdict *)

Section Verdict.

Context {R : Runtime}.
Import Converter Notions.

Lemma check_field_errors (field : value) (name : string)
    (check : nat -> value -> result (list string)) (e w : list string) :
  check_field field name check = Ok (e, w) ->
  (e = [] <-> array_or_absent field = true).
Proof.
  unfold check_field, array_or_absent.
  destruct (truthy field); cbn [negb orb].
  - destruct field; intros H; try (injection H as <- <-; split; discriminate).
    bind_inv H. injection H as <- <-. split; reflexivity.
  - intros [= <- <-]. split; reflexivity.
Qed.

(** X23.  The verdict of the validator, when it returns.  A file is valid
    exactly when it has no error, that is when at least one of [airspace],
    [positions] and [airports] is present (truthy) and each of the three is
    absent or an array; the warnings play no part in the verdict. *)
Theorem validateVATGlassesData_verdict (data : value) (v : validation) :
  validateVATGlassesData data = Ok v ->
  exists airspace positions airports,
    get data "airspace" = Ok airspace /\
    get data "positions" = Ok positions /\
    get data "airports" = Ok airports /\
    (valid v = true <-> errors v = []) /\
    (valid v = true <->
     (truthy airspace || truthy positions || truthy airports) = true /\
     array_or_absent airspace = true /\
     array_or_absent positions = true /\
     array_or_absent airports = true).
Proof.
  unfold validateVATGlassesData. intros H. bind_inv H.
  destruct a2 as [e1 w1]. bind_inv H. destruct a2 as [e2 w2]. bind_inv H.
  destruct a2 as [e3 w3]. injection H as <-.
  exists a, a0, a1. split; [reflexivity|]. split; [reflexivity|].
  split; [reflexivity|]. cbn [valid errors].
  apply check_field_errors in E2, E3, E4.
  assert (Hvalid : forall l : list string, (List.length l =? 0) = true <-> l = []).
  { intros [|x l]; cbn; split; congruence. }
  split; [apply Hvalid|]. rewrite Hvalid.
  rewrite <- E2, <- E3, <- E4.
  destruct (truthy a), (truthy a0), (truthy a1); cbn [negb andb orb app];
    destruct e1, e2, e3; cbn [app]; intuition congruence.
Qed.

End Verdict.

(** A file whose positions are a text: the validator returns and finds it
    not valid. *)
Lemma validateVATGlassesData_verdict_witness :
  exists v,
    Converter.validateVATGlassesData (R := Samples.sample_runtime)
      Examples.ill_formed_file = Ok v /\
    Converter.valid v = false /\
    Converter.errors v = [ "positions must be an array" ].
Proof.
  destruct (Converter.validateVATGlassesData (R := Samples.sample_runtime)
              Examples.ill_formed_file) as [v|e] eqn:Hv;
    [|vm_compute in Hv; discriminate Hv].
  exists v. split; [reflexivity|].
  destruct (validateVATGlassesData_verdict (R := Samples.sample_runtime)
              Examples.ill_formed_file v Hv) as (a & p & q & _ & _ & _ & _ & _).
  vm_compute in Hv. injection Hv as <-. split; reflexivity.
Defined.

(** ** The entry point of the parser *)

Section EntryPoint.

Context {R : Runtime} {J : Parser.JsonRuntime}.
Import Parser Notions.

Lemma parseStructuredText_returns (content : string) (p : parsedData) :
  exists p', parseStructuredText content p = Ok p'.
Proof.
  unfold parseStructuredText.
  destruct (structured_lines_labels (Text.lines content) (p, None))
    as ([p' current] & -> & _).
  cbn [bind]. destruct current; eexists; reflexivity.
Qed.

Lemma parseGenericFormat_returns (content : string) (p : parsedData) :
  exists p', parseGenericFormat content p = Ok p'.
Proof.
  unfold parseGenericFormat.
  destruct (mapM_total generic_boundary generic_boundary_ok
              (matchAll coordPattern content)) as (bs & -> & _).
  cbn [bind]. destruct (0 <? List.length bs); eexists; reflexivity.
Qed.

(** X11.  The failures of [parseDAHFile].  It fails only on a text detected
    as CSV or as JSON, and then with an [Error] whose message is
    [Failed to parse DAH file: ] followed by the message of the exception
    caught; on a text detected as structured text or as generic it returns
    the records of that parser.  On a text detected as CSV, the message is
    that of the missing data row exactly when fewer than two lines of the
    text are not blank. *)
Theorem parseDAHFile_failures (fileContent : string) :
  (forall e,
     parseDAHFile fileContent = Throw e ->
     (detectFileFormat fileContent = csv \/ detectFileFormat fileContent = json) /\
     exists msg, e = Error ("Failed to parse DAH file: " ++ msg)) /\
  (detectFileFormat fileContent = structured_text ->
   exists p, parseStructuredText fileContent {| airspaces := [] |} = Ok p /\
             parseDAHFile fileContent = Ok (Records p)) /\
  (detectFileFormat fileContent = generic ->
   exists p, parseGenericFormat fileContent {| airspaces := [] |} = Ok p /\
             parseDAHFile fileContent = Ok (Records p)) /\
  (detectFileFormat fileContent = csv ->
   (parseDAHFile fileContent
    = Throw (Error ("Failed to parse DAH file: " ++ message too_few_lines))
    <-> List.length (filter non_blank (Text.lines fileContent)) < 2)).
Proof.
  unfold parseDAHFile.
  destruct (parseStructuredText_returns fileContent {| airspaces := [] |})
    as (ps & Hs).
  destruct (parseGenericFormat_returns fileContent {| airspaces := [] |})
    as (pg & Hg).
  destruct (parseCSVFormat_outcome fileContent {| airspaces := [] |})
    as (Hfew & Henough).
  split; [|split; [|split]].
  - intros e. destruct (detectFileFormat fileContent).
    + destruct (parseCSVFormat _ _); cbn [bind]; intros [= <-].
      split; [left; reflexivity|eexists; reflexivity].
    + rewrite Hs. discriminate.
    + destruct (parseJSONFormat _); cbn [bind]; intros [= <-].
      split; [right; reflexivity|eexists; reflexivity].
    + rewrite Hg. discriminate.
  - intros ->. exists ps. rewrite Hs. split; reflexivity.
  - intros ->. exists pg. rewrite Hg. split; reflexivity.
  - intros ->. split.
    + intros H.
      destruct (Nat.lt_ge_cases
                  (List.length (filter non_blank (Text.lines fileContent))) 2)
        as [Hlt|Hge]; [exact Hlt|].
      destruct (Henough Hge) as [(out & Hout)|Hthrow]; rewrite ?Hout, ?Hthrow in H;
        cbn in H; discriminate H.
    + intros Hlt. rewrite (Hfew Hlt). reflexivity.
Qed.

End EntryPoint.

(** A header line followed by blank lines: detected as CSV, and rejected
    with the wrapped message. *)
Lemma parseDAHFile_failures_witness :
  Parser.parseDAHFile (R := Samples.sample_runtime) (J := Examples.sample_json)
    Samples.header_only_csv
  = Throw (Error "Failed to parse DAH file: CSV file must have headers and at least one data row").
Proof.
  apply (proj2 (proj2 (proj2 (parseDAHFile_failures (R := Samples.sample_runtime)
                                (J := Examples.sample_json)
                                Samples.header_only_csv)))).
  - vm_compute. reflexivity.
  - vm_compute. lia.
Defined.

(** ** The earlier properties at sample inputs *)

(** The record of the Brisbane block has a boundary. *)
Lemma parseAirspaceText_bounded_witness :
  exists a,
    In a (DahParser.parseAirspaceText Samples.brisbane) /\
    DahParser.boundaries a <> [].
Proof.
  eexists. split; [vm_compute; left; reflexivity|].
  apply (parseAirspaceText_bounded Samples.brisbane).
  vm_compute. left. reflexivity.
Defined.

(** The rows (A, 2), (A, 1), (B, 1) are merged into records with distinct
    ids. *)
Lemma mergeAirspaceBoundaries_groups_witness :
  exists out,
    Parser.mergeAirspaceBoundaries Samples.three_rows = Ok out /\
    NoDup (map Parser.id out).
Proof.
  destruct (mergeAirspaceBoundaries_groups Samples.three_rows)
    as (out & Hout & Hnd & _).
  - intros a [<-|[<-|[<-|[]]]]; reflexivity.
  - exists out. split; assumption.
Defined.

(** The DMS token 33 deg 52' 12'' S starts with a digit. *)
Lemma parseCoordinate_digit_first_witness :
  Parser.parseCoordinate (R := Samples.sample_runtime) (VStr Samples.dms_south)
  = Ok (Num.parseFloat (Text.trim Samples.dms_south)).
Proof.
  exact (proj2 (parseCoordinate_digit_first (R := Samples.sample_runtime)
                  "3" _ eq_refl)).
Defined.

(** ** Generated ids and written signs *)

Section CsvWithoutId.

Context {R : Runtime}.
Import Parser Notions.

Lemma code_digit (k : nat) : k < 10 -> Text.code (Text.chr (48 + k)) - 48 = k.
Proof.
  intros H. unfold Text.code, Text.chr.
  rewrite nat_ascii_embedding by lia. lia.
Qed.

Lemma digits_of_value (fuel : nat) :
  forall n acc, n < fuel ->
    numeral_value 0 (Text.digits_of fuel n acc) = numeral_value n acc.
Proof.
  induction fuel as [|fuel IH]; intros n acc Hn; [lia|].
  cbn [Text.digits_of]. cbv zeta.
  assert (Hmod : n mod 10 < 10) by (apply Nat.mod_upper_bound; lia).
  pose proof (Nat.div_mod_eq n 10) as Hdm.
  destruct (Nat.eqb_spec (n / 10) 0) as [Hz|Hnz].
  - cbn [numeral_value]. rewrite code_digit by exact Hmod.
    f_equal. lia.
  - rewrite IH by lia. cbn [numeral_value]. rewrite code_digit by exact Hmod.
    f_equal. lia.
Qed.

Lemma of_nat_inj (a b : nat) : Text.of_nat a = Text.of_nat b -> a = b.
Proof.
  intros H. apply (f_equal (numeral_value 0)) in H.
  unfold Text.of_nat in H. rewrite !digits_of_value in H by lia. exact H.
Qed.

Lemma generated_id_inj (a b : nat) : generated_id a = generated_id b -> a = b.
Proof.
  unfold generated_id. cbn [append]. intros H. injection H as H.
  exact (of_nat_inj a b H).
Qed.

Lemma generated_id_plain (i : nat) :
  Dict.is_inherited (generated_id i) = false /\
  Dict.array_index (generated_id i) = None.
Proof. split; reflexivity. Qed.


Lemma set_fresh {V} (d : Dict.dict V) (k : string) (v : V) :
  Dict.own d k = None -> Dict.set d k v = (d ++ [(k, v)])%list.
Proof.
  induction d as [|[k0 v0] d IH]; cbn; [reflexivity|].
  destruct (String.eqb k k0); [discriminate|].
  intros H. rewrite (IH H). reflexivity.
Qed.

Lemma own_app_other {V} (d : Dict.dict V) (k k' : string) (v : V) :
  k' <> k -> Dict.own (d ++ [(k, v)])%list k' = Dict.own d k'.
Proof.
  intros Hne. induction d as [|[k0 v0] d IH]; cbn.
  - destruct (String.eqb_spec k' k); [contradiction|reflexivity].
  - destruct (String.eqb k' k0); [reflexivity|exact IH].
Qed.

Lemma with_boundaries_same (a : airspace) : with_boundaries a (boundaries a) = a.
Proof. destruct a. reflexivity. Qed.

(** Rows of distinct ids each make a group of their own, in row order. *)
Lemma merge_all_distinct (rows : list airspace) :
  forall d,
    NoDup (map id rows) ->
    (forall a, In a rows ->
       Dict.is_inherited (id a) = false /\ Dict.own d (id a) = None) ->
    merge_all d rows = Ok (d ++ map (fun a => (id a, a)) rows)%list.
Proof.
  induction rows as [|a rows IH]; intros d Hnd Hrows; cbn [merge_all map].
  - rewrite app_nil_r. reflexivity.
  - destruct (Hrows a (or_introl eq_refl)) as (Hin & Hown).
    rewrite (merge_step_returns d a Hin). cbn [bind].
    unfold grown. rewrite Hown, with_boundaries_same.
    rewrite (set_fresh d _ _ Hown).
    inversion Hnd as [|x l Hnotin Hnd']. subst x l.
    rewrite IH.
    + rewrite <- app_assoc. reflexivity.
    + exact Hnd'.
    + intros b Hb. destruct (Hrows b (or_intror Hb)) as (Hb1 & Hb2).
      split; [exact Hb1|].
      rewrite own_app_other; [exact Hb2|].
      intros E. apply Hnotin. rewrite <- E. apply in_map. exact Hb.
Qed.

Lemma values_named (rows : list airspace) :
  (forall a, In a rows -> Dict.array_index (id a) = None) ->
  Dict.values (map (fun a => (id a, a)) rows) = rows.
Proof.
  intros H. unfold Dict.values.
  assert (Hi : Dict.indexed (map (fun a => (id a, a)) rows) = []
               /\ Dict.named (map (fun a => (id a, a)) rows) = rows).
  { induction rows as [|a rows IH]; cbn [map Dict.indexed Dict.named];
      [split; reflexivity|].
    rewrite (H a (or_introl eq_refl)).
    destruct (IH (fun b Hb => H b (or_intror Hb))) as (-> & ->).
    split; reflexivity. }
  destruct Hi as (-> & ->). reflexivity.
Qed.

Lemma sort_short {A} (cmp : A -> A -> number) (l : list A) :
  List.length l <= 1 -> sort cmp l = l.
Proof.
  destruct l as [|a [|b l]]; cbn [List.length]; intros H;
    [reflexivity|reflexivity|lia].
Qed.

(** The post-pass changes nothing in rows of distinct ids that are plain
    names, with at most one point each. *)
Lemma mergeAirspaceBoundaries_distinct (rows : list airspace) :
  NoDup (map id rows) ->
  (forall a, In a rows ->
     Dict.is_inherited (id a) = false /\ Dict.array_index (id a) = None /\
     List.length (boundaries a) <= 1) ->
  mergeAirspaceBoundaries rows = Ok rows.
Proof.
  intros Hnd Hrows. unfold mergeAirspaceBoundaries.
  rewrite (merge_all_distinct rows Dict.empty Hnd).
  - cbn [bind Dict.empty app]. rewrite values_named.
    + f_equal. rewrite <- (map_id rows) at 2. apply map_ext_in.
      intros a Ha. rewrite sort_short by apply (Hrows a Ha).
      apply with_boundaries_same.
    + intros a Ha. apply (Hrows a Ha).
  - intros a Ha. split; [apply (Hrows a Ha)|reflexivity].
Qed.

Lemma col_id_map_header (m : columns) (header : string) :
  names_id header = false -> col_id (map_header m header) = col_id m.
Proof.
  unfold names_id, map_header. cbv zeta. intros ->.
  repeat match goal with
         | |- context [if ?b then _ else _] => destruct b
         end; reflexivity.
Qed.

Lemma col_id_fold (headers : list string) :
  forall m,
    forallb (fun h => negb (names_id h)) headers = true ->
    col_id (fold_left map_header headers m) = col_id m.
Proof.
  induction headers as [|h headers IH]; intros m H; cbn [fold_left forallb] in *;
    [reflexivity|].
  apply andb_true_iff in H. destruct H as (Hh & Hrest).
  apply negb_true_iff in Hh.
  rewrite (IH _ Hrest). apply col_id_map_header. exact Hh.
Qed.

Lemma own_fold_set_cell (cells : list (string * string)) (k : string) :
  forall row,
    (forall c, In c cells -> fst c <> k) ->
    Dict.own (fold_left set_cell cells row) k = Dict.own row k.
Proof.
  induction cells as [|[h v] cells IH]; intros row H; cbn [fold_left];
    [reflexivity|].
  rewrite IH by (intros c Hc; apply H; right; exact Hc).
  unfold set_cell. destruct (String.eqb h "__proto__"); [reflexivity|].
  apply own_set_other. intros E. apply (H (h, v) (or_introl eq_refl)).
  symmetry. exact E.
Qed.

Lemma cell_without_column (headers values : list string) :
  ~ In "null" headers -> cell (row_object headers values) None = None.
Proof.
  intros H. unfold cell, row_object.
  rewrite own_fold_set_cell; [reflexivity|].
  intros [h v] Hc E. cbn [fst] in E. subst h.
  apply H. exact (in_combine_l _ _ _ _ Hc).
Qed.

(** Without an id column, a row that is kept has the generated id of its
    line and at most one point. *)
Lemma parse_row_generated (headers : list string) (columnMap : columns)
    (i : nat) (line : string) :
  col_id columnMap = None -> ~ In "null" headers ->
  if List.length (parseCSVLine line) =? List.length headers
  then exists a, parse_row headers columnMap i line = Ok (Some a) /\
                 id a = generated_id i /\ List.length (boundaries a) <= 1
  else parse_row headers columnMap i line = Ok None.
Proof.
  intros Hid Hnull. unfold parse_row.
  destruct (List.length (parseCSVLine line) =? List.length headers);
    cbn [negb]; [|reflexivity].
  assert (Hcell : cell_or (row_object headers (parseCSVLine line))
                    (col_id columnMap) ("AIRSPACE_" ++ Text.of_nat i)
                  = generated_id i).
  { unfold cell_or. rewrite Hid, (cell_without_column _ _ Hnull). reflexivity. }
  destruct (cell_truthy _ _ && cell_truthy _ _).
  - rewrite !parseCoordinate_string. cbn [bind].
    eexists. split; [reflexivity|]. cbn [id boundaries List.length].
    split; [exact Hcell|lia].
  - cbn [bind]. eexists. split; [reflexivity|]. cbn [id boundaries List.length].
    split; [exact Hcell|lia].
Qed.

Lemma parse_rows_generated (headers : list string) (columnMap : columns)
    (lines : list string) :
  col_id columnMap = None -> ~ In "null" headers ->
  forall i p, exists rows,
    parse_rows headers columnMap i lines p
    = Ok {| airspaces := (airspaces p ++ rows)%list |} /\
    map id rows = map generated_id (accepted_from headers i lines) /\
    Forall (fun a => List.length (boundaries a) <= 1) rows.
Proof.
  intros Hid Hnull. induction lines as [|line ls IH]; intros i p;
    cbn [parse_rows accepted_from].
  - exists []. rewrite app_nil_r. destruct p. repeat split. constructor.
  - pose proof (parse_row_generated headers columnMap i line Hid Hnull) as Hrow.
    destruct (List.length (parseCSVLine line) =? List.length headers).
    + destruct Hrow as (a & -> & Ha & Hb). cbn [bind].
      destruct (IH (S i) (push_airspace p a)) as (rows & -> & Hids & Hshort).
      exists (a :: rows). unfold push_airspace. cbn [airspaces].
      rewrite <- app_assoc. cbn [app map]. rewrite Ha, Hids.
      repeat split. constructor; assumption.
    + rewrite Hrow. cbn [bind]. apply IH.
Qed.

Lemma accepted_from_ge (headers : list string) (lines : list string) :
  forall i j, In j (accepted_from headers i lines) -> i <= j.
Proof.
  induction lines as [|line ls IH]; intros i j; cbn [accepted_from]; [intros []|].
  destruct (_ =? _).
  - intros [<-|H]; [lia|]. apply IH in H. lia.
  - intros H. apply IH in H. lia.
Qed.

Lemma accepted_from_NoDup (headers : list string) (lines : list string) :
  forall i, NoDup (accepted_from headers i lines).
Proof.
  induction lines as [|line ls IH]; intros i; cbn [accepted_from];
    [constructor|].
  destruct (_ =? _); [|apply IH].
  constructor; [|apply IH].
  intros H. apply accepted_from_ge in H. lia.
Qed.

(** X28.  A CSV text without an id column.  When no header holds both
    [airspace] and [id] (and none is the text [null]), the parser returns on
    every text of two non-blank lines or more, and the rows are never
    merged: there is one record for each data row that has as many fields
    as there are headers, in the order of the rows, its id is [AIRSPACE_]
    followed by the index of its line, and it has at most one point. *)
Theorem parseCSVFormat_without_id_column (content : string) :
  2 <= List.length (filter non_blank (Text.lines content)) ->
  forallb (fun h => negb (names_id h) && negb (String.eqb h "null"))
          (csv_headers content) = true ->
  exists out,
    parseCSVFormat content {| airspaces := [] |} = Ok out /\
    map id (airspaces out)
    = map generated_id (accepted_from (csv_headers content) 1 (csv_rows content)) /\
    Forall (fun a => List.length (boundaries a) <= 1) (airspaces out).
Proof.
  intros Hlines Hheaders.
  assert (Hid : col_id (mapColumnNames (csv_headers content)) = None).
  { unfold mapColumnNames. rewrite col_id_fold; [reflexivity|].
    apply forallb_forall. intros h Hh.
    apply (proj1 (forallb_forall _ _) Hheaders) in Hh.
    apply andb_true_iff in Hh. exact (proj1 Hh). }
  assert (Hnull : ~ In "null" (csv_headers content)).
  { intros Hin. apply (proj1 (forallb_forall _ _) Hheaders) in Hin.
    apply andb_true_iff in Hin. destruct Hin as (_ & Hin).
    rewrite String.eqb_refl in Hin. discriminate Hin. }
  destruct (parse_rows_generated (csv_headers content)
              (mapColumnNames (csv_headers content)) (csv_rows content)
              Hid Hnull 1 {| airspaces := [] |})
    as (rows & Hrows & Hids & Hshort).
  cbn [airspaces app] in Hrows.
  exists {| airspaces := rows |}. cbn [airspaces].
  split; [|split; [exact Hids|exact Hshort]].
  unfold parseCSVFormat.
  destruct (Nat.ltb_spec (List.length (filter non_blank (Text.lines content))) 2);
    [lia|].
  cbv zeta. fold (csv_headers content). fold (csv_rows content).
  rewrite Hrows. cbn [bind airspaces].
  rewrite mergeAirspaceBoundaries_distinct; [reflexivity| |].
  - rewrite Hids. apply Finite.Injective_map_NoDup.
    + intros a b. apply generated_id_inj.
    + apply accepted_from_NoDup.
  - intros a Ha.
    assert (Hin : In (id a) (map id rows)) by (apply in_map; exact Ha).
    rewrite Hids in Hin. apply in_map_iff in Hin. destruct Hin as (i & <- & _).
    destruct (generated_id_plain i) as (H1 & H2).
    split; [exact H1|]. split; [exact H2|].
    exact (proj1 (Forall_forall _ _) Hshort a Ha).
Qed.

End CsvWithoutId.

(** The CSV parser at two points of one polygon, under the header
    [id,latitude,longitude]. *)
Lemma parseCSVFormat_without_id_column_witness :
  exists out,
    Parser.parseCSVFormat (R := Samples.sample_runtime) Examples.points_csv
      {| Parser.airspaces := [] |} = Ok out /\
    map Parser.id (Parser.airspaces out) = ["AIRSPACE_1"; "AIRSPACE_2"] /\
    Forall (fun a => List.length (Parser.boundaries a) <= 1) (Parser.airspaces out).
Proof.
  apply (parseCSVFormat_without_id_column (R := Samples.sample_runtime)
           Examples.points_csv).
  - vm_compute. lia.
  - vm_compute. reflexivity.
Defined.

Section WrittenSigns.

Context {R : Runtime}.
Import Parser Notions.

Lemma pow10_positive (e : Z) : (0 < Num.pow10 e)%Q.
Proof.
  unfold Num.pow10. destruct (0 <=? e)%Z eqn:He.
  - change (inject_Z 0 < inject_Z (10 ^ e))%Q. rewrite <- Zlt_Qlt.
    apply Z.pow_pos_nonneg; [lia|]. apply Z.leb_le. exact He.
  - apply Qlt_shift_div_l.
    + change (inject_Z 0 < inject_Z (10 ^ (- e)))%Q. rewrite <- Zlt_Qlt.
      apply Z.pow_pos_nonneg; [lia|]. apply Z.leb_gt in He. lia.
    + rewrite Qmult_0_l. reflexivity.
Qed.

(** The number in front of a text that starts with a digit is finite and
    not negative, and a minus sign before it gives its opposite. *)
Lemma parseFloat_written_sign (c : ascii) (s : string) :
  is_digit c = true ->
  exists q,
    (0 <= q)%Q /\
    Num.parseFloat (String c s) = Fin (Qred q) /\
    Num.parseFloat (String "-" (String c s)) = Fin (Qred (- q)).
Proof.
  intros H. pose proof (digit_code c H) as Hc.
  assert (Hinf : startsWith "Infinity" (String c s) = false).
  { cbn [startsWith]. replace (Ascii.eqb "I" c) with false; [reflexivity|].
    symmetry. rewrite Ascii.eqb_sym. apply (code_inj_ne c 73); [lia|]. lia. }
  unfold Num.parseFloat.
  change (trimStart (String "-" (String c s))) with (String "-" (String c s)).
  cbn [trimStart]. rewrite (digit_not_space c H).
  change (read_sign (String "-" (String c s))) with (true, String c s).
  rewrite (read_sign_digit c _ H), Hinf.
  assert (Hread : read_digits dec_val 10 0 0 (String c s)
                 = read_digits dec_val 10 (0 * 10 + digit_val c) 1 s).
  { cbn [read_digits]. unfold dec_val at 1. rewrite H. reflexivity. }
  pose proof (read_digits_count dec_val 10 s (0 * 10 + digit_val c)%Z 1) as Hcount.
  pose proof (read_digits_nonneg s (0 * 10 + digit_val c)%Z 1) as Hip.
  rewrite <- Hread in Hcount, Hip. clear Hread.
  destruct (read_digits dec_val 10 0 0 (String c s)) as [[ip ni] s2].
  cbn [fst snd] in Hcount, Hip.
  assert (Hfp : (0 <= fst (fst (match s2 with
                                 | String "." s' => read_digits dec_val 10 0 0 s'
                                 | _ => (0%Z, O, s2)
                                 end)))%Z).
  { destruct s2 as [|x s2']; [cbn; lia|].
    destruct (Ascii.eqb_spec x ".") as [->|Hx].
    - apply read_digits_nonneg. lia.
    - destruct x as [[] [] [] [] [] [] [] []]; cbn; try lia;
        exfalso; apply Hx; reflexivity. }
  destruct (match s2 with String "." s' => _ | _ => _ end) as [[fp nf] s3].
  cbn [fst] in Hfp.
  destruct ni; [lia|].
  eexists. split; [|split; reflexivity].
  assert (0 <= inject_Z ip)%Q.
  { change (inject_Z 0 <= inject_Z ip)%Q. rewrite <- Zle_Qle. apply Hip.
    unfold digit_val. lia. }
  assert (0 <= inject_Z fp)%Q
    by (change (inject_Z 0 <= inject_Z fp)%Q; rewrite <- Zle_Qle; exact Hfp).
  pose proof (pow10_positive (- Z.of_nat nf)) as Hp1.
  pose proof (pow10_positive (Num.read_exponent s3)) as Hp2.
  apply Qmult_le_0_compat; [|apply Qlt_le_weak; exact Hp2].
  assert (0 <= inject_Z fp * Num.pow10 (- Z.of_nat nf))%Q
    by (apply Qmult_le_0_compat; [assumption|apply Qlt_le_weak; exact Hp1]).
  lra.
Qed.


Lemma trimEnd_digit_first (c : ascii) (s : string) :
  is_digit c = true -> exists t, trimEnd (String c s) = String c t.
Proof.
  intros H. cbn [trimEnd]. destruct (trimEnd s); rewrite ?(digit_not_space c H);
    eexists; reflexivity.
Qed.

Lemma trim_signed (g h : string) :
  signed_numeral g ->
  exists c t, is_digit c = true /\
    (if startsWith "-" g
     then trim (g ++ h) = String "-" (String c t)
     else trim (g ++ h) = String c t).
Proof.
  intros (c & t & Hc & [->| ->]).
  - destruct (trim_digit_first c (t ++ h) Hc) as (t' & Ht).
    exists c, t'. split; [exact Hc|].
    replace (startsWith "-" (String c t)) with false; [exact Ht|].
    cbn [startsWith]. symmetry. apply andb_false_iff. left.
    rewrite Ascii.eqb_sym.
    pose proof (digit_code c Hc). apply (code_inj_ne c 45); lia.
  - destruct (trimEnd_digit_first c (t ++ h) Hc) as (t' & Ht).
    exists c, t'. split; [exact Hc|].
    change (startsWith "-" (String "-" (String c t))) with true. cbv iota.
    unfold trim.
    change (trimStart (String "-" (String c t) ++ h))
      with (String "-" (String c (t ++ h))).
    change (trimEnd (String "-" (String c (t ++ h))))
      with (match trimEnd (String c (t ++ h)) with
            | EmptyString => if is_space "-" then EmptyString else String "-" EmptyString
            | x => String "-" x
            end).
    rewrite Ht. reflexivity.
Qed.

(** A number followed by anything is read in the decimal branch, with the
    sign it is written with. *)
Lemma parseCoordinate_signed (g h : string) :
  signed_numeral g ->
  exists q,
    parseCoordinate (VStr (g ++ h)) = Ok (Fin q) /\
    if startsWith "-" g then (q <= 0)%Q else (0 <= q)%Q.
Proof.
  intros Hg. destruct (trim_signed g h Hg) as (c & t & Hc & Ht).
  destruct (parseFloat_written_sign c t Hc) as (q & Hq & Hplus & Hminus).
  destruct (startsWith "-" g).
  - exists (Qred (- q)). split.
    + rewrite parseCoordinate_numeric_prefix; rewrite Ht, Hminus; reflexivity.
    + rewrite Qred_correct. lra.
  - exists (Qred q). split.
    + rewrite parseCoordinate_numeric_prefix; rewrite Ht, Hplus; reflexivity.
    + rewrite Qred_correct. exact Hq.
Qed.

(** What the group around [-?\d+\.?\d* ] captures starts with a digit, or
    with a minus sign and a digit. *)
Lemma decimal_group_capture (i : nat) (st st1 : mstate) :
  matches (Group i decimalPattern) st st1 ->
  exists g, signed_numeral g /\ lookup i (caps st1) = Some g.
Proof.
  intros H. apply matches_group_inv in H. destruct H as (sa & Hm & ->).
  cbn [caps lookup]. rewrite Nat.eqb_refl.
  eexists. split; [|reflexivity].
  unfold decimalPattern in Hm.
  apply matches_seq_inv in Hm. destruct Hm as (s1 & Hsign & Hm).
  apply matches_seq_inv in Hm. destruct Hm as (s2 & Hdigits & Hm).
  apply matches_pos in Hm.
  apply matches_plus_class in Hdigits.
  destruct Hdigits as (c & d & Hc & _ & Hrest & Hpos & _).
  apply matches_opt_inv in Hsign. destruct Hsign as [->|Hsign].
  - destruct (pos sa - pos st) as [|k] eqn:Hk; [lia|].
    exists c, (take k (d ++ rest s2)).
    split; [exact Hc|]. left. rewrite Hrest. reflexivity.
  - apply matches_class_inv in Hsign.
    destruct Hsign as (x & s' & Hst & Hx & ->). cbn [rest pos] in *.
    apply Ascii.eqb_eq in Hx. subst x.
    destruct (pos sa - pos st) as [|[|k]] eqn:Hk; [lia|lia|].
    exists c, (take k (d ++ rest s2)).
    split; [exact Hc|]. right. rewrite Hst, Hrest. reflexivity.
Qed.

Lemma group_text_of (m : rmatch) (i : nat) (g : string) :
  lookup i (groups m) = Some g -> group_text m i = g.
Proof.
  unfold group_text, group_or, Regex.group. intros ->.
  destruct g; reflexivity.
Qed.

(** The two numbers of a match of the coordinates pattern. *)
Lemma coordinatesPattern_numbers (line : string) (m : rmatch) :
  exec coordinatesPattern line = Some m ->
  signed_numeral (group_text m 1) /\ signed_numeral (group_text m 3).
Proof.
  intros H. apply search_from_sound in H.
  destruct H as (st0 & st' & _ & H & Hgroups).
  unfold coordinatesPattern in H.
  apply matches_seq_inv in H. destruct H as (s1 & H1 & Htail1).
  pose proof Htail1 as H.
  apply matches_seq_inv in H. destruct H as (s2 & _ & H).
  apply matches_seq_inv in H. destruct H as (s3 & _ & H).
  apply matches_seq_inv in H. destruct H as (s4 & _ & H).
  apply matches_seq_inv in H. destruct H as (s5 & H3 & Htail3).
  apply decimal_group_capture in H1, H3.
  destruct H1 as (g1 & Hg1 & Hc1). destruct H3 as (g3 & Hg3 & Hc3).
  split.
  - rewrite (group_text_of m 1 g1); [exact Hg1|].
    rewrite Hgroups, (matches_caps _ _ _ Htail1); [exact Hc1|].
    cbn. intuition lia.
  - rewrite (group_text_of m 3 g3); [exact Hg3|].
    rewrite Hgroups, (matches_caps _ _ _ Htail3); [exact Hc3|].
    cbn. intuition lia.
Qed.

(** X29.  The signs of the structured-text parser.  When a line gives a
    point, its latitude and its longitude are numbers, never [NaN], with
    the sign they are written with: negative or zero when the number
    matched starts with a minus sign, positive or zero otherwise.  The
    hemisphere letter the pattern asks for after each number takes no part:
    33.5 S is read as 33.5. *)
Theorem extractCoordinates_written_sign (line : string) (b : boundary) :
  extractCoordinates line = Ok (Some b) ->
  exists m,
    exec coordinatesPattern line = Some m /\
    (if startsWith "-" (group_text m 1)
     then not_positive (latitude b) else not_negative (latitude b)) /\
    (if startsWith "-" (group_text m 3)
     then not_positive (longitude b) else not_negative (longitude b)).
Proof.
  unfold extractCoordinates.
  destruct (exec coordinatesPattern line) as [m|] eqn:Hm; [|discriminate].
  destruct (coordinatesPattern_numbers line m Hm) as (H1 & H3).
  destruct (parseCoordinate_signed _ (group_text m 2) H1) as (lat & -> & Hlat).
  destruct (parseCoordinate_signed _ (group_text m 4) H3) as (lon & -> & Hlon).
  cbn [bind]. intros [= <-]. exists m.
  cbn [latitude longitude]. split; [reflexivity|].
  split.
  - destruct (startsWith "-" (group_text m 1)); exact Hlat.
  - destruct (startsWith "-" (group_text m 3)); exact Hlon.
Qed.

End WrittenSigns.

(** The reader of coordinates at a point of the southern hemisphere,
    [33.5 S 151.2 E]: the latitude read is not negative. *)
Lemma extractCoordinates_written_sign_witness :
  exists b,
    Parser.extractCoordinates (R := Samples.sample_runtime) Examples.southern_point
    = Ok (Some b) /\
    exists m,
      exec Parser.coordinatesPattern Examples.southern_point = Some m /\
      (if startsWith "-" (group_text m 1)
       then Notions.not_positive (Parser.latitude b)
       else Notions.not_negative (Parser.latitude b)) /\
      (if startsWith "-" (group_text m 3)
       then Notions.not_positive (Parser.longitude b)
       else Notions.not_negative (Parser.longitude b)).
Proof.
  eexists. split; [vm_compute; reflexivity|].
  apply (extractCoordinates_written_sign (R := Samples.sample_runtime)
           Examples.southern_point).
  vm_compute. reflexivity.
Defined.

(* ================================================================== *)
(** * The matcher misses no match *)

Section Completeness.

Import Notions.

(** A match moves forward by the length of what it consumes. *)
Lemma matches_length (r : regex) (st st' : mstate) :
  matches r st st' ->
  pos st + String.length (rest st) = pos st' + String.length (rest st').
Proof.
  induction 1; cbn [pos rest] in *; try lia.
  rewrite H. cbn [String.length]. lia.
Qed.

Lemma matches_consuming (r : regex) (st st' : mstate) :
  matches r st st' -> consuming r = true -> pos st < pos st'.
Proof.
  induction 1; cbn [consuming pos] in *; intros Hc; try discriminate Hc.
  - lia.
  - apply orb_true_iff in Hc. apply matches_pos in H, H0.
    destruct Hc as [Hc|Hc]; [specialize (IHmatches1 Hc)|specialize (IHmatches2 Hc)]; lia.
  - apply andb_true_iff in Hc. apply IHmatches, Hc.
  - apply andb_true_iff in Hc. apply IHmatches, Hc.
  - apply IHmatches, Hc.
Qed.


(** Whatever match a pattern has, the matcher finds one when the
    continuation accepts where that match ends. *)
Lemma run_complete (r : regex) :
  plain_loops r = true ->
  forall st st' k,
    matches r st st' -> k st' <> None -> run r st k <> None.
Proof.
  induction r as [|p|r1 IH1 r2 IH2|r1 IH1 r2 IH2|g r IH|g r IH|i r IH| |];
    intros Hr st st' k Hm Hk; cbn [plain_loops] in Hr; cbn [run].
  - inversion Hm; subst. exact Hk.
  - apply matches_class_inv in Hm. destruct Hm as (c & s' & -> & -> & ->).
    exact Hk.
  - apply andb_true_iff in Hr. destruct Hr as (Hr1 & Hr2).
    apply matches_seq_inv in Hm. destruct Hm as (st1 & H1 & H2).
    apply (IH1 Hr1 st st1); [exact H1|].
    apply (IH2 Hr2 st1 st'); assumption.
  - apply andb_true_iff in Hr. destruct Hr as (Hr1 & Hr2).
    destruct (run r1 st k) as [o|] eqn:E1; [discriminate|].
    inversion Hm; subst.
    + exfalso. apply (IH1 Hr1 st st' k); assumption.
    + apply (IH2 Hr2 st st' k); assumption.
  - apply andb_true_iff in Hr. destruct Hr as (Hc & Hr).
    generalize (Nat.le_refl (String.length (rest st))).
    generalize (String.length (rest st)) at 2 3 as fuel. intros fuel.
    revert st Hm. induction fuel as [|fuel IHf]; intros st Hm Hlen.
    + inversion Hm; subst; [exact Hk|].
      exfalso.
      match goal with
      | H : matches r st ?st1 |- _ =>
          pose proof (matches_consuming _ _ _ H Hc);
          pose proof (matches_length _ _ _ H)
      end.
      lia.
    + cbv zeta. inversion Hm; subst.
      * destruct g.
        -- match goal with
           | |- match ?a with _ => _ end <> None => destruct a; [discriminate|exact Hk]
           end.
        -- destruct (k st'); [discriminate|]. exfalso. apply Hk. reflexivity.
      * match goal with
        | H1 : matches r st ?st1, H2 : matches (Star g r) ?st1 st' |- _ =>
            pose proof (matches_consuming _ _ _ H1 Hc) as Hpos;
            pose proof (matches_length _ _ _ H1) as Hl;
            assert (Hagain :
              run r st (fun st0 => if pos st <? pos st0 then
                 (fix loop (fuel : nat) (st : mstate) {struct fuel} : option mstate :=
                    match fuel with
                    | O => k st
                    | S fuel' =>
                        let again (_ : unit) :=
                          run r st (fun st' =>
                            if pos st <? pos st' then loop fuel' st' else None) in
                        if g then
                          match again tt with Some out => Some out | None => k st end
                        else
                          match k st with Some out => Some out | None => again tt end
                    end) fuel st0 else None) <> None)
              by (apply (IH Hr st st1); [exact H1|];
                  replace (pos st <? pos st1) with true
                    by (symmetry; apply Nat.ltb_lt; exact Hpos);
                  apply IHf; [exact H2|lia])
        end.
        destruct g.
        -- match goal with
           | |- match ?a with _ => _ end <> None =>
               destruct a; [discriminate|contradiction Hagain; reflexivity]
           end.
        -- destruct (k st); [discriminate|exact Hagain].
  - apply andb_true_iff in Hr. destruct Hr as (Hc & Hr).
    cbv zeta. apply matches_opt_inv in Hm. destruct Hm as [->|Hm].
    + destruct g.
      * match goal with
        | |- match ?a with _ => _ end <> None => destruct a; [discriminate|exact Hk]
        end.
      * destruct (k st); [discriminate|]. exfalso. apply Hk. reflexivity.
    + pose proof (matches_consuming _ _ _ Hm Hc) as Hpos.
      assert (Honce : run r st (fun st0 => if pos st <? pos st0 then k st0 else None)
                      <> None).
      { apply (IH Hr st st'); [exact Hm|].
        replace (pos st <? pos st') with true
          by (symmetry; apply Nat.ltb_lt; exact Hpos).
        exact Hk. }
      destruct g.
      * match goal with
        | |- match ?a with _ => _ end <> None =>
            destruct a; [discriminate|contradiction Honce; reflexivity]
        end.
      * destruct (k st); [discriminate|exact Honce].
  - apply matches_group_inv in Hm. destruct Hm as (st1 & Hm & ->).
    apply (IH Hr st st1); assumption.
  - inversion Hm; subst.
    match goal with H : pos st' = 0 |- _ => rewrite H end. exact Hk.
  - inversion Hm; subst.
    match goal with H : rest st' = _ |- _ => rewrite H end. exact Hk.
Qed.


Lemma search_from_none (r : regex) (s : string) :
  plain_loops r = true ->
  forall i, search_from r i s = None ->
  forall j st', j <= String.length s ->
    ~ matches r {| pos := i + j; rest := Text.drop j s; caps := [] |} st'.
Proof.
  intros Hr. induction s as [|c s IH]; intros i H j st' Hj Hm;
    cbn [search_from] in H;
    destruct (run r {| pos := i; rest := _; caps := [] |} Some) eqn:E;
    try discriminate H.
  - cbn [String.length] in Hj. assert (j = 0) by lia. subst j.
    rewrite Nat.add_0_r in Hm. cbn [Text.drop] in Hm.
    apply (run_complete r Hr _ _ Some Hm); [discriminate|exact E].
  - destruct j as [|j].
    + rewrite Nat.add_0_r in Hm. cbn [Text.drop] in Hm.
      apply (run_complete r Hr _ _ Some Hm); [discriminate|exact E].
    + cbn [Text.drop String.length] in Hm, Hj.
      replace (i + S j) with (S i + j) in Hm by lia.
      apply (IH (S i) H j st'); [lia|exact Hm].
Qed.

Lemma search_from_found (r : regex) (s : string) :
  forall i m, search_from r i s = Some m ->
  exists j st', j <= String.length s /\
    matches r {| pos := i + j; rest := Text.drop j s; caps := [] |} st'.
Proof.
  induction s as [|c s IH]; intros i m H; cbn [search_from] in H;
    destruct (run r {| pos := i; rest := _; caps := [] |} Some) as [st|] eqn:E;
    try discriminate H.
  - apply run_sound in E. destruct E as (st' & Hm & _).
    exists 0, st'. rewrite Nat.add_0_r. split; [cbn; lia|exact Hm].
  - apply run_sound in E. destruct E as (st' & Hm & _).
    exists 0, st'. rewrite Nat.add_0_r. split; [cbn; lia|exact Hm].
  - apply IH in H. destruct H as (j & st' & Hj & Hm).
    exists (S j), st'. cbn [Text.drop String.length].
    replace (i + S j) with (S i + j) by lia. split; [lia|exact Hm].
Qed.

(** [s.match(r)] is [null] exactly when no part of the text matches. *)
Lemma exec_none_iff (r : regex) (s : string) :
  plain_loops r = true -> (exec r s = None <-> ~ occurs r s).
Proof.
  intros Hr. unfold exec, occurs. split.
  - intros H (i & st' & Hi & Hm).
    exact (search_from_none r s Hr 0 H i st' Hi Hm).
  - intros H. destruct (search_from r 0 s) as [m|] eqn:E; [|reflexivity].
    exfalso. apply H. apply search_from_found in E.
    destruct E as (j & st' & Hj & Hm). exists j, st'. split; assumption.
Qed.

End Completeness.

(** ** The shapes of a coordinate text *)

Section CoordinateShapes.

Context {R : Runtime}.
Import Notions.

Lemma read_sign_unsigned (t : string) : snd (read_sign t) = unsigned t.
Proof.
  destruct t as [|c u]; [reflexivity|].
  destruct c as [[] [] [] [] [] [] [] []]; reflexivity.
Qed.

(** What [parseFloat] finds after the sign. *)
Lemma magnitude_NaN (negative : bool) (u : string) :
  isNaN
    (if startsWith "Infinity" u then Inf negative
     else
       let '(ip, ni, s2) := read_digits dec_val 10 0 0 u in
       let '(fp, nf, s3) :=
         match s2 with
         | String "." s' => read_digits dec_val 10 0 0 s'
         | _ => (0%Z, O, s2)
         end in
       match ni, nf with
       | O, O => NaN
       | _, _ =>
           let mant := (inject_Z ip + inject_Z fp * pow10 (- Z.of_nat nf))%Q in
           let q := (mant * pow10 (read_exponent s3))%Q in
           Fin (Qred (if negative then - q else q))
       end)
  = negb (startsWith "Infinity" u
          || match u with
             | String c u' =>
                 is_digit c
                 || (Ascii.eqb c "."
                     && match u' with
                        | String d _ => is_digit d
                        | EmptyString => false
                        end)
             | EmptyString => false
             end).
Proof.
  destruct (startsWith "Infinity" u); [reflexivity|]. cbn [orb].
  destruct u as [|c u']; [reflexivity|].
  cbn [read_digits]. unfold dec_val at 1.
  destruct (is_digit c) eqn:Hc.
  - pose proof (read_digits_count dec_val 10 u' (0 * 10 + digit_val c)%Z 1) as Hn.
    destruct (read_digits dec_val 10 (0 * 10 + digit_val c) 1 u') as [[ip ni] s2].
    cbn [fst snd] in Hn.
    destruct (match s2 with String "." s' => _ | _ => _ end) as [[fp nf] s3].
    destruct ni; [lia|]. reflexivity.
  - cbn [orb]. destruct (Ascii.eqb_spec c ".") as [->|Hdot].
    + cbn [andb]. destruct u' as [|d u'']; [reflexivity|].
      cbn [read_digits]. unfold dec_val at 1.
      destruct (is_digit d) eqn:Hd; [|reflexivity].
      pose proof (read_digits_count dec_val 10 u'' (0 * 10 + digit_val d)%Z 1) as Hn.
      destruct (read_digits dec_val 10 (0 * 10 + digit_val d) 1 u'') as [[fp nf] s3].
      cbn [fst snd] in Hn. destruct nf; [lia|]. reflexivity.
    + cbn [andb].
      destruct c as [[] [] [] [] [] [] [] []]; try reflexivity.
      exfalso. apply Hdot. reflexivity.
Qed.

(** [parseFloat] gives [NaN] exactly when the text, white space in front
    apart, does not start with a numeral. *)
Lemma parseFloat_NaN_iff (t : string) :
  isNaN (Num.parseFloat t) = negb (starts_with_numeral (trimStart t)).
Proof.
  unfold Num.parseFloat, starts_with_numeral.
  pose proof (read_sign_unsigned (trimStart t)) as Hu.
  destruct (read_sign (trimStart t)) as [negative s1]. cbn [snd] in Hu.
  rewrite <- Hu. apply magnitude_NaN.
Qed.


Lemma trimStart_trim (s : string) : trimStart (trim s) = trim s.
Proof.
  unfold trim. apply trimStart_of_clean, trimEnd_clean, trimStart_clean.
Qed.

(** C8, amended.  On every string [parseCoordinate] returns a number
    without throwing, and the number is not [NaN].  It is 0 when the
    trimmed text has neither shape as the function reads them: it does not
    start with a decimal numeral, and no part of it matches the DMS
    pattern. *)
Theorem parseCoordinate_total (s : string) :
  exists n : number,
    Parser.parseCoordinate (VStr s) = Ok n /\
    isNaN n = false /\
    (starts_with_numeral (Text.trim s) = false ->
     ~ occurs Parser.dmsPattern (Text.trim s) ->
     n = of_Z 0).
Proof.
  destruct (parseCoordinate_fall_through s) as (n & Hn & Hnan & Hzero).
  exists n. split; [exact Hn|]. split; [exact Hnan|].
  intros Hnum Hdms. apply Hzero.
  - rewrite parseFloat_NaN_iff, trimStart_trim, Hnum. reflexivity.
  - apply exec_none_iff; [reflexivity|exact Hdms].
Qed.

End CoordinateShapes.

(** C8, the text that fails.  [12abc] is not a decimal literal and holds
    no DMS token, yet [parseCoordinate] returns 12, the numeral it starts
    with, not 0. *)
Lemma parseCoordinate_prefix_not_zero :
  ~ Notions.occurs Samples.decimal_literal "12abc" /\
  ~ Notions.occurs Parser.dmsPattern "12abc" /\
  Parser.parseCoordinate (R := Samples.sample_runtime) (VStr "12abc")
  = Ok (of_Z 12) /\
  of_Z 12 <> of_Z 0.
Proof.
  split; [apply exec_none_iff; vm_compute; reflexivity|].
  split; [apply exec_none_iff; vm_compute; reflexivity|].
  split; [vm_compute; reflexivity|].
  vm_compute. discriminate.
Qed.

(** C8 at the text [abc], which has neither shape. *)
Lemma parseCoordinate_total_witness :
  exists n,
    Parser.parseCoordinate (R := Samples.sample_runtime) (VStr "abc") = Ok n /\
    n = of_Z 0.
Proof.
  destruct (parseCoordinate_total (R := Samples.sample_runtime) "abc")
    as (n & Hn & _ & Hzero).
  exists n. split; [exact Hn|].
  apply Hzero; [vm_compute; reflexivity|].
  apply exec_none_iff; vm_compute; reflexivity.
Defined.

(** ** Converting a converted record again *)

Section Reapplication.

Context {R : Runtime}.
Import Converter Notions.

(** What [convertAirspace] returns: a record with an id and a name that
    are truthy, points of the shape lat/lon and optional properties. *)
Lemma convertAirspace_record (e : entropy) (a r : value) :
  convertAirspace e a = Ok r ->
  exists id0 id name type boundaries extras,
    get a "id" = Ok id0 /\
    id = or_else id0 (VStr (generateId e "AIRSPACE")) /\
    r = converted_record id name type boundaries extras /\
    truthy id = true /\ truthy name = true /\
    Forall is_converted_boundary boundaries /\
    optional_only extras.
Proof.
  intros Hr.
  destruct (convertAirspace_shape e a r Hr)
    as (id0 & name & type & bs & extras & Hget & -> & Hbs & Hex).
  destruct (convertAirspace_named e a _ Hr) as (_ & (p2 & x2 & E2 & O2 & T2)).
  unfold converted_record in E2. injection E2 as <-.
  cbn [own app String.eqb Ascii.eqb Bool.eqb] in O2. injection O2 as <-.
  exists id0, (or_else id0 (VStr (generateId e "AIRSPACE"))), name, type, bs, extras.
  split; [exact Hget|]. split; [reflexivity|]. split; [reflexivity|].
  split.
  { apply truthy_or_else. cbn [truthy]. rewrite generateId_filled. reflexivity. }
  repeat split; assumption.
Qed.

(** A record of that shape converted again: the id and the name stay, the
    type is normalised again, the limits are gone, and each point, read
    through [latitude] and [longitude], becomes (0, 0). *)
Lemma convertAirspace_again (e : entropy) (id name : value) (type : string)
    (boundaries : list value) (extras : list (string * value)) :
  truthy id = true -> truthy name = true ->
  Forall is_converted_boundary boundaries ->
  optional_only extras ->
  exists type' extras',
    normalizeAirspaceType (VStr type) = Ok type' /\
    optional_only extras' /\
    convertAirspace e (converted_record id name type boundaries extras)
    = Ok (converted_record id name type'
            (map (fun _ => converted_boundary (of_Z 0) (of_Z 0)) boundaries)
            extras').
Proof.
  intros Tid Tname Hbs Hex.
  destruct (normalizeAirspaceType_string type) as (type' & Ht).
  exists type'.
  unfold convertAirspace, converted_record.
  rewrite !get_of_object.
  cbn [own app String.eqb Ascii.eqb Bool.eqb bind].
  rewrite Ht. cbn [bind].
  rewrite !(own_optional_only extras) by (assumption || reflexivity).
  cbn [truthy bind].
  assert (Hlen : exists some, length_positive (VArr boundaries) = Ok some
                              /\ (some = false -> boundaries = [])).
  { unfold length_positive. cbn [get String.eqb Ascii.eqb Bool.eqb bind].
    eexists. split; [reflexivity|].
    destruct boundaries; [reflexivity|]. intros H. vm_compute in H. discriminate H. }
  destruct Hlen as (some & -> & Hsome). cbn [bind].
  unfold or_else. rewrite Tid, Tname.
  destruct some;
    [unfold call_map; rewrite (mapM_convertBoundary_converted _ Hbs)
    |rewrite (Hsome eq_refl)];
    cbn [bind map];
    (eexists; split; [reflexivity|]; split; cycle 1; [reflexivity|]);
    repeat apply optional_only_app; apply optional_only_optional; reflexivity.
Qed.


(** The validator on a file of one record that has an id with a text and a
    name: valid, no error, and no warning but the one for missing
    boundaries. *)
Lemma validate_record (id name : value) (type label : string)
    (boundaries : list value) (extras : list (string * value)) :
  truthy id = true -> truthy name = true -> toString id = Ok label ->
  validateVATGlassesData
    (VObj [ ("airspace",
             VArr [ converted_record id name type boundaries extras ]) ])
  = Ok {| valid := true; errors := [];
          warnings := match boundaries with
                      | [] => [ "Airspace " ++ label ++ " has no boundaries" ]
                      | _ :: _ => []
                      end |}.
Proof.
  intros Tid Tname Hlabel.
  unfold validateVATGlassesData, converted_record.
  cbn [get own app String.eqb Ascii.eqb Bool.eqb bind truthy negb andb].
  unfold check_field at 1.
  cbn [truthy check_each check_airspace get own app String.eqb Ascii.eqb Bool.eqb
       bind negb].
  unfold length_is_zero. cbn [get String.eqb Ascii.eqb Bool.eqb bind].
  unfold interpolate. rewrite Tid, Tname, Hlabel.
  destruct boundaries; reflexivity.
Qed.

(** C9.  A record that [convertAirspace] produced is converted again
    without an exception, whatever the first input was, and the result is a
    record of the same structure: the same id and the same name, both
    truthy, the type normalised again, as many points as before, each of
    the shape lat/lon (read through [latitude] and [longitude], which a
    converted point does not have, they are all (0, 0)), and optional
    properties only.  When the id of the first input is not an object (a
    parsed airspace has a string there) the validator returns on the result
    with [valid] true, no error, and no warning but the one for missing
    boundaries when there is no point.  (The validator writes the id into
    that warning, which an object with a [toString] property of its own
    would make throw.) *)
Theorem convertAirspace_reapplied (e1 e2 : entropy) (a r : value) :
  convertAirspace e1 a = Ok r ->
  exists id name type type' boundaries extras extras',
    r = converted_record id name type boundaries extras /\
    truthy id = true /\ truthy name = true /\
    normalizeAirspaceType (VStr type) = Ok type' /\
    Forall is_converted_boundary boundaries /\
    optional_only extras' /\
    convertAirspace e2 r
    = Ok (converted_record id name type'
            (map (fun _ => converted_boundary (of_Z 0) (of_Z 0)) boundaries)
            extras') /\
    ((forall id0, get a "id" = Ok id0 -> primitive id0 = true) ->
     exists label,
       toString id = Ok label /\
       validateVATGlassesData
         (VObj [ ("airspace",
                  VArr [ converted_record id name type'
                           (map (fun _ => converted_boundary (of_Z 0) (of_Z 0))
                                boundaries)
                           extras' ]) ])
       = Ok {| valid := true; errors := [];
               warnings := match boundaries with
                           | [] => [ "Airspace " ++ label ++ " has no boundaries" ]
                           | _ :: _ => []
                           end |}).
Proof.
  intros Hr.
  destruct (convertAirspace_record e1 a r Hr)
    as (id0 & id & name & type & bs & extras & Hget & Hid & -> & Tid & Tname
        & Hbs & Hex).
  destruct (convertAirspace_again e2 id name type bs extras Tid Tname Hbs Hex)
    as (type' & extras' & Ht & Hex' & Hr').
  exists id, name, type, type', bs, extras, extras'.
  split; [reflexivity|]. split; [exact Tid|]. split; [exact Tname|].
  split; [exact Ht|]. split; [exact Hbs|]. split; [exact Hex'|].
  split; [exact Hr'|].
  intros Hprim.
  assert (Hp : primitive id = true).
  { rewrite Hid. apply primitive_or_else; [exact (Hprim id0 Hget)|reflexivity]. }
  destruct (toString_primitive id Hp) as (label & Hlabel).
  exists label. split; [exact Hlabel|].
  rewrite (validate_record id name type' label _ extras' Tid Tname Hlabel).
  destruct bs; reflexivity.
Qed.

End Reapplication.

(** C9 at a parsed airspace with one boundary and both limits: the record
    converted again keeps the id YSSY-CTR and the name, its one point is
    (0, 0), and the validator has no warning. *)
Lemma convertAirspace_reapplied_witness :
  exists r r',
    Converter.convertAirspace (R := Samples.sample_runtime)
      Samples.sample_entropy Samples.parsed_airspace = Ok r /\
    Converter.convertAirspace (R := Samples.sample_runtime)
      Samples.sample_entropy r = Ok r' /\
    Js.get r' "id" = Ok (VStr "YSSY-CTR") /\
    Js.get r' "boundaries"
    = Ok (VArr [ Converter.converted_boundary (of_Z 0) (of_Z 0) ]) /\
    Converter.validateVATGlassesData (R := Samples.sample_runtime)
      (VObj [ ("airspace", VArr [r']) ])
    = Ok {| Converter.valid := true; Converter.errors := [];
            Converter.warnings := [] |}.
Proof.
  eexists.
  destruct (convertAirspace_reapplied (R := Samples.sample_runtime)
              Samples.sample_entropy Samples.sample_entropy
              Samples.parsed_airspace _ eq_refl)
    as (id & name & type & type' & bs & extras & extras' & Hr & _ & _ & _ & _ & _
        & Hr' & Hvalid).
  destruct Hvalid as (label & _ & Hv).
  { intros id0 H. vm_compute in H. injection H as <-. reflexivity. }
  eexists. split; [reflexivity|]. split; [exact Hr'|].
  vm_compute in Hr. injection Hr as <- <- <- <- <-.
  split; [reflexivity|]. split; [reflexivity|]. exact Hv.
Defined.
